(** * Farcaster account association: generator and verifier scripts

    A shallow embedding of
      - scripts/generate-farcaster-auth.js   (real Ed25519 signatures),
      - scripts/verify-farcaster-signature.js (stand-alone verifier),
      - the placeholder generator variant (updateManifest),
    together with the JavaScript primitives they call.

    Conventions.
    - A JavaScript string is a [string] that holds the bytes of its UTF-8
      encoding; a surrogate without a partner, which UTF-8 cannot encode,
      is carried as the three bytes of its own value.  Files and
      configuration values are well-formed UTF-8 text.  Hexadecimal and
      base64 text is ASCII, where code units, bytes and characters
      coincide: [String.length] is the JavaScript length on ASCII text
      only, and the statements that count characters or decode base64 say
      which text they are about.
    - A Number is an IEEE 754 binary64 value ([Number.number]): what
      [parseInt] and [JSON.parse] return is rounded to nearest, ties to
      even, and [JSON.stringify] writes the shortest decimal that reads
      back as the same value.
    - A [Uint8Array] / [Buffer] is a [list byte].
    - [undefined] is [None] at type [option _]; a thrown exception and
      [process.exit] are explicit results of the [M] monad. *)

From Stdlib Require Import ZArith NArith List Bool Lia.
From Stdlib.Strings Require Import String Ascii Byte.
From Stdlib Require Import DecimalString.
From Stdlib Require DecimalN DecimalFacts Wf_nat.
Import ListNotations.
Local Open Scope string_scope.

Definition bytes := list byte.

(** ** Numbers: IEEE 754 binary64 *)
Module Number.

(** [Finite neg m e] is [(-1)^neg * m * 2^e] with [m] odd, or a zero
    ([m = 0], [e = 0]) with its sign. *)
Inductive number : Type :=
| NaN
| Infinity (neg : bool)
| Finite (neg : bool) (m : N) (e : Z).

(** The odd part of a mantissa and the power of two taken out of it. *)
Fixpoint oddPart (p : positive) : positive * Z :=
  match p with
  | xO p' => let '(o, k) := oddPart p' in (o, k + 1)%Z
  | _ => (p, 0%Z)
  end.

Definition normalize (neg : bool) (m e : Z) : number :=
  match m with
  | Zpos p => let '(o, k) := oddPart p in Finite neg (Npos o) (e + k)
  | _ => Finite neg 0 0
  end.

(** Numerator and denominator of [p / (q * 2^E)]. *)
Definition scaled (p q E : Z) : Z * Z :=
  if (0 <=? E)%Z then (p, q * 2 ^ E)%Z else (p * 2 ^ (- E), q)%Z.

(** The Number value of the rational [p / q] ([0 <= p], [0 < q]) with the
    sign [neg]: with [e0] the exponent of the leading bit, the quotient is
    cut to 53 bits (fewer below [2^-1022], where the spacing stays
    [2^-1074]) and rounded to nearest, ties to even; from [2^1024] on the
    result is infinite. *)
Definition round (neg : bool) (p q : Z) : number :=
  if (p <=? 0)%Z then Finite neg 0 0
  else
    let d := (Z.log2 p - Z.log2 q)%Z in
    let '(n0, d0) := scaled p q d in
    let e0 := if (n0 <? d0)%Z then (d - 1)%Z else d in
    let E := Z.max (e0 - 52) (-1074) in
    let '(n, dn) := scaled p q E in
    let M := (n / dn)%Z in
    let r := (n mod dn)%Z in
    let M' := if (2 * r <? dn)%Z then M
              else if (dn <? 2 * r)%Z then (M + 1)%Z
              else if Z.even M then M else (M + 1)%Z in
    if (1024 <=? Z.log2 M' + E)%Z then Infinity neg else normalize neg M' E.

(** The Number value of the decimal [m * 10^e]. *)
Definition fromDecimal (neg : bool) (m : N) (e : Z) : number :=
  if (0 <=? e)%Z then round neg (Z.of_N m * 10 ^ e) 1
  else round neg (Z.of_N m) (10 ^ (- e)).

Definition eqb (x y : number) : bool :=
  match x, y with
  | NaN, NaN => true
  | Infinity a, Infinity b => Bool.eqb a b
  | Finite a m e, Finite b m' e' => Bool.eqb a b && (m =? m')%N && (e =? e')%Z
  | _, _ => false
  end.

(** ToBoolean: [NaN] and the zeros are falsy. *)
Definition truthy (x : number) : bool :=
  match x with
  | NaN => false
  | Infinity _ => true
  | Finite _ m _ => negb (m =? 0)%N
  end.

(** [x > 0] *)
Definition positive (x : number) : bool :=
  match x with
  | NaN => false
  | Infinity neg => negb neg
  | Finite neg m _ => negb neg && negb (m =? 0)%N
  end.

(** The integer part of a finite number, [0] for the others. *)
Definition truncate (x : number) : Z :=
  match x with
  | Finite neg m e =>
      let mag := if (0 <=? e)%Z then (Z.of_N m * 2 ^ e)%Z else (Z.of_N m / 2 ^ (- e))%Z in
      if neg then (- mag)%Z else mag
  | _ => 0%Z
  end.

End Number.

(** ** JavaScript string primitives *)
Module JS.

Definition code (c : ascii) : N := N_of_ascii c.

(** [s.startsWith(p)] *)
Fixpoint startsWith (p s : string) : bool :=
  match p, s with
  | EmptyString, _ => true
  | String a p', String b s' => Ascii.eqb a b && startsWith p' s'
  | String _ _, EmptyString => false
  end.

(** Drop the first [n] code units. *)
Fixpoint drop (n : nat) (s : string) : string :=
  match n, s with
  | O, _ => s
  | S n', String _ s' => drop n' s'
  | S _, EmptyString => EmptyString
  end.

(** [s.replace(/^0x/, '')] *)
Definition replace_0x (s : string) : string :=
  if startsWith "0x" s then drop 2 s else s.

(** [s.replace(/^https?:\/\//, '')] *)
Definition replace_protocol (s : string) : string :=
  if startsWith "http://" s then drop 7 s
  else if startsWith "https://" s then drop 8 s
  else s.

(** [s.substr(i, n)] for [0 <= i]. *)
Definition substr (s : string) (i n : nat) : string := substring i n s.

(** White space skipped by [parseInt]: WhiteSpace and LineTerminator.
    The ASCII ones are TAB, LF, VT, FF, CR and the space. *)
Definition isWhiteSpace (c : ascii) : bool :=
  let n := code c in
  ((9 <=? n) && (n <=? 13) || (n =? 32))%N.

(** U+00A0 as UTF-8. *)
Definition isWhiteSpace2 (a b : ascii) : bool :=
  ((code a =? 194) && (code b =? 160))%N.

(** U+1680, U+2000 to U+200A, U+2028, U+2029, U+202F, U+205F, U+3000 and
    U+FEFF as UTF-8. *)
Definition isWhiteSpace3 (a b c : ascii) : bool :=
  let x := code a in
  let y := code b in
  let z := code c in
  ((x =? 225) && (y =? 154) && (z =? 128)
   || (x =? 226) && (y =? 128)
      && ((128 <=? z) && (z <=? 138) || (z =? 168) || (z =? 169) || (z =? 175))
   || (x =? 226) && (y =? 129) && (z =? 159)
   || (x =? 227) && (y =? 128) && (z =? 128)
   || (x =? 239) && (y =? 187) && (z =? 191))%N.

Fixpoint trimStart (s : string) : string :=
  match s with
  | String a r1 =>
      if isWhiteSpace a then trimStart r1
      else
        match r1 with
        | String b r2 =>
            if isWhiteSpace2 a b then trimStart r2
            else
              match r2 with
              | String c r3 => if isWhiteSpace3 a b c then trimStart r3 else s
              | EmptyString => s
              end
        | EmptyString => s
        end
  | EmptyString => EmptyString
  end.

(** Value of a digit in radixes up to 36. *)
Definition digitValue (c : ascii) : option N :=
  let n := code c in
  (if (48 <=? n) && (n <=? 57) then Some (n - 48)
   else if (97 <=? n) && (n <=? 122) then Some (n - 87)
   else if (65 <=? n) && (n <=? 90) then Some (n - 55)
   else None)%N.

(** The longest prefix of radix-[R] digits, read as a number; [None] when
    that prefix is empty. *)
Fixpoint readDigits (R : N) (s : string) (acc : option N) : option N :=
  match s with
  | String c r =>
      match digitValue c with
      | Some d =>
          if (d <? R)%N
          then readDigits R r (Some (match acc with Some a => a * R + d | None => d end)%N)
          else acc
      | None => acc
      end
  | EmptyString => acc
  end.

(** [parseInt(s, radix)]; [radix = None] is the one-argument call.  The
    integer that was read is rounded to a Number; no digit gives NaN, and
    a minus sign before zero gives minus zero. *)
Definition parseInt (s : string) (radix : option N) : Number.number :=
  let s1 := trimStart s in
  let '(neg, s2) :=
    match s1 with
    | String "-" r => (true, r)
    | String "+" r => (false, r)
    | _ => (false, s1)
    end in
  let R0 := match radix with None => 0%N | Some r => r end in
  if ((R0 =? 0) || ((2 <=? R0) && (R0 <=? 36)))%N then
    let stripPrefix := ((R0 =? 0) || (R0 =? 16))%N in
    let R1 := if (R0 =? 0)%N then 10%N else R0 in
    let '(R, s3) :=
      if stripPrefix && (startsWith "0x" s2 || startsWith "0X" s2)
      then (16%N, drop 2 s2) else (R1, s2) in
    match readDigits R s3 None with
    | Some n => Number.round neg (Z.of_N n) 1
    | None => Number.NaN
    end
  else Number.NaN.

(** [isNaN(parseInt(..))] *)
Definition isNaN (v : Number.number) : bool :=
  match v with Number.NaN => true | _ => false end.

(** Storing a number into a [Uint8Array] element: NaN and the infinities
    become 0, a finite number is cut to its integer part, taken modulo
    256. *)
Definition ToUint8 (v : Number.number) : byte :=
  match Byte.of_N (Z.to_N (Number.truncate v mod 256)) with
  | Some b => b
  | None => x00
  end.

(** [new Uint8Array(n)] *)
Definition newUint8Array (n : nat) : bytes := repeat x00 n.

(** [a[i] = v] on a typed array: a write past the end is ignored. *)
Fixpoint typedSet (a : bytes) (i : nat) (v : byte) : bytes :=
  match a, i with
  | [], _ => []
  | _ :: t, O => v :: t
  | h :: t, S i' => h :: typedSet t i' v
  end.

(** One hexadecimal digit of [Number.prototype.toString(16)]. *)
Definition hexDigit (n : N) : ascii :=
  (if n <? 10 then ascii_of_N (48 + n) else ascii_of_N (87 + n))%N.

(** [n.toString(16)] for a byte value. *)
Definition toString16 (b : byte) : string :=
  let n := Byte.to_N b in
  (if n <? 16 then String (hexDigit n) EmptyString
   else String (hexDigit (n / 16)) (String (hexDigit (n mod 16)) EmptyString))%N.

(** [s.padStart(2, '0')] *)
Definition padStart2 (s : string) : string :=
  match String.length s with
  | O => "00"
  | S O => String "0" s
  | _ => s
  end.

(** [parts.join('')] *)
Definition join (parts : list string) : string :=
  fold_right String.append EmptyString parts.

(** [new TextEncoder().encode(s)] and [Buffer.from(s)] *)
Definition encodeUtf8 (s : string) : bytes := list_byte_of_string s.

(** [buf.toString('utf-8')] *)
Definition decodeUtf8 (b : bytes) : string := string_of_list_byte b.

End JS.

(** ** Codec: hexadecimal *)

(** The loop of [hexToBytes]:
    [for (let i = 0; i < cleanHex.length; i += 2)
       bytes[i / 2] = parseInt(cleanHex.substr(i, 2), 16);]
    [fuel] bounds the number of iterations. *)
Fixpoint hexToBytes_loop (fuel : nat) (cleanHex : string) (i : nat) (bs : bytes) : bytes :=
  match fuel with
  | O => bs
  | S fuel' =>
      if (i <? String.length cleanHex)%nat
      then hexToBytes_loop fuel' cleanHex (i + 2)
             (JS.typedSet bs (i / 2) (JS.ToUint8 (JS.parseInt (JS.substr cleanHex i 2) (Some 16%N))))
      else bs
  end.

(** [hexToBytes(hex)] on a string argument.  [cleanHex.length / 2] may be
    fractional; the [Uint8Array] constructor truncates it. *)
Definition hexToBytes (hex : string) : bytes :=
  let cleanHex := JS.replace_0x hex in
  let bs := JS.newUint8Array (String.length cleanHex / 2) in
  hexToBytes_loop (String.length cleanHex) cleanHex 0 bs.

(** [bytesToHex(bytes)] *)
Definition bytesToHex (bs : bytes) : string :=
  JS.join (map (fun b => JS.padStart2 (JS.toString16 b)) bs).


(** ** Codec: base64 as implemented by Node's [Buffer] *)
Module Base64.

(** The character of a 6-bit value in the standard alphabet. *)
Definition encChar (n : N) : ascii :=
  (if n <? 26 then ascii_of_N (65 + n)
   else if n <? 52 then ascii_of_N (71 + n)
   else if n <? 62 then ascii_of_N (n - 4)
   else if n =? 62 then "+"%char else "/"%char)%N.

(** [buf.toString('base64')]: standard alphabet, padded with [=]. *)
Fixpoint encode (b : bytes) : string :=
  match b with
  | [] => EmptyString
  | [x] =>
      let n := Byte.to_N x in
      String (encChar (n / 4)) (String (encChar ((n mod 4) * 16)) "==")%N
  | [x; y] =>
      let n := Byte.to_N x in
      let m := Byte.to_N y in
      String (encChar (n / 4))
        (String (encChar ((n mod 4) * 16 + m / 16))
           (String (encChar ((m mod 16) * 4)) "="))%N
  | x :: y :: z :: r =>
      let n := Byte.to_N x in
      let m := Byte.to_N y in
      let k := Byte.to_N z in
      String (encChar (n / 4))
        (String (encChar ((n mod 4) * 16 + m / 16))
           (String (encChar ((m mod 16) * 4 + k / 64))
              (String (encChar (k mod 64)) (encode r))))%N
  end.

(** The 6-bit value of a character; the decoder accepts the standard and
    the URL-safe alphabet. *)
Definition unbase64 (c : ascii) : option N :=
  let n := JS.code c in
  (if (65 <=? n) && (n <=? 90) then Some (n - 65)
   else if (97 <=? n) && (n <=? 122) then Some (n - 71)
   else if (48 <=? n) && (n <=? 57) then Some (n + 4)
   else if (n =? 43) || (n =? 45) then Some 62
   else if (n =? 47) || (n =? 95) then Some 63
   else None)%N.

(** The 6-bit values read by the decoder: characters outside the alphabets
    are skipped, and the first [=] ends the input. *)
Fixpoint sextets (s : string) : list N :=
  match s with
  | EmptyString => []
  | String c r =>
      if Ascii.eqb c "="%char then []
      else match unbase64 c with
           | Some v => v :: sextets r
           | None => sextets r
           end
  end.

Definition toByte (n : N) : byte :=
  match Byte.of_N (n mod 256) with Some b => b | None => x00 end.

(** Four 6-bit values give three bytes; a final group of two or three
    gives one or two bytes, and a single left-over value gives none. *)
Fixpoint pack (l : list N) : bytes :=
  match l with
  | a :: b :: c :: d :: r =>
      toByte (a * 4 + b / 16) :: toByte ((b mod 16) * 16 + c / 4)
        :: toByte ((c mod 4) * 64 + d) :: pack r
  | [a; b; c] => [toByte (a * 4 + b / 16); toByte ((b mod 16) * 16 + c / 4)]
  | [a; b] => [toByte (a * 4 + b / 16)]
  | _ => []
  end%N.

(** [Buffer.from(s, 'base64')] *)
Definition decode (s : string) : bytes := pack (sextets s).

(** The characters [toString('base64')] can produce. *)
Definition isBase64Char (c : ascii) : bool :=
  let n := JS.code c in
  ((65 <=? n) && (n <=? 90) || (97 <=? n) && (n <=? 122) || (48 <=? n) && (n <=? 57)
   || (n =? 43) || (n =? 47) || (n =? 61))%N.

Fixpoint isBase64 (s : string) : bool :=
  match s with
  | EmptyString => true
  | String c r => isBase64Char c && isBase64 r
  end.

End Base64.


(** ** JSON values, [JSON.parse] and [JSON.stringify] *)
Module JSON.

#[local] Set Warnings "-register-all".

(** The values [JSON.parse] returns and [JSON.stringify] is given; a
    number that is not finite can only come from a computation. *)
Inductive json : Type :=
| JNull
| JBool (b : bool)
| JNum (x : Number.number)
| JStr (s : string)
| JArr (items : list json)
| JObj (fields : list (string * json)).

(** A JavaScript value read from a property: [None] is [undefined]. *)
Definition jsval := option json.

(** ToBoolean *)
Definition truthy (v : jsval) : bool :=
  match v with
  | None => false
  | Some JNull => false
  | Some (JBool b) => b
  | Some (JNum x) => Number.truthy x
  | Some (JStr s) => negb (String.eqb s EmptyString)
  | Some (JArr _) => true
  | Some (JObj _) => true
  end.

Fixpoint lookup (k : string) (fields : list (string * json)) : jsval :=
  match fields with
  | [] => None
  | (k', v) :: r => if String.eqb k k' then Some v else lookup k r
  end.

(** Reading [v.k] for a key that no prototype defines; reading from
    [null] or [undefined] throws and is handled by the callers. *)
Definition getProp (v : json) (k : string) : jsval :=
  match v with
  | JObj fields => lookup k fields
  | _ => None
  end.

Definition isDigit (c : ascii) : bool :=
  let n := JS.code c in ((48 <=? n) && (n <=? 57))%N.

Fixpoint allDigits (s : string) : bool :=
  match s with
  | EmptyString => true
  | String c r => isDigit c && allDigits r
  end.

Fixpoint digitsValue (s : string) (acc : N) : N :=
  match s with
  | EmptyString => acc
  | String c r => digitsValue r (acc * 10 + (JS.code c - 48))%N
  end.

(** An array index is a canonical decimal numeral below 2^32 - 1; such
    keys are enumerated first, in ascending order. *)
Definition arrayIndex (k : string) : option N :=
  match k with
  | EmptyString => None
  | String c r =>
      if allDigits k && (negb (Ascii.eqb c "0"%char) || String.eqb r EmptyString)
      then let n := digitsValue k 0 in
           if (n <? 4294967295)%N then Some n else None
      else None
  end.

(** Place a new key in enumeration order. *)
Fixpoint insertNew (k : string) (v : json) (fields : list (string * json))
  : list (string * json) :=
  match fields with
  | [] => [(k, v)]
  | (k', v') :: r =>
      match arrayIndex k with
      | None => (k', v') :: insertNew k v r
      | Some n =>
          match arrayIndex k' with
          | Some n' => if (n <? n')%N then (k, v) :: fields
                       else (k', v') :: insertNew k v r
          | None => (k, v) :: fields
          end
      end
  end.

Fixpoint replaceVal (k : string) (v : json) (fields : list (string * json))
  : list (string * json) :=
  match fields with
  | [] => []
  | (k', v') :: r =>
      if String.eqb k k' then (k', v) :: r else (k', v') :: replaceVal k v r
  end.

(** [o[k] = v] on the own properties of an ordinary object: an existing
    key keeps its place, a new key is added. *)
Definition setField (k : string) (v : json) (fields : list (string * json))
  : list (string * json) :=
  match lookup k fields with
  | Some _ => replaceVal k v fields
  | None => insertNew k v fields
  end.

(** *** JSON.parse *)

Definition isJsonWs (c : ascii) : bool :=
  let n := JS.code c in ((n =? 32) || (n =? 9) || (n =? 10) || (n =? 13))%N.

Fixpoint skipWs (s : string) : string :=
  match s with
  | String c r => if isJsonWs c then skipWs r else s
  | EmptyString => EmptyString
  end.

Definition dquote : ascii := ascii_of_N 34.
Definition backslash : ascii := ascii_of_N 92.

Definition byteChar (n : N) : ascii := ascii_of_N (n mod 256).

(** UTF-8 bytes of a code point: the value of a [\uXXXX] escape, or of
    two escapes that form a surrogate pair.  A surrogate that stands alone
    is carried as the three bytes of its own value. *)
Definition utf8OfCode (cp : N) : string :=
  (if cp <? 128 then String (byteChar cp) EmptyString
   else if cp <? 2048 then
     String (byteChar (192 + cp / 64)) (String (byteChar (128 + cp mod 64)) EmptyString)
   else if cp <? 65536 then
     String (byteChar (224 + cp / 4096))
       (String (byteChar (128 + (cp / 64) mod 64))
          (String (byteChar (128 + cp mod 64)) EmptyString))
   else
     String (byteChar (240 + cp / 262144))
       (String (byteChar (128 + (cp / 4096) mod 64))
          (String (byteChar (128 + (cp / 64) mod 64))
             (String (byteChar (128 + cp mod 64)) EmptyString))))%N.

Definition isHighSurrogate (cp : N) : bool := ((55296 <=? cp) && (cp <=? 56319))%N.
Definition isLowSurrogate (cp : N) : bool := ((56320 <=? cp) && (cp <=? 57343))%N.


Definition hex4 (a b c d : ascii) : option N :=
  match JS.digitValue a, JS.digitValue b, JS.digitValue c, JS.digitValue d with
  | Some x, Some y, Some z, Some w =>
      if ((x <? 16) && (y <? 16) && (z <? 16) && (w <? 16))%N
      then Some (((x * 16 + y) * 16 + z) * 16 + w)%N else None
  | _, _, _, _ => None
  end.

(** The low surrogate escaped at the head of [s], if there is one. *)
Definition lowSurrogateEscape (s : string) : option N :=
  match s with
  | String b r1 =>
      if Ascii.eqb b backslash then
        match r1 with
        | String u r2 =>
            if Ascii.eqb u "u"%char then
              match r2 with
              | String g1 (String g2 (String g3 (String g4 _))) =>
                  match hex4 g1 g2 g3 g4 with
                  | Some lo => if isLowSurrogate lo then Some lo else None
                  | None => None
                  end
              | _ => None
              end
            else None
        | EmptyString => None
        end
      else None
  | EmptyString => None
  end.

Definition escapeChar (c : ascii) : option ascii :=
  let n := JS.code c in
  (if n =? 34 then Some dquote
   else if n =? 92 then Some backslash
   else if n =? 47 then Some "/"%char
   else if n =? 98 then Some (ascii_of_N 8)
   else if n =? 102 then Some (ascii_of_N 12)
   else if n =? 110 then Some (ascii_of_N 10)
   else if n =? 114 then Some (ascii_of_N 13)
   else if n =? 116 then Some (ascii_of_N 9)
   else None)%N.

(** The rest of a string literal, after the opening quote. *)
Fixpoint parseStringBody (s : string) : option (string * string) :=
  match s with
  | EmptyString => None
  | String c r =>
      if Ascii.eqb c dquote then Some (EmptyString, r)
      else if Ascii.eqb c backslash then
        match r with
        | String e r' =>
            if Ascii.eqb e "u"%char then
              match r' with
              | String h1 (String h2 (String h3 (String h4 r''))) =>
                  match hex4 h1 h2 h3 h4 with
                  | Some cp =>
                      match (if isHighSurrogate cp then lowSurrogateEscape r'' else None) with
                      | Some lo =>
                          match r'' with
                          | String _ (String _ (String _ (String _ (String _ (String _ r6))))) =>
                              match parseStringBody r6 with
                              | Some (str, rest) =>
                                  Some (utf8OfCode (65536 + (cp - 55296) * 1024 + (lo - 56320))
                                        ++ str, rest)
                              | None => None
                              end
                          | _ => None
                          end
                      | None =>
                          match parseStringBody r'' with
                          | Some (str, rest) => Some (utf8OfCode cp ++ str, rest)
                          | None => None
                          end
                      end
                  | None => None
                  end
              | _ => None
              end
            else
              match escapeChar e, parseStringBody r' with
              | Some x, Some (str, rest) => Some (String x str, rest)
              | _, _ => None
              end
        | EmptyString => None
        end
      else if (JS.code c <? 32)%N then None
      else match parseStringBody r with
           | Some (str, rest) => Some (String c str, rest)
           | None => None
           end
  end.

(** A maximal run of decimal digits. *)
Fixpoint spanDigits (s : string) : string * string :=
  match s with
  | String c r =>
      if isDigit c then let '(d, rest) := spanDigits r in (String c d, rest)
      else (EmptyString, s)
  | EmptyString => (EmptyString, EmptyString)
  end.

(** A number literal: [-? int frac? exp?]. *)
Definition parseNumber (s : string) : option (json * string) :=
  let '(neg, s1) :=
    match s with
    | String "-" r => (true, r)
    | _ => (false, s)
    end in
  let '(ip, s2) := spanDigits s1 in
  match ip with
  | EmptyString => None
  | String c0 more =>
      if Ascii.eqb c0 "0"%char && negb (String.eqb more EmptyString) then None
      else
        let fracPart :=
          match s2 with
          | String "." r =>
              let '(fp, s3) := spanDigits r in
              match fp with
              | EmptyString => None
              | _ => Some (fp, s3)
              end
          | _ => Some (EmptyString, s2)
          end in
        match fracPart with
        | None => None
        | Some (fp, s3) =>
            let expPart :=
              match s3 with
              | String x r =>
                  if Ascii.eqb x "e"%char || Ascii.eqb x "E"%char then
                    let '(eneg, r1) :=
                      match r with
                      | String "-" r' => (true, r')
                      | String "+" r' => (false, r')
                      | _ => (false, r)
                      end in
                    let '(ep, s4) := spanDigits r1 in
                    match ep with
                    | EmptyString => None
                    | _ => let ev := Z.of_N (digitsValue ep 0) in
                           Some ((if eneg then - ev else ev)%Z, s4)
                    end
                  else Some (0%Z, s3)
              | EmptyString => Some (0%Z, s3)
              end in
            match expPart with
            | None => None
            | Some (ev, s4) =>
                Some (JNum (Number.fromDecimal neg (digitsValue (ip ++ fp) 0)
                              (ev - Z.of_nat (String.length fp))), s4)
            end
        end
  end.

Definition expect (lit : string) (v : json) (s : string) : option (json * string) :=
  if JS.startsWith lit s then Some (v, JS.drop (String.length lit) s) else None.

(** Values, object members and array elements; [fuel] bounds the nesting
    and the number of members. *)
Fixpoint parseValue (fuel : nat) (s : string) : option (json * string) :=
  match fuel with
  | O => None
  | S f =>
      match skipWs s with
      | EmptyString => None
      | String c r =>
          if Ascii.eqb c "{"%char then
            match skipWs r with
            | String "}" r' => Some (JObj [], r')
            | r0 => parseMembers f r0 []
            end
          else if Ascii.eqb c "["%char then
            match skipWs r with
            | String "]" r' => Some (JArr [], r')
            | r0 => parseElements f r0 []
            end
          else if Ascii.eqb c dquote then
            match parseStringBody r with
            | Some (str, rest) => Some (JStr str, rest)
            | None => None
            end
          else if Ascii.eqb c "t"%char then expect "true" (JBool true) (String c r)
          else if Ascii.eqb c "f"%char then expect "false" (JBool false) (String c r)
          else if Ascii.eqb c "n"%char then expect "null" JNull (String c r)
          else parseNumber (String c r)
      end
  end
with parseMembers (fuel : nat) (s : string) (acc : list (string * json))
  : option (json * string) :=
  match fuel with
  | O => None
  | S f =>
      match skipWs s with
      | String c r =>
          if Ascii.eqb c dquote then
            match parseStringBody r with
            | Some (k, r1) =>
                match skipWs r1 with
                | String ":" r2 =>
                    match parseValue f r2 with
                    | Some (v, r3) =>
                        let acc' := setField k v acc in
                        match skipWs r3 with
                        | String "," r4 => parseMembers f r4 acc'
                        | String "}" r4 => Some (JObj acc', r4)
                        | _ => None
                        end
                    | None => None
                    end
                | _ => None
                end
            | None => None
            end
          else None
      | EmptyString => None
      end
  end
with parseElements (fuel : nat) (s : string) (acc : list json)
  : option (json * string) :=
  match fuel with
  | O => None
  | S f =>
      match parseValue f s with
      | Some (v, r1) =>
          match skipWs r1 with
          | String "," r2 => parseElements f r2 (acc ++ [v])
          | String "]" r2 => Some (JArr (acc ++ [v]), r2)
          | _ => None
          end
      | None => None
      end
  end.

(** [JSON.parse(text)]; [None] is a thrown SyntaxError. *)
Definition parse (text : string) : option json :=
  match parseValue (2 * String.length text + 2) text with
  | Some (v, rest) =>
      match skipWs rest with
      | EmptyString => Some v
      | _ => None
      end
  | None => None
  end.

(** *** JSON.stringify *)

Fixpoint joinWith (sep : string) (parts : list string) : string :=
  match parts with
  | [] => EmptyString
  | [x] => x
  | x :: r => x ++ sep ++ joinWith sep r
  end.

Definition newline : string := String (ascii_of_N 10) EmptyString.

(** QuoteJSONString, character by character. *)
Definition quoteChar (c : ascii) : string :=
  let n := JS.code c in
  (if n =? 34 then String backslash (String dquote EmptyString)
   else if n =? 92 then String backslash (String backslash EmptyString)
   else if n =? 8 then String backslash "b"
   else if n =? 9 then String backslash "t"
   else if n =? 10 then String backslash "n"
   else if n =? 12 then String backslash "f"
   else if n =? 13 then String backslash "r"
   else if n <? 32 then
     String backslash ("u00" ++ String (JS.hexDigit (n / 16)) (String (JS.hexDigit (n mod 16)) EmptyString))
   else String c EmptyString)%N.

(** A surrogate code unit that has no partner is carried in a string as
    the three bytes of its own value, [ED A0..BF 80..BF]. *)
Definition isSurrogateBytes (a b c : ascii) : bool :=
  ((JS.code a =? 237) && (160 <=? JS.code b) && (JS.code b <=? 191)
   && (128 <=? JS.code c) && (JS.code c <=? 191))%N.

Definition surrogateValue (b c : ascii) : N :=
  (55296 + (JS.code b - 160) * 64 + (JS.code c - 128))%N.

(** [\uXXXX] with lower-case digits, for a code unit. *)
Definition unicodeEscape (cp : N) : string :=
  String backslash
    (String "u"
       (String (JS.hexDigit (cp / 4096))
          (String (JS.hexDigit ((cp / 256) mod 16))
             (String (JS.hexDigit ((cp / 16) mod 16))
                (String (JS.hexDigit (cp mod 16)) EmptyString))))).

(** The characters of a string, quoted one by one.  A lone surrogate is
    written as its escape; a high surrogate followed by a low one is one
    character and is copied. *)
Fixpoint quoteBody (s : string) : string :=
  match s with
  | EmptyString => EmptyString
  | String a r =>
      match r with
      | String b (String c r3) =>
          if isSurrogateBytes a b c then
            match r3 with
            | String a' (String b' (String c' r6)) =>
                if isHighSurrogate (surrogateValue b c)
                   && isSurrogateBytes a' b' c'
                   && isLowSurrogate (surrogateValue b' c')
                then String a (String b (String c
                       (String a' (String b' (String c' (quoteBody r6))))))
                else unicodeEscape (surrogateValue b c) ++ quoteBody r3
            | _ => unicodeEscape (surrogateValue b c) ++ quoteBody r3
            end
          else quoteChar a ++ quoteBody r
      | _ => quoteChar a ++ quoteBody r
      end
  end.

Definition quote (s : string) : string :=
  String dquote (quoteBody s ++ String dquote EmptyString).

Definition decimal (n : N) : string := NilZero.string_of_uint (N.to_uint n).

Fixpoint zeros (n : nat) : string :=
  match n with O => EmptyString | S n' => String "0" (zeros n') end.

(** Remove the trailing zeros of a digit string: the digits kept (in
    reverse order while scanning) and the number of zeros removed. *)
Fixpoint dropZerosRev (rev : list ascii) (count : nat) : list ascii * nat :=
  match rev with
  | c :: r => if Ascii.eqb c "0"%char then dropZerosRev r (S count) else (rev, count)
  | [] => ([], count)
  end.

Definition stripTrailingZeros (s : string) : string * nat :=
  let '(rev', count) := dropZerosRev (List.rev (list_ascii_of_string s)) 0 in
  (string_of_list_ascii (List.rev rev'), count).

(** The exact decimal [s * 10^j] of [m * 2^e]. *)
Definition exactDecimal (m : N) (e : Z) : N * Z :=
  if (0 <=? e)%Z then ((m * 2 ^ Z.to_N e)%N, 0%Z)
  else ((m * 5 ^ Z.to_N (- e))%N, e).

(** The shortest decimal that reads back as [m * 2^e].  With the last
    [drop] digits of the exact decimal [sx * 10^j] left out, the value has
    two neighbours, one on each side; the search starts with one digit and
    stops at the first length at which a neighbour reads back as the
    value, taking the closer one when both do (the even one when they are
    equally close).  With no digit left out the decimal is exact. *)
Fixpoint shortestFrom (m : N) (e : Z) (sx : N) (j : Z) (drop : nat) : N * Z :=
  match drop with
  | O => (sx, j)
  | S drop' =>
      let u := (10 ^ N.of_nat drop)%N in
      let lo := (sx / u)%N in
      let hi := (lo + 1)%N in
      let j' := (j + Z.of_nat drop)%Z in
      let okLo := Number.eqb (Number.fromDecimal false lo j') (Number.Finite false m e) in
      let okHi := Number.eqb (Number.fromDecimal false hi j') (Number.Finite false m e) in
      let below := (sx - lo * u)%N in
      let above := (hi * u - sx)%N in
      if okLo && okHi then
        if (below <? above)%N then (lo, j')
        else if (above <? below)%N then (hi, j')
        else if N.even lo then (lo, j') else (hi, j')
      else if okLo then (lo, j')
      else if okHi then (hi, j')
      else shortestFrom m e sx j drop'
  end.

Definition shortest (m : N) (e : Z) : N * Z :=
  let '(sx, j) := exactDecimal m e in
  shortestFrom m e sx j (String.length (decimal sx) - 1).

(** Number::toString for the positive decimal [s * 10^j]: with [k]
    significant digits and [n] the position of the decimal point, plain
    digits up to 21 places, a fraction down to six zeros after the point,
    and exponent notation otherwise. *)
Definition decimalToString (s : N) (j : Z) : string :=
  let '(digits, z) := stripTrailingZeros (decimal s) in
  let k := Z.of_nat (String.length digits) in
  let n := (k + j + Z.of_nat z)%Z in
  if ((k <=? n) && (n <=? 21))%Z then digits ++ zeros (Z.to_nat (n - k))
  else if ((0 <? n) && (n <=? 21))%Z then
    JS.substr digits 0 (Z.to_nat n) ++ "." ++ JS.drop (Z.to_nat n) digits
  else if ((-6 <? n) && (n <=? 0))%Z then
    "0." ++ zeros (Z.to_nat (- n)) ++ digits
  else
    let x := (n - 1)%Z in
    let sgn := if (x <? 0)%Z then "-" else "+" in
    let ex := decimal (Z.abs_N x) in
    match digits with
    | String d EmptyString => String d ("e" ++ sgn ++ ex)
    | String d r => String d ("." ++ r ++ "e" ++ sgn ++ ex)
    | EmptyString => EmptyString
    end.

(** Number::toString *)
Definition numberToString (x : Number.number) : string :=
  match x with
  | Number.NaN => "NaN"
  | Number.Infinity neg => if neg then "-Infinity" else "Infinity"
  | Number.Finite neg m e =>
      if (m =? 0)%N then "0"
      else
        let '(s, j) := shortest m e in
        (if neg then "-" else EmptyString) ++ decimalToString s j
  end.

(** SerializeJSONProperty with indentation unit [gap] (empty for the
    compact form) at the current [indent]. *)
Fixpoint serialize (gap indent : string) (v : json) : string :=
  let compact := String.eqb gap EmptyString in
  let inner := indent ++ gap in
  let wrap (l r : string) (parts : list string) : string :=
    match parts with
    | [] => l ++ r
    | _ =>
        if compact then l ++ joinWith "," parts ++ r
        else l ++ newline ++ inner ++ joinWith ("," ++ newline ++ inner) parts
               ++ newline ++ indent ++ r
    end in
  match v with
  | JNull => "null"
  | JBool true => "true"
  | JBool false => "false"
  | JNum x =>
      match x with
      | Number.Finite _ _ _ => numberToString x
      | _ => "null"
      end
  | JStr s => quote s
  | JArr items => wrap "[" "]" (map (serialize gap inner) items)
  | JObj fields =>
      wrap "{" "}"
        (map (fun kv => quote (fst kv) ++ (if compact then ":" else ": ")
                          ++ serialize gap inner (snd kv)) fields)
  end.

(** [JSON.stringify(v)] *)
Definition stringify (v : json) : string := serialize EmptyString EmptyString v.

(** [JSON.stringify(v, null, 2)] *)
Definition stringify2 (v : json) : string := serialize "  " EmptyString v.

End JSON.

Import JSON.

(** ** Effects: configuration, manifest file, exceptions, process exit *)

Inductive jsError : Type :=
| TypeError
| SyntaxError
| SystemError
| CryptoError.

(** The three values of [process.env] the scripts read. *)
Record Config : Type := mkConfig {
  fid : option string;
  privateKey : option string;
  domain : option string
}.

(** The persisted unit: three base64 strings. *)
Record Association : Type := mkAssociation {
  header : string;
  payload : string;
  signature : string
}.

(** Calls into the Ed25519 package and writes of the manifest file, in
    the order they happen. *)
Inductive event : Type :=
| EvGetPublicKey (priv : bytes)
| EvSign (msg priv : bytes)
| EvVerify (sig msg pub : bytes)
| EvWriteFile (content : string).

(** What [writeFileSync] meets.  It opens the file with the flag [w],
    which empties it, and then writes: the write succeeds; or the file
    cannot be opened and stays as it was; or it is opened and the write
    fails once [written] characters are in it. *)
Inductive disk : Type :=
| Writable
| Unopenable
| FailsAfter (written : nat).

(** [manifestFile] is the text at [config.manifestPath] ([None]: the file
    cannot be read); [writable] tells what a write meets; [trace] holds
    the calls and the completed writes. *)
Record World : Type := mkWorld {
  config : Config;
  manifestFile : option string;
  writable : disk;
  trace : list event
}.

Inductive result (A : Type) : Type :=
| Ok (a : A)
| Throw (e : jsError)
| Exit (code : Z).
Arguments Ok {A} a.
Arguments Throw {A} e.
Arguments Exit {A} code.

Definition M (A : Type) : Type := World -> result A * World.

Definition ret {A} (a : A) : M A := fun w => (Ok a, w).

Definition bind {A B} (c : M A) (k : A -> M B) : M B :=
  fun w =>
    match c w with
    | (Ok a, w') => k a w'
    | (Throw e, w') => (Throw e, w')
    | (Exit n, w') => (Exit n, w')
    end.

Notation "x <- c ;; k" := (bind c (fun x => k))
  (at level 61, c at next level, right associativity).
Notation "c ;;; k" := (bind c (fun _ => k))
  (at level 61, right associativity).

Definition throw {A} (e : jsError) : M A := fun w => (Throw e, w).

(** [process.exit(code)]: no [catch] block intercepts it. *)
Definition exit {A} (code : Z) : M A := fun w => (Exit code, w).

(** [try { c } catch (error) { h error }] *)
Definition tryCatch {A} (c : M A) (h : jsError -> M A) : M A :=
  fun w =>
    match c w with
    | (Throw e, w') => h e w'
    | r => r
    end.

Definition getConfig : M Config := fun w => (Ok (config w), w).

Definition setDomain (d : string) : M unit :=
  fun w =>
    let c := config w in
    (Ok tt, mkWorld (mkConfig (fid c) (privateKey c) (Some d))
                    (manifestFile w) (writable w) (trace w)).

Definition emit (e : event) : M unit :=
  fun w => (Ok tt, mkWorld (config w) (manifestFile w) (writable w) (trace w ++ [e])).

(** [readFileSync(config.manifestPath, 'utf-8')] *)
Definition readFileSync : M string :=
  fun w =>
    match manifestFile w with
    | Some text => (Ok text, w)
    | None => (Throw SystemError, w)
    end.

(** [writeFileSync(config.manifestPath, text, 'utf-8')] *)
Definition writeFileSync (text : string) : M unit :=
  fun w =>
    match writable w with
    | Writable =>
        (Ok tt, mkWorld (config w) (Some text) (writable w) (trace w ++ [EvWriteFile text]))
    | Unopenable => (Throw SystemError, w)
    | FailsAfter written =>
        (Throw SystemError,
         mkWorld (config w) (Some (substring 0 written text)) (writable w) (trace w))
    end.

(** [JSON.parse] as a statement that may throw. *)
Definition JSON_parse (text : string) : M json :=
  match JSON.parse text with
  | Some v => ret v
  | None => throw SyntaxError
  end.

(** [target[k] = v] in strict mode, as far as [JSON.stringify] and later
    property reads can tell: a property set on an array is never
    serialised, a property set to [undefined] reads and serialises like a
    missing one, and [null] and primitives throw a TypeError. *)
Definition assignProp (target : json) (k : string) (v : jsval) : M json :=
  match target with
  | JObj fields =>
      match v with
      | Some x => ret (JObj (JSON.setField k x fields))
      | None => ret (JObj (filter (fun kv => negb (String.eqb k (fst kv))) fields))
      end
  | JArr _ => ret target
  | _ => throw TypeError
  end.

(** [!v] for a value of [process.env]. *)
Definition missingVar (v : option string) : bool :=
  match v with
  | None => true
  | Some s => String.eqb s EmptyString
  end.

(** The string held by a variable that is known to be set. *)
Definition the (v : option string) : string :=
  match v with Some s => s | None => EmptyString end.

(** ** The Ed25519 package

    [@noble/ed25519] is a dependency of the scripts, which call three of
    its functions.  [None] stands for a thrown exception. *)
Record Ed25519 : Type := mkEd25519 {
  getPublicKey : bytes -> option bytes;
  sign : bytes -> bytes -> option bytes;
  verify : bytes -> bytes -> bytes -> option bool
}.

Definition callLib {A} (e : event) (r : option A) : M A :=
  emit e ;;;
  match r with
  | Some a => ret a
  | None => throw CryptoError
  end.

(** ** Shared pieces of the scripts *)

(** The signed message: [`${header}.${payload}`] in the generator,
    [header + '.' + payload] in the verifier. *)
Definition composeMessage (headerB64 payloadB64 : string) : string :=
  headerB64 ++ "." ++ payloadB64.

(** [Buffer.from(JSON.stringify(obj)).toString('base64')] *)
Definition encodeBase64Json (obj : json) : string :=
  Base64.encode (JS.encodeUtf8 (JSON.stringify obj)).

(** The object literal [{ header, payload, signature }]. *)
Definition associationObject (a : Association) : json :=
  JObj [("header", JStr (header a)); ("payload", JStr (payload a));
        ("signature", JStr (signature a))].

(** ** scripts/generate-farcaster-auth.js *)
Module Generate.

Definition isHexChar (c : ascii) : bool :=
  let n := JS.code c in
  ((48 <=? n) && (n <=? 57) || (97 <=? n) && (n <=? 102) || (65 <=? n) && (n <=? 70))%N.

Fixpoint allHex (s : string) : bool :=
  match s with
  | EmptyString => true
  | String c r => isHexChar c && allHex r
  end.

(** [/^[a-fA-F0-9]{64}$/.test(s)] *)
Definition privateKeyRegex_test (s : string) : bool :=
  (String.length s =? 64)%nat && allHex s.

(** [validateConfig()] *)
Definition validateConfig : M unit :=
  c <- getConfig ;;
  let missing :=
    ((if missingVar (fid c) then ["FARCASTER_FID"] else [])
     ++ (if missingVar (privateKey c) then ["FARCASTER_PRIVATE_KEY"] else [])
     ++ (if missingVar (domain c) then ["FARCASTER_DOMAIN"] else []))%list in
  if (0 <? List.length missing)%nat then exit 1
  else if JS.isNaN (JS.parseInt (the (fid c)) None) then exit 1
  else
    let cleanPrivateKey := JS.replace_0x (the (privateKey c)) in
    if negb (privateKeyRegex_test cleanPrivateKey) then exit 1
    else setDomain (JS.replace_protocol (the (domain c))).

(** [hexToBytes(hex)]: on anything but a string, [hex.replace] throws. *)
Definition hexToBytes (hex : jsval) : M bytes :=
  match hex with
  | Some (JStr s) => ret (hexToBytes s)
  | _ => throw TypeError
  end.

(** [createHeader(fid, publicKey)] *)
Definition createHeader (fid : string) (publicKey : bytes) : string :=
  let header :=
    JObj [("fid", JNum (JS.parseInt fid None));
          ("type", JStr "custody");
          ("key", JStr ("0x" ++ bytesToHex publicKey))] in
  encodeBase64Json header.

(** [createPayload(domain)] *)
Definition createPayload (domain : string) : string :=
  encodeBase64Json (JObj [("domain", JStr domain)]).

Section WithEngine.
Variable ed25519 : Ed25519.

(** [signMessage(message, privateKeyBytes)] *)
Definition signMessage (message : string) (privateKeyBytes : bytes) : M string :=
  tryCatch
    (let messageBytes := JS.encodeUtf8 message in
     signature <- callLib (EvSign messageBytes privateKeyBytes)
                    (sign ed25519 messageBytes privateKeyBytes) ;;
     ret ("0x" ++ bytesToHex signature))
    (fun error => throw error).

(** [generateAccountAssociation()] *)
Definition generateAccountAssociation : M Association :=
  tryCatch
    (c <- getConfig ;;
     privateKeyBytes <- hexToBytes (option_map JStr (privateKey c)) ;;
     publicKey <- callLib (EvGetPublicKey privateKeyBytes)
                    (getPublicKey ed25519 privateKeyBytes) ;;
     let header := createHeader (the (fid c)) publicKey in
     let payload := createPayload (the (domain c)) in
     let message := composeMessage header payload in
     signature <- signMessage message privateKeyBytes ;;
     signatureBytes <- hexToBytes (Some (JStr signature)) ;;
     let signatureBase64 := Base64.encode signatureBytes in
     ret (mkAssociation header payload signatureBase64))
    (fun error => throw error).

(** The default manifest of [loadOrCreateManifest]. *)
Definition defaultManifest (domain : string) : json :=
  JObj [("accountAssociation", JObj []);
        ("miniapp",
         JObj [("version", JStr "1");
               ("name", JStr "Farcaster Mini App");
               ("iconUrl", JStr ("https://" ++ domain ++ "/images/flux-icon-2025-08-17T06-04-24-740Z.png"));
               ("homeUrl", JStr ("https://" ++ domain));
               ("imageUrl", JStr ("https://" ++ domain ++ "/images/flux-embed-2025-08-17T06-04-35-570Z.png"));
               ("buttonTitle", JStr "Launch App");
               ("splashImageUrl", JStr ("https://" ++ domain ++ "/images/flux-splash-2025-08-17T06-04-46-411Z.png"));
               ("splashBackgroundColor", JStr "#0ea5e9")])].

(** [loadOrCreateManifest()]: the [try] block returns the parsed file, or
    falls through when the file is empty; every exception is swallowed. *)
Definition loadOrCreateManifest : M json :=
  loaded <- tryCatch
              (probe <- readFileSync ;;
               if negb (String.eqb probe EmptyString) then
                 content <- readFileSync ;;
                 v <- JSON_parse content ;;
                 ret (Some v)
               else ret None)
              (fun _ => ret None) ;;
  match loaded with
  | Some manifest => ret manifest
  | None => c <- getConfig ;; ret (defaultManifest (the (domain c)))
  end.

(** [saveManifest(manifest)] *)
Definition saveManifest (manifest : json) : M unit :=
  tryCatch
    (let manifestJson := JSON.stringify2 manifest in
     writeFileSync manifestJson)
    (fun error => throw error).

(** Reading [headerJson.key]: a property read on [null] throws. *)
Definition readKey (headerJson : json) : M jsval :=
  match headerJson with
  | JNull => throw TypeError
  | _ => ret (JSON.getProp headerJson "key")
  end.

(** [verifySignature(accountAssociation)] *)
Definition verifySignature (accountAssociation : Association) : M bool :=
  tryCatch
    (headerJson <- JSON_parse (JS.decodeUtf8 (Base64.decode (header accountAssociation))) ;;
     key <- readKey headerJson ;;
     publicKeyBytes <- hexToBytes key ;;
     let message := composeMessage (header accountAssociation) (payload accountAssociation) in
     let messageBytes := JS.encodeUtf8 message in
     let signatureBytes := Base64.decode (signature accountAssociation) in
     isValid <- callLib (EvVerify signatureBytes messageBytes publicKeyBytes)
                  (verify ed25519 signatureBytes messageBytes publicKeyBytes) ;;
     ret isValid)
    (fun _ => ret false).

(** [main()]; [displayResults] and the other console output have no
    effect on the configuration, the file or the calls traced. *)
Definition main : M unit :=
  tryCatch
    (validateConfig ;;;
     accountAssociation <- generateAccountAssociation ;;
     _ <- verifySignature accountAssociation ;;
     manifest <- loadOrCreateManifest ;;
     manifest' <- assignProp manifest "accountAssociation"
                    (Some (associationObject accountAssociation)) ;;
     saveManifest manifest')
    (fun _ => exit 1).

End WithEngine.
End Generate.

(** ** The placeholder generator: [updateManifest] *)
Module Placeholder.

(** Reading [manifest.miniapp] after the assignment above it succeeded. *)
Definition updateManifest (accountAssociation : Association) : M json :=
  tryCatch
    (manifestContent <- readFileSync ;;
     manifest <- JSON_parse manifestContent ;;
     manifest1 <- assignProp manifest "accountAssociation"
                    (Some (associationObject accountAssociation)) ;;
     manifest2 <-
       match JSON.getProp manifest1 "miniapp" with
       | Some miniapp =>
           if JSON.truthy (Some miniapp) then
             c <- getConfig ;;
             miniapp' <- assignProp miniapp "homeUrl" (option_map JStr (domain c)) ;;
             assignProp manifest1 "miniapp" (Some miniapp')
           else ret manifest1
       | None => ret manifest1
       end ;;
     writeFileSync (JSON.stringify2 manifest2) ;;;
     ret manifest2)
    (fun _ => exit 1).

End Placeholder.

(** ** scripts/verify-farcaster-signature.js *)
Module Verify.

(** [decodeBase64(base64String)]: [null] when decoding or parsing throws. *)
Definition decodeBase64 (base64String : string) : json :=
  match JSON.parse (JS.decodeUtf8 (Base64.decode base64String)) with
  | Some v => v
  | None => JNull
  end.

(** [hexToBytes(hex)]: [null] ([None]) when [hex.replace] throws. *)
Definition hexToBytes (hex : jsval) : option bytes :=
  match hex with
  | Some (JStr s) => Some (hexToBytes s)
  | _ => None
  end.

(** The object returned by [verifyAccountAssociation]. *)
Record Report : Type := mkReport {
  headerValid : bool;
  payloadValid : bool;
  domainFormatValid : jsval;
  fidValid : jsval;
  signatureValid : bool;
  signatureFormat : string;
  canVerifySignature : bool;
  message : string
}.

(** What a call of [verifyAccountAssociation] ends in. *)
Inductive outcome : Type :=
| ReturnedFalse
| Returned (r : Report)
| Rejected (e : jsError).

(** [payload.domain && !payload.domain.startsWith('http://')
      && !payload.domain.startsWith('https://')];
    [None] when [startsWith] is called on something that is not a string. *)
Definition domainCheck (payloadJson : json) : option jsval :=
  let d := JSON.getProp payloadJson "domain" in
  if JSON.truthy d then
    match d with
    | Some (JStr s) =>
        Some (Some (JBool (negb (JS.startsWith "http://" s)
                           && negb (JS.startsWith "https://" s))))
    | _ => None
    end
  else Some d.

(** [header.fid && typeof header.fid === 'number' && header.fid > 0] *)
Definition fidCheck (headerJson : json) : jsval :=
  let f := JSON.getProp headerJson "fid" in
  if JSON.truthy f then
    match f with
    | Some (JNum x) => Some (JBool (Number.positive x))
    | _ => Some (JBool false)
    end
  else f.

Section WithEngine.
Variable ed25519 : Ed25519.

(** [verifyAccountAssociation(accountAssociation)] *)
Definition verifyAccountAssociation (accountAssociation : Association) : outcome :=
  let headerJson := decodeBase64 (header accountAssociation) in
  if negb (JSON.truthy (Some headerJson)) then ReturnedFalse
  else
    let payloadJson := decodeBase64 (payload accountAssociation) in
    if negb (JSON.truthy (Some payloadJson)) then ReturnedFalse
    else
      let signatureBytes := Base64.decode (signature accountAssociation) in
      let message := composeMessage (header accountAssociation)
                                    (payload accountAssociation) in
      match hexToBytes (JSON.getProp headerJson "key") with
      | None => ReturnedFalse
      | Some publicKeyBytes =>
          let signatureValid :=
            let messageBytes := JS.encodeUtf8 message in
            match verify ed25519 signatureBytes messageBytes publicKeyBytes with
            | Some b => b
            | None => false
            end in
          match domainCheck payloadJson with
          | None => Rejected TypeError
          | Some domainValid =>
              let fidValid := fidCheck headerJson in
              Returned
                (mkReport
                   (JSON.truthy (Some headerJson))
                   (JSON.truthy (Some payloadJson))
                   domainValid
                   fidValid
                   signatureValid
                   (if signatureValid then "real/ed25519" else "invalid")
                   true
                   (if signatureValid
                    then "Real Ed25519 signature verified successfully"
                    else "Signature verification failed"))
          end
      end.

End WithEngine.
End Verify.

(** ** Reference descriptions used in the statements *)

(** The bytes [hexToBytes] reads: one per complete pair of characters. *)
Fixpoint pairBytes (s : string) : bytes :=
  match s with
  | String a (String b r) =>
      JS.ToUint8 (JS.parseInt (String a (String b EmptyString)) (Some 16%N)) :: pairBytes r
  | _ => []
  end.




Definition isLowerHexChar (c : ascii) : bool :=
  let n := JS.code c in
  ((48 <=? n) && (n <=? 57) || (97 <=? n) && (n <=? 102))%N.

Fixpoint allLowerHex (s : string) : bool :=
  match s with
  | EmptyString => true
  | String c r => isLowerHexChar c && allLowerHex r
  end.

(** A configuration [validateConfig] turns down: a variable is unset or
    empty, [parseInt] reads no number from the fid, or the key without its
    optional [0x] is not 64 hexadecimal characters. *)
Definition rejectedConfig (c : Config) : bool :=
  missingVar (fid c) || missingVar (privateKey c) || missingVar (domain c)
  || JS.isNaN (JS.parseInt (the (fid c)) None)
  || negb (Generate.privateKeyRegex_test (JS.replace_0x (the (privateKey c)))).

(** A string that is not a decimal numeral. *)
Definition nonNumeric (s : string) : bool :=
  String.eqb s EmptyString || negb (JSON.allDigits s).

Definition protocolPrefixed (s : string) : bool :=
  JS.startsWith "http://" s || JS.startsWith "https://" s.

Fixpoint endsWithSlash (s : string) : bool :=
  match s with
  | EmptyString => false
  | String c EmptyString => Ascii.eqb c "/"%char
  | String _ r => endsWithSlash r
  end.

Definition isCryptoEvent (e : event) : bool :=
  match e with
  | EvGetPublicKey _ | EvSign _ _ | EvVerify _ _ _ => true
  | EvWriteFile _ => false
  end.

(** The world after [validateConfig] accepted the configuration. *)
Definition validatedWorld (w : World) : World :=
  let c := config w in
  mkWorld (mkConfig (fid c) (privateKey c)
                    (Some (JS.replace_protocol (the (domain c)))))
          (manifestFile w) (writable w) (trace w).


(** The manifest text a run starts from, parsed. *)
Definition manifestOnDisk (w : World) : option json :=
  match manifestFile w with
  | Some text => JSON.parse text
  | None => None
  end.

(** The verdict on the stored signature: what [ed25519.verify] answers
    for the decoded signature, the message [header.payload] and the key
    of the header; [false] when the call throws. *)
Definition signatureVerdict (E : Ed25519) (a : Association) (publicKeyBytes : bytes) : bool :=
  match verify E (Base64.decode (signature a))
               (JS.encodeUtf8 (composeMessage (header a) (payload a)))
               publicKeyBytes with
  | Some b => b
  | None => false
  end.

(** ** Sample data for the examples *)

(** A stand-in for the Ed25519 package with fixed answers: a 32-byte key,
    a 64-byte signature and the given verdict. *)
Definition fixedEngine (verdict : bool) : Ed25519 :=
  mkEd25519 (fun _ => Some (repeat x01 32))
            (fun _ _ => Some (repeat x02 64))
            (fun _ _ _ => Some verdict).

Definition sampleKey : string :=
  "000102030405060708090a0b0c0d0e0f101112131415161718191a1b1c1d1e1f".

Definition sampleConfig : Config :=
  mkConfig (Some "3621") (Some sampleKey) (Some "example.com").

(** No manifest file yet, and the file can be written. *)
Definition sampleWorld : World := mkWorld sampleConfig None Writable [].

Definition sampleAssociation : Association :=
  mkAssociation "aGVhZGVy" "cGF5bG9hZA==" "c2lnbmF0dXJl".

(** A manifest on disk, and what [updateManifest] makes of it. *)
Definition manifestBefore : json :=
  JObj [("accountAssociation", JObj []);
        ("miniapp", JObj [("name", JStr "App"); ("homeUrl", JStr "https://old.example")])].

Definition manifestAfter : json :=
  JObj [("accountAssociation", associationObject sampleAssociation);
        ("miniapp", JObj [("name", JStr "App"); ("homeUrl", JStr "example.com")])].

Definition worldBefore : World :=
  mkWorld sampleConfig (Some (JSON.stringify2 manifestBefore)) Writable [].

Definition worldAfter : World :=
  mkWorld sampleConfig (Some (JSON.stringify2 manifestAfter)) Writable
          [EvWriteFile (JSON.stringify2 manifestAfter)].



(** The generator on [sampleWorld] after validation, with a package whose
    [verify] answers [false], and the association it returns. *)
Definition generatedRun : result Association * World :=
  Generate.generateAccountAssociation (fixedEngine false) (validatedWorld sampleWorld).

Definition generatedAssociation : Association :=
  match fst generatedRun with
  | Ok a => a
  | _ => sampleAssociation
  end.

(** ** Further reference descriptions and the rest of the scripts *)

(** A number as [JSON.stringify] writes it and [JSON.parse] reads it
    back: NaN and the infinities are written as [null], and minus zero as
    [0]. *)
Definition reread (x : Number.number) : json :=
  match x with
  | Number.Finite neg m e =>
      if (m =? 0)%N then JNum (Number.Finite false 0 0) else JNum x
  | _ => JNull
  end.

(** A number with the sign [neg]. *)
Definition withSign (neg : bool) (x : Number.number) : Number.number :=
  match x with
  | Number.NaN => Number.NaN
  | Number.Infinity _ => Number.Infinity neg
  | Number.Finite _ m e => Number.Finite neg m e
  end.

(** The verifier's [fidValid] for a header written from the string [fid]:
    [null] when [parseInt] gave NaN or an infinity, the number 0 for a
    zero, and otherwise whether the number is positive. *)
Definition expectedFidFlag (fid : string) : jsval :=
  match JS.parseInt fid None with
  | Number.Finite neg m e =>
      if (m =? 0)%N then Some (JNum (Number.Finite false 0 0))
      else Some (JBool (negb neg))
  | _ => Some JNull
  end.

(** The verifier's [domainFormatValid] for a payload written from [d]. *)
Definition expectedDomainFlag (d : string) : jsval :=
  if String.eqb d EmptyString then Some (JStr EmptyString)
  else Some (JBool (negb (protocolPrefixed d))).

(** The manifest [main] starts from: the parsed file, or the default one. *)
Definition loadedManifest (w : World) : json :=
  match manifestOnDisk w with
  | Some m => m
  | None => Generate.defaultManifest (JS.replace_protocol (the (domain (config w))))
  end.

(** What [JSON.stringify] keeps of [manifest.accountAssociation = a]. *)
Definition mergedManifest (m : json) (a : Association) : json :=
  match m with
  | JObj f => JObj (JSON.setField "accountAssociation" (associationObject a) f)
  | _ => m
  end.

(** [s.toLowerCase()] on ASCII text. *)
Definition toLowerChar (c : ascii) : ascii :=
  let n := JS.code c in
  if ((65 <=? n) && (n <=? 90))%N then ascii_of_N (n + 32) else c.

Fixpoint toLowerCase (s : string) : string :=
  match s with
  | EmptyString => EmptyString
  | String c r => String (toLowerChar c) (toLowerCase r)
  end.

(** ** The placeholder generator: the rest of the script *)
Module PlaceholderScript.

(** [validateConfig()]: only the presence of the three variables. *)
Definition validateConfig : M unit :=
  c <- getConfig ;;
  let missing :=
    ((if missingVar (fid c) then ["FARCASTER_FID"] else [])
     ++ (if missingVar (privateKey c) then ["FARCASTER_PRIVATE_KEY"] else [])
     ++ (if missingVar (domain c) then ["FARCASTER_DOMAIN"] else []))%list in
  if (0 <? List.length missing)%nat then exit 1 else ret tt.

(** [createHeader(fid, custodyAddress)] *)
Definition createHeader (fid custodyAddress : string) : string :=
  let header :=
    JObj [("fid", JNum (JS.parseInt fid None));
          ("type", JStr "custody");
          ("key", JStr custodyAddress)] in
  encodeBase64Json header.

(** [createPayload(domain)]: [JSON.stringify] leaves out a property that
    is [undefined]. *)
Definition createPayload (domain : option string) : string :=
  encodeBase64Json
    (JObj match domain with
          | Some d => [("domain", JStr d)]
          | None => []
          end).

(** [String(v)] for a value of [process.env]. *)
Definition toString (v : option string) : string :=
  match v with Some s => s | None => "undefined" end.

Section WithHash.
(** [createHash('sha256').update(s).digest('hex')] *)
Variable sha256hex : string -> string.

(** [createSignature(header, payload, privateKey)] *)
Definition createSignature (header payload : string) (privateKey : option string)
  : string :=
  let message := header ++ payload in
  let hash := sha256hex (message ++ toString privateKey) in
  let mockSignature := "0x" ++ hash ++ JS.substr hash 0 32 in
  Base64.encode (JS.encodeUtf8 mockSignature).

(** [deriveCustodyAddress(privateKey)]; [update(undefined)] throws. *)
Definition deriveCustodyAddress (privateKey : option string) : M string :=
  match privateKey with
  | Some k => let hash := sha256hex k in ret ("0x" ++ JS.substr hash 0 40)
  | None => throw TypeError
  end.

(** [generateAccountAssociation()] *)
Definition generateAccountAssociation : M Association :=
  c <- getConfig ;;
  custodyAddress <- deriveCustodyAddress (privateKey c) ;;
  let header := createHeader (toString (fid c)) custodyAddress in
  let payload := createPayload (domain c) in
  let signature := createSignature header payload (privateKey c) in
  ret (mkAssociation header payload signature).

(** [main()]; [displayResults] only writes to the console. *)
Definition main : M unit :=
  validateConfig ;;;
  accountAssociation <- generateAccountAssociation ;;
  _ <- Placeholder.updateManifest accountAssociation ;;
  ret tt.

End WithHash.
End PlaceholderScript.

(** Strings of JSON white space. *)
Fixpoint allWs (s : string) : bool :=
  match s with
  | EmptyString => true
  | String c r => JSON.isJsonWs c && allWs r
  end.

(** Keys that an object keeps in the order written: no array index, no
    repetition. *)
Fixpoint keysInOrder (seen ks : list string) : bool :=
  match ks with
  | [] => true
  | k :: r =>
      negb (existsb (String.eqb k) seen)
      && match JSON.arrayIndex k with None => true | Some _ => false end
      && keysInOrder (k :: seen) r
  end.

(** Values made of objects, arrays, strings, booleans and [null]. *)
Fixpoint plain (v : json) : bool :=
  match v with
  | JNull | JBool _ | JStr _ => true
  | JArr items => forallb plain items
  | JObj fs => forallb (fun kv => plain (snd kv)) fs && keysInOrder [] (map fst fs)
  | JNum _ => false
  end.

(** The pieces of the text [JSON.stringify] writes for an object or an
    array: the line break before a member (nothing in the compact form),
    the blank after a colon, one member, and what separates two members or
    elements. *)
Definition lineBreak (gap inner : string) : string :=
  if String.eqb gap EmptyString then EmptyString else JSON.newline ++ inner.

Definition colonPad (gap : string) : string :=
  if String.eqb gap EmptyString then EmptyString else " ".

Definition memberText (gap inner : string) (kv : string * json) : string :=
  JSON.quote (fst kv) ++ String ":" (colonPad gap) ++ JSON.serialize gap inner (snd kv).

Definition separator (gap inner : string) : string := "," ++ lineBreak gap inner.

(** A manifest file that holds an array. *)
Definition arrayWorld : World := mkWorld sampleConfig (Some "[]") Writable [].

Definition zeroDigest : string -> string :=
  fun _ => "0000000000000000000000000000000000000000000000000000000000000000".

Definition savedRun : result unit * World :=
  Generate.main (fixedEngine true) sampleWorld.

Definition placeholderRun : result Association * World :=
  PlaceholderScript.generateAccountAssociation zeroDigest sampleWorld.

Definition placeholderAssociation : Association :=
  match fst placeholderRun with
  | Ok a => a
  | _ => sampleAssociation
  end.

(** ** The index route of the web app: [loader] and [meta] *)
Module Route.

(** What [loader] gets from the network: [new URL] or [fetch] fails, or a
    response arrives with its [ok] flag and its body. *)
Inductive fetched : Type :=
| FetchFailed
| Response (ok : bool) (body : string).

(** The object [loader] returns. *)
Record LoaderData : Type := mkLoaderData {
  title : jsval;
  homeUrl : jsval;
  config : json
}.

Definition fallbackConfig : json :=
  JObj [("version", JStr "1");
        ("name", JStr "New Remix App");
        ("iconUrl", JStr EmptyString);
        ("homeUrl", JStr "http://localhost:3000");
        ("imageUrl", JStr EmptyString);
        ("buttonTitle", JStr "Launch App");
        ("splashImageUrl", JStr EmptyString);
        ("splashBackgroundColor", JStr "#0ea5e9")].

(** The value of the [catch] block. *)
Definition fallback : LoaderData :=
  mkLoaderData (Some (JStr "New Remix App")) (Some (JStr "http://localhost:3000"))
               fallbackConfig.

(** The UTF-8 decoding of [response.json()] drops a byte order mark. *)
Definition stripBOM (s : string) : string :=
  match s with
  | String a (String b (String c r)) =>
      if ((JS.code a =? 239) && (JS.code b =? 187) && (JS.code c =? 191))%N then r else s
  | _ => s
  end.

(** [v.k]: [None] when [v] is [null] or [undefined] and the read throws. *)
Definition member (v : jsval) (k : string) : option jsval :=
  match v with
  | None | Some JNull => None
  | Some x => Some (JSON.getProp x k)
  end.

(** [loader({ request, context })] *)
Definition loader (r : fetched) : LoaderData :=
  match r with
  | FetchFailed => fallback
  | Response ok body =>
      if negb ok then fallback
      else
        match JSON.parse (stripBOM body) with
        | None => fallback
        | Some cfg =>
            match member (Some cfg) "miniapp" with
            | Some (Some miniapp) =>
                match member (Some miniapp) "name", member (Some miniapp) "homeUrl" with
                | Some name, Some home => mkLoaderData name home miniapp
                | _, _ => fallback
                end
            | _ => fallback
            end
        end
  end.

(** [a || b] *)
Definition orElse (a : jsval) (b : json) : json :=
  match a with
  | Some x => if JSON.truthy a then x else b
  | None => b
  end.

(** An object literal as [JSON.stringify] sees it: a property whose value
    is [undefined] is left out. *)
Fixpoint objectOf (props : list (string * jsval)) : list (string * json) :=
  match props with
  | [] => []
  | (k, Some x) :: r => (k, x) :: objectOf r
  | (_, None) :: r => objectOf r
  end.

(** The object written into the [fc:miniapp] tag. *)
Definition miniappEmbed (config : json) : json :=
  JObj (objectOf
    [("version", JSON.getProp config "version");
     ("imageUrl", JSON.getProp config "imageUrl");
     ("button",
      Some (JObj (objectOf
        [("title", JSON.getProp config "buttonTitle");
         ("action",
          Some (JObj (objectOf
            [("type", Some (JStr "launch_miniapp"));
             ("name", JSON.getProp config "name");
             ("url", JSON.getProp config "homeUrl");
             ("splashImageUrl", JSON.getProp config "splashImageUrl");
             ("splashBackgroundColor", JSON.getProp config "splashBackgroundColor")])))])))]).

(** [meta({ data })]: the list of tags. *)
Definition meta (data : option LoaderData) : list json :=
  let title := orElse (match data with Some d => title d | None => None end)
                      (JStr "New Remix App") in
  let config := option_map config data in
  let metaTags :=
    [JObj [("title", title)];
     JObj [("name", JStr "description"); ("content", JStr "Welcome to Remix!")]] in
  match config with
  | Some cfg =>
      if JSON.truthy config
      then (metaTags ++ [JObj [("name", JStr "fc:miniapp");
                               ("content", JStr (JSON.stringify (miniappEmbed cfg)))]])%list
      else metaTags
  | None => metaTags
  end.

End Route.

(** The [miniapp] object of a manifest, [null] when there is none. *)
Definition miniappOf (m : json) : json :=
  match JSON.getProp m "miniapp" with
  | Some mini => mini
  | None => JNull
  end.

(** * Properties *)

(** ** Hexadecimal codec *)
Section HexFacts.

Lemma length_append (s t : string) :
  String.length (s ++ t) = String.length s + String.length t.
Proof. induction s as [|c s IH]; simpl; [reflexivity | now rewrite IH]. Qed.

Lemma substring_skip (pre s : string) (n : nat) :
  substring (String.length pre) n (pre ++ s) = substring 0 n s.
Proof. induction pre as [|c pre IH]; simpl; [reflexivity | exact IH]. Qed.

Lemma typedSet_at (done : bytes) (x v : byte) (t : bytes) :
  JS.typedSet (done ++ x :: t)%list (List.length done) v = (done ++ v :: t)%list.
Proof. induction done as [|h done IH]; simpl; [reflexivity | now rewrite IH]. Qed.

Lemma typedSet_past (a : bytes) (i : nat) (v : byte) :
  List.length a <= i -> JS.typedSet a i v = a.
Proof.
  revert i; induction a as [|h a IH]; intros i Hi; simpl; [reflexivity|].
  destruct i as [|i]; simpl in Hi; [lia|].
  now rewrite IH by lia.
Qed.

Lemma half_double (n : nat) : (2 * n) / 2 = n.
Proof. rewrite Nat.mul_comm. apply Nat.div_mul. discriminate. Qed.

(** The loop invariant: once the pairs of [pre] are stored in [done], the
    remaining iterations store the pairs of [rest] and ignore a trailing
    odd character. *)
Lemma hexToBytes_loop_spec (fuel : nat) :
  forall (pre rest : string) (done : bytes),
    String.length rest <= fuel ->
    String.length pre = 2 * List.length done ->
    hexToBytes_loop fuel (pre ++ rest) (String.length pre)
      (done ++ repeat x00 (String.length rest / 2))%list
    = (done ++ pairBytes rest)%list.
Proof.
  induction fuel as [|fuel IH]; intros pre rest done Hfuel Hpre.
  - destruct rest; simpl in Hfuel; [|lia]. reflexivity.
  - cbn [hexToBytes_loop]. rewrite length_append.
    destruct rest as [|a [|b r]].
    + cbn [String.length]. rewrite Nat.add_0_r, Nat.ltb_irrefl. reflexivity.
    + assert (Hlt : (String.length pre <? String.length pre + String.length (String a EmptyString))%nat = true)
        by (apply Nat.ltb_lt; simpl; lia).
      rewrite Hlt.
      change (String.length (String a EmptyString) / 2) with 0.
      cbn [repeat pairBytes]. rewrite List.app_nil_r.
      rewrite typedSet_past
        by (rewrite Hpre, half_double; lia).
      destruct fuel as [|fuel']; [reflexivity|].
      cbn [hexToBytes_loop]. rewrite length_append.
      assert (Hge : (String.length pre + 2 <? String.length pre + String.length (String a EmptyString))%nat = false)
        by (apply Nat.ltb_ge; simpl; lia).
      now rewrite Hge.
    + assert (Hlt : (String.length pre <? String.length pre + String.length (String a (String b r)))%nat = true)
        by (apply Nat.ltb_lt; simpl; lia).
      rewrite Hlt.
      unfold JS.substr. rewrite substring_skip.
      assert (Hsub : substring 0 2 (String a (String b r)) = String a (String b EmptyString))
        by (simpl; destruct r; reflexivity).
      rewrite Hsub.
      assert (Hrep : String.length (String a (String b r)) / 2 = S (String.length r / 2)).
      { simpl String.length.
        change (S (S (String.length r))) with (1 * 2 + String.length r).
        rewrite Nat.add_comm, Nat.div_add by discriminate. lia. }
      rewrite Hrep. cbn [repeat].
      rewrite Hpre, half_double, typedSet_at.
      set (v := JS.ToUint8 _).
      specialize (IH (pre ++ String a (String b EmptyString)) r (done ++ [v])%list).
      assert (Hlen : String.length (pre ++ String a (String b EmptyString)) = 2 * List.length (done ++ [v])%list).
      { rewrite length_append, List.length_app. simpl. lia. }
      rewrite Hlen in IH.
      assert (Happ : (pre ++ String a (String b EmptyString)) ++ r = pre ++ String a (String b r)).
      { clear. induction pre as [|c pre IHp]; simpl; [reflexivity | now rewrite IHp]. }
      rewrite Happ in IH.
      replace (2 * List.length done + 2) with (2 * List.length (done ++ [v])%list)
        by (rewrite List.length_app; simpl; lia).
      rewrite <- List.app_assoc in IH. cbn [app] in IH.
      rewrite IH; [| simpl in Hfuel; lia | reflexivity].
      rewrite <- List.app_assoc. reflexivity.
Qed.

(** [hexToBytes] reads the pairs of the cleaned string. *)
Lemma hexToBytes_pairs (hex : string) :
  hexToBytes hex = pairBytes (JS.replace_0x hex).
Proof.
  unfold hexToBytes, JS.newUint8Array.
  exact (hexToBytes_loop_spec _ EmptyString (JS.replace_0x hex) [] (le_n _) eq_refl).
Qed.

Lemma pairBytes_length (s : string) :
  List.length (pairBytes s) = String.length s / 2.
Proof.
  assert (H : forall n s, String.length s <= n ->
                          List.length (pairBytes s) = String.length s / 2).
  { clear s. induction n as [|n IH]; intros s Hs.
    - destruct s; simpl in Hs; [reflexivity | lia].
    - destruct s as [|a [|b r]]; [reflexivity | reflexivity |].
      simpl pairBytes. simpl List.length. rewrite IH by (simpl in Hs; lia).
      simpl String.length.
      change (S (S (String.length r))) with (1 * 2 + String.length r).
      rewrite Nat.add_comm, Nat.div_add by discriminate. lia. }
  exact (H _ s (le_n _)).
Qed.

(** The two characters [bytesToHex] writes for a byte. *)
Lemma hexByte_shape (b : byte) :
  JS.padStart2 (JS.toString16 b)
  = String (JS.hexDigit (Byte.to_N b / 16))
      (String (JS.hexDigit (Byte.to_N b mod 16)) EmptyString).
Proof. destruct b; reflexivity. Qed.

Lemma hexByte_parse (b : byte) :
  JS.ToUint8 (JS.parseInt
                (String (JS.hexDigit (Byte.to_N b / 16))
                   (String (JS.hexDigit (Byte.to_N b mod 16)) EmptyString))
                (Some 16%N)) = b.
Proof. destruct b; reflexivity. Qed.

Lemma hexByte_lower (b : byte) :
  isLowerHexChar (JS.hexDigit (Byte.to_N b / 16)) = true
  /\ isLowerHexChar (JS.hexDigit (Byte.to_N b mod 16)) = true.
Proof. destruct b; split; reflexivity. Qed.

Lemma hexByte_low_not_x (b : byte) :
  Ascii.eqb "x"%char (JS.hexDigit (Byte.to_N b mod 16)) = false.
Proof. destruct b; reflexivity. Qed.

Lemma bytesToHex_cons (b : byte) (r : bytes) :
  bytesToHex (b :: r)
  = String (JS.hexDigit (Byte.to_N b / 16))
      (String (JS.hexDigit (Byte.to_N b mod 16)) (bytesToHex r)).
Proof.
  unfold bytesToHex. cbn [map JS.join fold_right].
  rewrite hexByte_shape. reflexivity.
Qed.

Lemma bytesToHex_no_prefix (bs : bytes) :
  JS.startsWith "0x" (bytesToHex bs) = false.
Proof.
  destruct bs as [|b r]; [reflexivity|].
  rewrite bytesToHex_cons. cbn [JS.startsWith].
  rewrite hexByte_low_not_x. now rewrite andb_false_r.
Qed.

Lemma pairBytes_bytesToHex (bs : bytes) : pairBytes (bytesToHex bs) = bs.
Proof.
  induction bs as [|b r IH]; [reflexivity|].
  rewrite bytesToHex_cons. cbn [pairBytes].
  now rewrite hexByte_parse, IH.
Qed.

Lemma bytesToHex_length (bs : bytes) :
  String.length (bytesToHex bs) = 2 * List.length bs.
Proof.
  induction bs as [|b r IH]; [reflexivity|].
  rewrite bytesToHex_cons. cbn [String.length List.length]. rewrite IH. lia.
Qed.

Lemma bytesToHex_lower (bs : bytes) : allLowerHex (bytesToHex bs) = true.
Proof.
  induction bs as [|b r IH]; [reflexivity|].
  rewrite bytesToHex_cons. cbn [allLowerHex].
  destruct (hexByte_lower b) as [-> ->]. exact IH.
Qed.

(** C8. For every byte sequence [b], [hexToBytes (bytesToHex b)] is [b];
    [bytesToHex b] has exactly two characters per byte, all of them
    lowercase hexadecimal digits, and carries no [0x] prefix. *)
Theorem hex_roundtrip (b : bytes) :
  hexToBytes (bytesToHex b) = b
  /\ String.length (bytesToHex b) = 2 * List.length b
  /\ allLowerHex (bytesToHex b) = true
  /\ JS.startsWith "0x" (bytesToHex b) = false.
Proof.
  repeat split.
  - rewrite hexToBytes_pairs. unfold JS.replace_0x.
    rewrite bytesToHex_no_prefix. apply pairBytes_bytesToHex.
  - apply bytesToHex_length.
  - apply bytesToHex_lower.
  - apply bytesToHex_no_prefix.
Qed.

End HexFacts.

(** ** Base64 codec *)
Section Base64Facts.

#[local] Ltac Zify.zify_post_hook ::= Z.to_euclidean_division_equations.

Lemma small_N_cases (P : N -> Prop) :
  (forall k, (k < 64)%nat -> P (N.of_nat k)) -> forall n, (n < 64)%N -> P n.
Proof.
  intros H n Hn. rewrite <- (N2Nat.id n). apply H. lia.
Qed.

Lemma encChar_facts (n : N) :
  (n < 64)%N ->
  Base64.unbase64 (Base64.encChar n) = Some n
  /\ Ascii.eqb (Base64.encChar n) "="%char = false
  /\ Base64.isBase64Char (Base64.encChar n) = true.
Proof.
  revert n. apply small_N_cases. intros k Hk.
  do 64 (destruct k as [|k]; [repeat split; reflexivity|]).
  lia.
Qed.

Lemma sextets_encChar (n : N) (r : string) :
  (n < 64)%N ->
  Base64.sextets (String (Base64.encChar n) r) = n :: Base64.sextets r.
Proof.
  intros Hn. destruct (encChar_facts n Hn) as (Hu & He & _).
  cbn [Base64.sextets]. now rewrite He, Hu.
Qed.

Lemma toByte_to_N (x : byte) : Base64.toByte (Byte.to_N x) = x.
Proof. destruct x; reflexivity. Qed.

Lemma to_N_lt (x : byte) : (Byte.to_N x < 256)%N.
Proof. pose proof (Byte.to_N_bounded x). lia. Qed.

(** Decoding undoes encoding, whatever the length modulo 3. *)
Lemma decode_encode (b : bytes) : Base64.decode (Base64.encode b) = b.
Proof.
  assert (H : forall n b, List.length b <= n -> Base64.decode (Base64.encode b) = b).
  { clear b. induction n as [|n IH]; intros b Hb.
    - destruct b; [reflexivity | simpl in Hb; lia].
    - destruct b as [|x [|y [|z r]]]; [reflexivity | | |].
      + pose proof (to_N_lt x) as Hx.
        unfold Base64.decode. cbn [Base64.encode].
        rewrite !sextets_encChar by lia.
        change (Base64.sextets "==") with (@nil N). cbn [Base64.pack].
        replace (Byte.to_N x / 4 * 4 + Byte.to_N x mod 4 * 16 / 16)%N
          with (Byte.to_N x) by lia.
        now rewrite toByte_to_N.
      + pose proof (to_N_lt x) as Hx. pose proof (to_N_lt y) as Hy.
        unfold Base64.decode. cbn [Base64.encode].
        rewrite !sextets_encChar by lia.
        change (Base64.sextets "=") with (@nil N). cbn [Base64.pack].
        replace (Byte.to_N x / 4 * 4 + (Byte.to_N x mod 4 * 16 + Byte.to_N y / 16) / 16)%N
          with (Byte.to_N x) by lia.
        replace ((Byte.to_N x mod 4 * 16 + Byte.to_N y / 16) mod 16 * 16
                 + Byte.to_N y mod 16 * 4 / 4)%N
          with (Byte.to_N y) by lia.
        now rewrite !toByte_to_N.
      + pose proof (to_N_lt x) as Hx. pose proof (to_N_lt y) as Hy.
        pose proof (to_N_lt z) as Hz.
        unfold Base64.decode. cbn [Base64.encode].
        rewrite !sextets_encChar by lia.
        cbn [Base64.pack].
        replace (Byte.to_N x / 4 * 4 + (Byte.to_N x mod 4 * 16 + Byte.to_N y / 16) / 16)%N
          with (Byte.to_N x) by lia.
        replace ((Byte.to_N x mod 4 * 16 + Byte.to_N y / 16) mod 16 * 16
                 + (Byte.to_N y mod 16 * 4 + Byte.to_N z / 64) / 4)%N
          with (Byte.to_N y) by lia.
        replace ((Byte.to_N y mod 16 * 4 + Byte.to_N z / 64) mod 4 * 64
                 + Byte.to_N z mod 64)%N
          with (Byte.to_N z) by lia.
        rewrite !toByte_to_N.
        fold (Base64.decode (Base64.encode r)).
        rewrite IH by (simpl in Hb; lia). reflexivity. }
  exact (H _ b (le_n _)).
Qed.

(** [toString('base64')] only writes characters of the alphabet. *)
Lemma encode_isBase64 (b : bytes) : Base64.isBase64 (Base64.encode b) = true.
Proof.
  assert (H : forall n b, List.length b <= n -> Base64.isBase64 (Base64.encode b) = true).
  { clear b. induction n as [|n IH]; intros b Hb.
    - destruct b; [reflexivity | simpl in Hb; lia].
    - destruct b as [|x [|y [|z r]]]; [reflexivity | | |].
      + pose proof (to_N_lt x) as Hx.
        cbn [Base64.encode Base64.isBase64].
        rewrite !(fun n H => proj2 (proj2 (encChar_facts n H))) by lia.
        reflexivity.
      + pose proof (to_N_lt x) as Hx. pose proof (to_N_lt y) as Hy.
        cbn [Base64.encode Base64.isBase64].
        rewrite !(fun n H => proj2 (proj2 (encChar_facts n H))) by lia.
        reflexivity.
      + pose proof (to_N_lt x) as Hx. pose proof (to_N_lt y) as Hy.
        pose proof (to_N_lt z) as Hz.
        cbn [Base64.encode Base64.isBase64].
        rewrite !(fun n H => proj2 (proj2 (encChar_facts n H))) by lia.
        rewrite IH by (simpl in Hb; lia). reflexivity. }
  exact (H _ b (le_n _)).
Qed.

End Base64Facts.

(** ** Message composition *)
Section MessageFacts.

Lemma isBase64_head (c : ascii) (s : string) :
  Base64.isBase64 (String c s) = true -> c <> "."%char /\ Base64.isBase64 s = true.
Proof.
  cbn [Base64.isBase64]. intros H. apply andb_true_iff in H as [Hc Hs].
  split; [|exact Hs]. intros ->. discriminate Hc.
Qed.

Lemma composeMessage_inj (h1 h2 p1 p2 : string) :
  Base64.isBase64 h1 = true -> Base64.isBase64 h2 = true ->
  composeMessage h1 p1 = composeMessage h2 p2 -> h1 = h2 /\ p1 = p2.
Proof.
  unfold composeMessage. revert h2.
  induction h1 as [|c1 h1 IH]; intros [|c2 h2] B1 B2 E.
  - simpl in E. inversion E. now split.
  - apply isBase64_head in B2 as [N2 _]. simpl in E. inversion E. congruence.
  - apply isBase64_head in B1 as [N1 _]. simpl in E. inversion E. congruence.
  - apply isBase64_head in B1 as [_ B1]. apply isBase64_head in B2 as [_ B2].
    simpl in E. inversion E as [[Hc Ht]].
    destruct (IH h2 B1 B2 Ht) as [-> ->]. now split.
Qed.

(** C9. For all strings, [composeMessage] returns exactly header, a
    period, payload; it is a function of its two arguments only, and on
    base64 headers (in particular on what the generator encodes) two
    distinct pairs never give the same message. *)
Theorem composeMessage_contract (h1 p1 h2 p2 : string) :
  composeMessage h1 p1 = h1 ++ "." ++ p1
  /\ (Base64.isBase64 h1 = true -> Base64.isBase64 h2 = true ->
      composeMessage h1 p1 = composeMessage h2 p2 -> h1 = h2 /\ p1 = p2).
Proof. split; [reflexivity|]. apply composeMessage_inj. Qed.

Lemma composeMessage_contract_witness :
  composeMessage "not base64!" "e30=" = "not base64!.e30="
  /\ Base64.isBase64 "eyJmaWQiOjF9" = true
  /\ composeMessage "eyJmaWQiOjF9" "e30=" = "eyJmaWQiOjF9.e30="
  /\ (composeMessage "eyJmaWQiOjF9" "e30=" = composeMessage "eyJmaWQiOjF9" "e30="
      -> "eyJmaWQiOjF9" = "eyJmaWQiOjF9" /\ "e30=" = "e30=").
Proof.
  split; [exact (proj1 (composeMessage_contract "not base64!" "e30=" "eyJmaWQiOjF9" "e30="))|].
  split; [reflexivity|].
  split; [exact (proj1 (composeMessage_contract "eyJmaWQiOjF9" "e30=" "eyJmaWQiOjF9" "e30="))|].
  apply (proj2 (composeMessage_contract "eyJmaWQiOjF9" "e30=" "eyJmaWQiOjF9" "e30="));
    reflexivity.
Defined.

(** The headers and payloads of the generator are base64 strings. *)
Lemma encodeBase64Json_isBase64 (obj : json) :
  Base64.isBase64 (encodeBase64Json obj) = true.
Proof. apply encode_isBase64. Qed.

End MessageFacts.

(** ** Malformed input of [hexToBytes] *)
Section HexToBytesTotal.




End HexToBytesTotal.

(** ** The stored signature *)
Section SignatureEncoding.

Lemma hexToBytes_0x_bytesToHex (sig : bytes) :
  hexToBytes ("0x" ++ bytesToHex sig) = sig.
Proof. rewrite hexToBytes_pairs. apply pairBytes_bytesToHex. Qed.

(** Hex, then bytes, then base64, then bytes again: nothing is lost. *)
Lemma signature_pipeline (sig : bytes) :
  Base64.decode (Base64.encode (hexToBytes ("0x" ++ bytesToHex sig))) = sig.
Proof. now rewrite hexToBytes_0x_bytesToHex, decode_encode. Qed.

(** C10. Whenever the generator returns an association, its stored
    signature decodes to exactly the bytes the Ed25519 package returned
    for the message [header.payload] and the configured private key. *)
Theorem stored_signature_lossless (E : Ed25519) (w w' : World) (a : Association) :
  Generate.generateAccountAssociation E w = (Ok a, w') ->
  sign E (JS.encodeUtf8 (composeMessage (header a) (payload a)))
         (hexToBytes (the (privateKey (config w))))
  = Some (Base64.decode (signature a)).
Proof.
  cbv [Generate.generateAccountAssociation Generate.signMessage tryCatch
    bind getConfig Generate.hexToBytes callLib emit ret throw].
  destruct (privateKey (config w)) as [k|]; cbn [option_map the];
    [|discriminate].
  destruct (getPublicKey E (hexToBytes k)) as [pk|]; [|discriminate].
  cbn [config].
  destruct (sign E _ (hexToBytes k)) as [sig|] eqn:Hs; [|discriminate].
  intros H. inversion H; subst; clear H. cbn [header payload signature].
  rewrite Hs. f_equal. symmetry. exact (signature_pipeline sig).
Qed.

Lemma stored_signature_lossless_witness :
  exists a w',
    Generate.generateAccountAssociation (fixedEngine true) sampleWorld = (Ok a, w')
    /\ sign (fixedEngine true)
         (JS.encodeUtf8 (composeMessage (header a) (payload a)))
         (hexToBytes (the (privateKey (config sampleWorld))))
       = Some (Base64.decode (signature a)).
Proof.
  eexists. eexists. split.
  - vm_compute. reflexivity.
  - eapply (stored_signature_lossless (fixedEngine true) sampleWorld).
    vm_compute. reflexivity.
Defined.

End SignatureEncoding.

(** ** Validation of the configuration *)
Section ValidationFacts.

(** [validateConfig] either exits with code 1, touching nothing, or
    cleans the domain. *)
Lemma validateConfig_cases (w : World) :
  Generate.validateConfig w
  = if rejectedConfig (config w) then (Exit 1%Z, w) else (Ok tt, validatedWorld w).
Proof.
  cbv [Generate.validateConfig bind getConfig exit setDomain rejectedConfig validatedWorld].
  destruct (missingVar (fid (config w))), (missingVar (privateKey (config w))),
    (missingVar (domain (config w))); cbn [app List.length Nat.ltb Nat.leb orb];
    try reflexivity.
  destruct (JS.isNaN _); cbn [orb]; [reflexivity|].
  destruct (Generate.privateKeyRegex_test _); reflexivity.
Qed.

Lemma startsWith_split (p s : string) :
  JS.startsWith p s = true -> s = p ++ JS.drop (String.length p) s.
Proof.
  revert s. induction p as [|c p IH]; intros s H; [reflexivity|].
  destruct s as [|c' s]; [discriminate H|].
  cbn [JS.startsWith] in H. apply andb_true_iff in H as [Hc Hs].
  apply Ascii.eqb_eq in Hc. subst c'.
  cbn [append String.length JS.drop]. f_equal. now apply IH.
Qed.

Lemma replace_protocol_split (raw : string) :
  exists p, In p [EmptyString; "http://"; "https://"]
            /\ raw = p ++ JS.replace_protocol raw
            /\ (p = EmptyString <-> protocolPrefixed raw = false).
Proof.
  unfold JS.replace_protocol, protocolPrefixed.
  destruct (JS.startsWith "http://" raw) eqn:H1.
  - exists "http://". split; [simpl; auto|]. split.
    + exact (startsWith_split _ _ H1).
    + split; discriminate.
  - destruct (JS.startsWith "https://" raw) eqn:H2.
    + exists "https://". split; [simpl; auto|]. split.
      * exact (startsWith_split _ _ H2).
      * split; discriminate.
    + exists EmptyString. split; [simpl; auto|]. split; [reflexivity|]. split; reflexivity.
Qed.

Lemma endsWithSlash_app (p d : string) :
  d <> EmptyString -> endsWithSlash (p ++ d) = endsWithSlash d.
Proof.
  intros Hd. induction p as [|c p IH]; [reflexivity|].
  cbn [append endsWithSlash]. rewrite IH.
  destruct (p ++ d) eqn:E; [|reflexivity].
  destruct p; simpl in E; [contradiction | discriminate].
Qed.

(** C6, as stated, fails: a trailing slash survives validation, and so
    does a second protocol prefix. *)
Lemma validated_domain_counterexample :
  Generate.validateConfig
    (mkWorld (mkConfig (Some "3621") (Some sampleKey) (Some "example.com/")) None Writable [])
  = (Ok tt, mkWorld (mkConfig (Some "3621") (Some sampleKey) (Some "example.com/")) None Writable [])
  /\ endsWithSlash "example.com/" = true
  /\ Generate.validateConfig
       (mkWorld (mkConfig (Some "3621") (Some sampleKey) (Some "https://http://example.com")) None Writable [])
     = (Ok tt, mkWorld (mkConfig (Some "3621") (Some sampleKey) (Some "http://example.com")) None Writable [])
  /\ protocolPrefixed "http://example.com" = true.
Proof. repeat split; reflexivity. Qed.

(** C6, amended.  When validation succeeds, the domain used from then on
    is the supplied one with a single leading [http://] or [https://]
    removed: nothing is removed when there is no such prefix, and whatever
    follows the prefix, a trailing slash included, is kept. *)
Theorem validated_domain (w w' : World) :
  Generate.validateConfig w = (Ok tt, w') ->
  exists raw p,
    domain (config w) = Some raw
    /\ domain (config w') = Some (JS.replace_protocol raw)
    /\ In p [EmptyString; "http://"; "https://"]
    /\ raw = p ++ JS.replace_protocol raw
    /\ (p = EmptyString <-> protocolPrefixed raw = false)
    /\ (JS.replace_protocol raw <> EmptyString ->
        endsWithSlash (JS.replace_protocol raw) = endsWithSlash raw).
Proof.
  rewrite validateConfig_cases.
  destruct (rejectedConfig (config w)) eqn:R; [discriminate|].
  intros H. inversion H; subst; clear H.
  unfold rejectedConfig in R.
  repeat (apply orb_false_iff in R as [R ?]).
  destruct (domain (config w)) as [raw|] eqn:D; [|discriminate].
  destruct (replace_protocol_split raw) as (p & Hp & Hraw & Hiff).
  exists raw, p. cbn [validatedWorld config domain the]. rewrite D. cbn [the].
  repeat split; try assumption; try apply Hiff.
  intros Hne. rewrite Hraw at 2. now rewrite endsWithSlash_app.
Qed.

Lemma validated_domain_witness :
  exists raw p,
    domain (config (mkWorld (mkConfig (Some "3621") (Some sampleKey) (Some "https://example.com/")) None Writable []))
    = Some raw
    /\ Some "example.com/" = Some (JS.replace_protocol raw)
    /\ In p [EmptyString; "http://"; "https://"]
    /\ raw = p ++ JS.replace_protocol raw
    /\ (p = EmptyString <-> protocolPrefixed raw = false)
    /\ (JS.replace_protocol raw <> EmptyString ->
        endsWithSlash (JS.replace_protocol raw) = endsWithSlash raw).
Proof.
  apply (validated_domain
           (mkWorld (mkConfig (Some "3621") (Some sampleKey) (Some "https://example.com/")) None Writable [])
           (mkWorld (mkConfig (Some "3621") (Some sampleKey) (Some "example.com/")) None Writable [])).
  reflexivity.
Defined.

(** C7, as stated, fails: a fid that is not a number and a key that is
    not 64 hex characters pass validation, and the run goes on to derive
    the key and sign. *)
Lemma malformed_config_counterexample :
  nonNumeric "12abc" = true
  /\ Generate.privateKeyRegex_test ("0x" ++ sampleKey) = false
  /\ fst (Generate.main (fixedEngine true)
            (mkWorld (mkConfig (Some "12abc") (Some ("0x" ++ sampleKey)) (Some "example.com"))
                     None Writable []))
     = Ok tt
  /\ existsb isCryptoEvent
       (trace (snd (Generate.main (fixedEngine true)
            (mkWorld (mkConfig (Some "12abc") (Some ("0x" ++ sampleKey)) (Some "example.com"))
                     None Writable []))))
     = true.
Proof. repeat split; vm_compute; reflexivity. Qed.

(** C7, amended.  When a variable is unset or empty, or [parseInt] reads
    no number from the fid, or the key without its optional [0x] prefix is
    not exactly 64 hexadecimal characters, the run exits with code 1 and
    leaves everything as it was: no call into the Ed25519 package is made
    and the manifest is not written. *)
Theorem rejected_config_aborts (E : Ed25519) (w : World) :
  rejectedConfig (config w) = true ->
  Generate.main E w = (Exit 1%Z, w).
Proof.
  intros R. unfold Generate.main, tryCatch, bind.
  rewrite validateConfig_cases, R. reflexivity.
Qed.

Lemma rejected_config_aborts_witness :
  rejectedConfig (config (mkWorld (mkConfig (Some "abc") (Some sampleKey) (Some "example.com")) None Writable [])) = true
  /\ Generate.main (fixedEngine true)
       (mkWorld (mkConfig (Some "abc") (Some sampleKey) (Some "example.com")) None Writable [])
     = (Exit 1%Z, mkWorld (mkConfig (Some "abc") (Some sampleKey) (Some "example.com")) None Writable []).
Proof.
  split; [reflexivity|].
  apply (rejected_config_aborts (fixedEngine true)). reflexivity.
Defined.

End ValidationFacts.

(** ** Property assignment on parsed JSON *)
Section FieldFacts.

Lemma lookup_replaceVal_same (k : string) (v : json) (f : list (string * json)) :
  JSON.lookup k f <> None -> JSON.lookup k (JSON.replaceVal k v f) = Some v.
Proof.
  induction f as [|[k' v'] f IH]; cbn [JSON.lookup JSON.replaceVal]; [congruence|].
  destruct (String.eqb k k') eqn:E; cbn [JSON.lookup]; rewrite E; auto.
Qed.

Lemma lookup_replaceVal_other (k k' : string) (v : json) (f : list (string * json)) :
  k' <> k -> JSON.lookup k' (JSON.replaceVal k v f) = JSON.lookup k' f.
Proof.
  intros N. induction f as [|[k0 v0] f IH]; cbn [JSON.lookup JSON.replaceVal]; [reflexivity|].
  destruct (String.eqb k k0) eqn:E; cbn [JSON.lookup].
  - apply String.eqb_eq in E. subst k0.
    apply String.eqb_neq in N. now rewrite N.
  - now rewrite IH.
Qed.

Lemma lookup_insertNew_same (k : string) (v : json) (f : list (string * json)) :
  JSON.lookup k f = None -> JSON.lookup k (JSON.insertNew k v f) = Some v.
Proof.
  induction f as [|[k' v'] f IH]; cbn [JSON.lookup JSON.insertNew].
  - now rewrite String.eqb_refl.
  - destruct (String.eqb k k') eqn:E; [discriminate|]. intros H.
    destruct (JSON.arrayIndex k); [destruct (JSON.arrayIndex k'); [destruct (_ <? _)%N|]|];
      cbn [JSON.lookup]; rewrite ?String.eqb_refl, ?E; auto.
Qed.

Lemma lookup_insertNew_other (k k' : string) (v : json) (f : list (string * json)) :
  k' <> k -> JSON.lookup k' (JSON.insertNew k v f) = JSON.lookup k' f.
Proof.
  intros N. apply String.eqb_neq in N.
  induction f as [|[k0 v0] f IH]; cbn [JSON.lookup JSON.insertNew].
  - now rewrite N.
  - destruct (JSON.arrayIndex k); [destruct (JSON.arrayIndex k0); [destruct (_ <? _)%N|]|];
      cbn [JSON.lookup]; rewrite ?N, ?IH; reflexivity.
Qed.

Lemma lookup_setField_same (k : string) (v : json) (f : list (string * json)) :
  JSON.lookup k (JSON.setField k v f) = Some v.
Proof.
  unfold JSON.setField. destruct (JSON.lookup k f) eqn:E.
  - apply lookup_replaceVal_same. congruence.
  - now apply lookup_insertNew_same.
Qed.

Lemma lookup_setField_other (k k' : string) (v : json) (f : list (string * json)) :
  k' <> k -> JSON.lookup k' (JSON.setField k v f) = JSON.lookup k' f.
Proof.
  intros N. unfold JSON.setField. destruct (JSON.lookup k f).
  - now apply lookup_replaceVal_other.
  - now apply lookup_insertNew_other.
Qed.


Lemma lookup_delete_other (k k' : string) (f : list (string * json)) :
  k' <> k ->
  JSON.lookup k' (filter (fun kv => negb (String.eqb k (fst kv))) f) = JSON.lookup k' f.
Proof.
  intros N. induction f as [|[k0 v0] f IH]; cbn [filter fst JSON.lookup]; [reflexivity|].
  destruct (String.eqb k k0) eqn:E; cbn [negb JSON.lookup].
  - apply String.eqb_eq in E. subst k0. apply String.eqb_neq in N. now rewrite N.
  - now rewrite IH.
Qed.

(** An assignment that succeeds leaves the world alone and every other
    property as it was. *)
Lemma assignProp_frame (target : json) (k : string) (v : jsval)
      (w w' : World) (t' : json) :
  assignProp target k v w = (Ok t', w') ->
  w' = w /\ forall k', k' <> k -> JSON.getProp t' k' = JSON.getProp target k'.
Proof.
  unfold assignProp, ret, throw.
  destruct target as [| | | | items | f]; try discriminate.
  - intros H. inversion H; subst. split; [reflexivity | reflexivity].
  - destruct v as [x|]; intros H; inversion H; subst; (split; [reflexivity|]);
      intros k' N; cbn [JSON.getProp].
    + now apply lookup_setField_other.
    + now apply lookup_delete_other.
Qed.


(** A key that is not an array index goes to the end when it is new. *)
Lemma insertNew_named (k : string) (v : json) (f : list (string * json)) :
  JSON.arrayIndex k = None -> JSON.insertNew k v f = (f ++ [(k, v)])%list.
Proof.
  intros H. induction f as [|[k' v'] f IH]; cbn [JSON.insertNew app]; [reflexivity|].
  now rewrite H, IH.
Qed.

End FieldFacts.

(** ** Merging the association into the manifest *)
Section MergeFacts.

(** What [updateManifest] returns, step by step. *)
Lemma updateManifest_ok (a : Association) (w w' : World) (m' : json) :
  Placeholder.updateManifest a w = (Ok m', w') ->
  exists m m1,
    manifestOnDisk w = Some m
    /\ assignProp m "accountAssociation" (Some (associationObject a)) w = (Ok m1, w)
    /\ ((JSON.truthy (JSON.getProp m1 "miniapp") = false /\ m' = m1)
        \/ exists mini mini',
             JSON.getProp m1 "miniapp" = Some mini
             /\ JSON.truthy (Some mini) = true
             /\ assignProp mini "homeUrl" (option_map JStr (domain (config w))) w
                = (Ok mini', w)
             /\ assignProp m1 "miniapp" (Some mini') w = (Ok m', w)).
Proof.
  unfold Placeholder.updateManifest, manifestOnDisk, tryCatch, bind at 1, readFileSync.
  destruct (manifestFile w) as [text|]; [|discriminate].
  unfold bind at 1, JSON_parse.
  destruct (JSON.parse text) as [m|]; [|discriminate].
  cbn [ret]. unfold bind at 1.
  destruct (assignProp m _ _ w) as [[m1|e|c] w1] eqn:A1; [|discriminate|].
  2:{ exfalso. revert A1. unfold assignProp, ret, throw.
      destruct m; discriminate. }
  destruct (assignProp_frame _ _ _ _ _ _ A1) as [-> _].
  intros H. exists m, m1. split; [reflexivity|]. split; [exact A1|].
  unfold bind at 1 in H.
  destruct (JSON.getProp m1 "miniapp") as [mini|] eqn:G.
  - destruct (JSON.truthy (Some mini)) eqn:T.
    + right. unfold bind at 1, getConfig in H. unfold bind at 1 in H.
      destruct (assignProp mini _ _ w) as [[mini'|e|c] w2] eqn:A2.
      * destruct (assignProp_frame _ _ _ _ _ _ A2) as [-> _].
        destruct (assignProp m1 _ _ w) as [[m2|e|c] w3] eqn:A3.
        -- destruct (assignProp_frame _ _ _ _ _ _ A3) as [-> _].
           assert (m2 = m') as ->.
           { revert H. unfold bind, writeFileSync, ret.
             destruct (writable w); [|discriminate|discriminate].
             intros H. now inversion H. }
           exists mini, mini'. repeat split; assumption.
        -- discriminate.
        -- exfalso. revert A3. unfold assignProp, ret, throw. destruct m1; discriminate.
      * discriminate.
      * exfalso. revert A2. unfold assignProp, ret, throw.
        destruct mini, (option_map JStr (domain (config w))); discriminate.
    + left. split; [reflexivity|].
      revert H. unfold bind, writeFileSync, ret.
      destruct (writable w); [|discriminate|discriminate].
      intros H. inversion H; subst. reflexivity.
  - left. split; [reflexivity|].
    revert H. unfold bind, writeFileSync, ret.
    destruct (writable w); [|discriminate|discriminate].
    intros H. inversion H; subst. reflexivity.
Qed.


End MergeFacts.

(** ** The self-check of the generator *)
Section SelfCheckFacts.
Variable E : Ed25519.

(** The three stages before the manifest is loaded only add to the trace
    (and, for validation, clean the domain): the file and its
    writability are as before. *)
Definition sameFile (w w' : World) : Prop :=
  manifestFile w' = manifestFile w /\ writable w' = writable w.

Lemma validateConfig_sameFile (w w' : World) (r : result unit) :
  Generate.validateConfig w = (r, w') -> sameFile w w'.
Proof.
  rewrite validateConfig_cases. destruct (rejectedConfig (config w));
    intros H; inversion H; subst; split; reflexivity.
Qed.

Lemma generate_sameFile (w w' : World) (r : result Association) :
  Generate.generateAccountAssociation E w = (r, w') -> sameFile w w'.
Proof.
  cbv [Generate.generateAccountAssociation Generate.signMessage tryCatch
    bind getConfig Generate.hexToBytes callLib emit ret throw].
  destruct (privateKey (config w)) as [k|]; cbn [option_map];
    [|intros H; inversion H; subst; split; reflexivity].
  destruct (getPublicKey E (hexToBytes k)) as [pk|];
    [|intros H; inversion H; subst; split; reflexivity].
  cbn [config].
  destruct (sign E _ (hexToBytes k)) as [sig|];
    intros H; inversion H; subst; split; reflexivity.
Qed.

(** [verifySignature] never throws: every failure is turned into [false]. *)
Lemma verifySignature_total (a : Association) (w : World) :
  exists b w', Generate.verifySignature E a w = (Ok b, w') /\ sameFile w w'
               /\ config w' = config w.
Proof.
  cbv [Generate.verifySignature tryCatch bind JSON_parse Generate.readKey
    Generate.hexToBytes callLib emit ret throw].
  destruct (JSON.parse _) as [hj|]; [|exists false, w; repeat split].
  destruct hj as [| b | x | s | items | f];
    try (exists false, w; repeat split; fail).
  cbn [JSON.getProp].
  destruct (JSON.lookup "key" f) as [[| b | x | s | items | f']|];
    try (exists false, w; repeat split; fail).
  destruct (verify E _ _ _) as [b|]; eexists; eexists; repeat split.
Qed.

(** [loadOrCreateManifest] always returns a manifest and changes nothing. *)
Lemma loadOrCreateManifest_total (w : World) :
  exists m, Generate.loadOrCreateManifest w = (Ok m, w).
Proof.
  cbv [Generate.loadOrCreateManifest tryCatch bind readFileSync JSON_parse
    getConfig ret throw].
  destruct (manifestFile w) as [text|] eqn:F; [|eexists; reflexivity].
  destruct (negb (String.eqb text EmptyString)); [|eexists; reflexivity].
  rewrite F.
  destruct (JSON.parse text); eexists; reflexivity.
Qed.

End SelfCheckFacts.

(** ** The verifier's report *)
Section ReportFacts.
Variable E : Ed25519.


End ReportFacts.




(** * Further properties *)

Lemma utf8_roundtrip (s : string) : JS.decodeUtf8 (JS.encodeUtf8 s) = s.
Proof. apply string_of_list_byte_of_string. Qed.

Lemma append_assoc (a b c : string) : (a ++ b) ++ c = a ++ (b ++ c).
Proof. induction a as [|x a IH]; cbn [append]; [reflexivity | now rewrite IH]. Qed.

Lemma parse_quoteChar (a : ascii) (t s' rest : string) :
  JSON.parseStringBody t = Some (s', rest) ->
  JSON.parseStringBody (JSON.quoteChar a ++ t) = Some (String a s', rest).
Proof.
  intros H. destruct a as [[] [] [] [] [] [] [] []]; cbn; rewrite H; reflexivity.
Qed.

Lemma low_quoteChar (a : ascii) (t : string) :
  JSON.lowSurrogateEscape (JSON.quoteChar a ++ t) = None.
Proof. destruct a as [[] [] [] [] [] [] [] []]; reflexivity. Qed.

Lemma parse_raw (a : ascii) (t : string) :
  (128 <=? JS.code a)%N = true ->
  JSON.parseStringBody (String a t)
  = match JSON.parseStringBody t with
    | Some (s', rest) => Some (String a s', rest)
    | None => None
    end.
Proof.
  destruct a as [[] [] [] [] [] [] [] []]; intros H; try discriminate H;
    cbn; destruct (JSON.parseStringBody t) as [[]|]; reflexivity.
Qed.

Lemma surrogate_facts_all :
  forallb (fun i =>
    forallb (fun j =>
      let b := ascii_of_N (160 + N.of_nat i) in
      let c := ascii_of_N (128 + N.of_nat j) in
      let v := JSON.surrogateValue b c in
      match JSON.hex4 (JS.hexDigit (v / 4096)) (JS.hexDigit ((v / 256) mod 16))
                      (JS.hexDigit ((v / 16) mod 16)) (JS.hexDigit (v mod 16)) with
      | Some v' => (v' =? v)%N
      | None => false
      end
      && String.eqb (JSON.utf8OfCode v) (String (ascii_of_N 237) (String b (String c EmptyString)))
      && negb (JSON.isHighSurrogate v && JSON.isLowSurrogate v)
      && (JSON.isHighSurrogate v || JSON.isLowSurrogate v))
      (seq 0 64)) (seq 0 32) = true.
Proof. vm_compute. reflexivity. Qed.

Lemma surrogate_facts (a b c : ascii) :
  JSON.isSurrogateBytes a b c = true ->
  let v := JSON.surrogateValue b c in
  a = ascii_of_N 237
  /\ (128 <=? JS.code b)%N = true /\ (128 <=? JS.code c)%N = true
  /\ JSON.hex4 (JS.hexDigit (v / 4096)) (JS.hexDigit ((v / 256) mod 16))
               (JS.hexDigit ((v / 16) mod 16)) (JS.hexDigit (v mod 16)) = Some v
  /\ JSON.utf8OfCode v = String a (String b (String c EmptyString))
  /\ (JSON.isHighSurrogate v = true -> JSON.isLowSurrogate v = false).
Proof.
  unfold JSON.isSurrogateBytes. intros H.
  repeat (apply andb_true_iff in H as [H ?]).
  apply N.eqb_eq in H.
  repeat match goal with X : (_ <=? _)%N = true |- _ => apply N.leb_le in X end.
  assert (Ha : a = ascii_of_N 237).
  { rewrite <- (ascii_N_embedding a). unfold JS.code in H. now rewrite H. }
  pose proof surrogate_facts_all as F.
  rewrite forallb_forall in F.
  specialize (F (N.to_nat (JS.code b - 160))).
  rewrite forallb_forall in F.
  assert (Ib : In (N.to_nat (JS.code b - 160)) (seq 0 32)) by (apply in_seq; lia).
  specialize (F Ib (N.to_nat (JS.code c - 128))).
  assert (Ic : In (N.to_nat (JS.code c - 128)) (seq 0 64)) by (apply in_seq; lia).
  specialize (F Ic). cbv zeta in F.
  replace (160 + N.of_nat (N.to_nat (JS.code b - 160)))%N with (JS.code b) in F by lia.
  replace (128 + N.of_nat (N.to_nat (JS.code c - 128)))%N with (JS.code c) in F by lia.
  unfold JS.code in F. rewrite !ascii_N_embedding in F.
  repeat (apply andb_true_iff in F as [F ?]).
  cbv zeta. fold (JS.code b) in *. fold (JS.code c) in *.
  split; [exact Ha|]. split; [apply N.leb_le; lia|]. split; [apply N.leb_le; lia|].
  split.
  { destruct (JSON.hex4 _ _ _ _) as [v'|]; [|discriminate F].
    apply N.eqb_eq in F. now subst. }
  split.
  { rewrite Ha. now apply String.eqb_eq. }
  intros Hh. match goal with X : negb _ = true |- _ => rewrite Hh in X; cbn in X end.
  now apply negb_true_iff.
Qed.

(** What the parser does with an escape of a code unit. *)
Lemma parse_unicodeEscape (v : N) (t : string) :
  JSON.hex4 (JS.hexDigit (v / 4096)) (JS.hexDigit ((v / 256) mod 16))
            (JS.hexDigit ((v / 16) mod 16)) (JS.hexDigit (v mod 16)) = Some v ->
  (if JSON.isHighSurrogate v then JSON.lowSurrogateEscape t else None) = None ->
  JSON.parseStringBody (JSON.unicodeEscape v ++ t)
  = match JSON.parseStringBody t with
    | Some (str, rest) => Some (JSON.utf8OfCode v ++ str, rest)
    | None => None
    end.
Proof.
  intros H L. unfold JSON.unicodeEscape. cbn [append JSON.parseStringBody].
  change (Ascii.eqb JSON.backslash JSON.dquote) with false.
  change (Ascii.eqb JSON.backslash JSON.backslash) with true.
  change (Ascii.eqb "u" "u") with true. cbv iota.
  rewrite H, L. reflexivity.
Qed.

Lemma low_unicodeEscape (v : N) (t : string) :
  JSON.hex4 (JS.hexDigit (v / 4096)) (JS.hexDigit ((v / 256) mod 16))
            (JS.hexDigit ((v / 16) mod 16)) (JS.hexDigit (v mod 16)) = Some v ->
  JSON.lowSurrogateEscape (JSON.unicodeEscape v ++ t)
  = if JSON.isLowSurrogate v then Some v else None.
Proof.
  intros H. unfold JSON.unicodeEscape, JSON.lowSurrogateEscape. cbn [append].
  change (Ascii.eqb JSON.backslash JSON.backslash) with true.
  change (Ascii.eqb "u" "u") with true. cbv iota.
  rewrite H. reflexivity.
Qed.

(** Whether a string opens with the bytes of a low surrogate. *)
Lemma low_quoteBody (s rest : string) :
  match s with
  | String a (String b (String c _)) =>
      JSON.isSurrogateBytes a b c && JSON.isLowSurrogate (JSON.surrogateValue b c)
  | _ => false
  end = false ->
  JSON.lowSurrogateEscape (JSON.quoteBody s ++ String JSON.dquote rest) = None.
Proof.
  destruct s as [|a [|b [|c r3]]]; intros H.
  - reflexivity.
  - cbn [JSON.quoteBody]. rewrite append_assoc. apply low_quoteChar.
  - cbn [JSON.quoteBody]. rewrite append_assoc. apply low_quoteChar.
  - cbn [JSON.quoteBody].
    destruct (JSON.isSurrogateBytes a b c) eqn:S.
    2:{ rewrite append_assoc. apply low_quoteChar. }
    cbn [andb] in H.
    destruct (surrogate_facts a b c S) as (Ha & _ & _ & Hx & _ & _).
    assert (Esc : JSON.lowSurrogateEscape
                    ((JSON.unicodeEscape (JSON.surrogateValue b c) ++ JSON.quoteBody r3)
                     ++ String JSON.dquote rest) = None).
    { rewrite append_assoc, (low_unicodeEscape _ _ Hx), H. reflexivity. }
    destruct r3 as [|a' [|b' [|c' r6]]]; try exact Esc.
    destruct (_ && _ && _)%bool; [|exact Esc].
    rewrite Ha. reflexivity.
Qed.

Lemma quoteBody_cons (a : ascii) (r : string) :
  JSON.quoteBody (String a r)
  = match r with
    | String b (String c r3) =>
        if JSON.isSurrogateBytes a b c then
          match r3 with
          | String a' (String b' (String c' r6)) =>
              if JSON.isHighSurrogate (JSON.surrogateValue b c)
                 && JSON.isSurrogateBytes a' b' c'
                 && JSON.isLowSurrogate (JSON.surrogateValue b' c')
              then String a (String b (String c
                     (String a' (String b' (String c' (JSON.quoteBody r6))))))
              else JSON.unicodeEscape (JSON.surrogateValue b c) ++ JSON.quoteBody r3
          | _ => JSON.unicodeEscape (JSON.surrogateValue b c) ++ JSON.quoteBody r3
          end
        else JSON.quoteChar a ++ JSON.quoteBody r
    | _ => JSON.quoteChar a ++ JSON.quoteBody r
    end.
Proof. destruct r as [|b [|c r3]]; reflexivity. Qed.

Lemma parseStringBody_quoteBody_upto (n : nat) (s rest : string) :
  String.length s <= n ->
  JSON.parseStringBody (JSON.quoteBody s ++ String JSON.dquote rest) = Some (s, rest).
Proof.
  revert s rest. induction n as [|n IH]; intros s rest L.
  - destruct s; [reflexivity | cbn in L; lia].
  - destruct s as [|a r]; [reflexivity|]. cbn [String.length] in L.
    assert (Plain : JSON.parseStringBody
                      ((JSON.quoteChar a ++ JSON.quoteBody r) ++ String JSON.dquote rest)
                    = Some (String a r, rest)).
    { rewrite append_assoc. apply parse_quoteChar, IH. lia. }
    rewrite quoteBody_cons.
    destruct r as [|b [|c r3]]; try exact Plain.
    destruct (JSON.isSurrogateBytes a b c) eqn:S; [|exact Plain]. clear Plain.
    destruct (surrogate_facts a b c S) as (Ha & Hb & Hc & Hx & Hu & _).
    cbn [String.length] in L.
    assert (Esc : (JSON.isHighSurrogate (JSON.surrogateValue b c) = true ->
                   match r3 with
                   | String a' (String b' (String c' _)) =>
                       JSON.isSurrogateBytes a' b' c'
                       && JSON.isLowSurrogate (JSON.surrogateValue b' c')
                   | _ => false
                   end = false) ->
                  JSON.parseStringBody
                    ((JSON.unicodeEscape (JSON.surrogateValue b c) ++ JSON.quoteBody r3)
                     ++ String JSON.dquote rest)
                  = Some (String a (String b (String c r3)), rest)).
    { intros C. rewrite append_assoc, parse_unicodeEscape.
      - rewrite IH by lia. rewrite Hu. reflexivity.
      - exact Hx.
      - destruct (JSON.isHighSurrogate _); [|reflexivity].
        apply low_quoteBody, C. reflexivity. }
    destruct r3 as [|a' [|b' [|c' r6]]]; try (apply Esc; reflexivity).
    destruct (JSON.isHighSurrogate (JSON.surrogateValue b c)) eqn:Hh; cbn [andb];
      [|apply Esc; discriminate].
    destruct (JSON.isSurrogateBytes a' b' c') eqn:S'; cbn [andb];
      [|apply Esc; reflexivity].
    destruct (JSON.isLowSurrogate (JSON.surrogateValue b' c')) eqn:Hl;
      [|apply Esc; reflexivity].
    destruct (surrogate_facts a' b' c' S') as (Ha' & Hb' & Hc' & _).
    cbn [append String.length] in *.
    assert (A : (128 <=? JS.code a)%N = true) by now rewrite Ha.
    assert (A' : (128 <=? JS.code a')%N = true) by now rewrite Ha'.
    rewrite (parse_raw a _ A), (parse_raw b _ Hb), (parse_raw c _ Hc),
            (parse_raw a' _ A'), (parse_raw b' _ Hb'), (parse_raw c' _ Hc').
    rewrite IH by lia. reflexivity.
Qed.

Lemma parseStringBody_quoteBody (s rest : string) :
  JSON.parseStringBody (JSON.quoteBody s ++ String JSON.dquote rest) = Some (s, rest).
Proof. apply (parseStringBody_quoteBody_upto (String.length s)). lia. Qed.

Lemma parseStringBody_dq (s rest : string) :
  JSON.parseStringBody
    (JSON.quoteBody s ++ String (Ascii false true false false false true false false) rest)
  = Some (s, rest).
Proof. exact (parseStringBody_quoteBody s rest). Qed.

Lemma quote_app (s rest : string) :
  JSON.quote s ++ rest = String JSON.dquote (JSON.quoteBody s ++ String JSON.dquote rest).
Proof. unfold JSON.quote. cbn [append]. now rewrite append_assoc. Qed.

(** Enough fuel for a text that is not empty. *)
Lemma parse_fuel (text : string) (k : nat) :
  k <= 2 * String.length text + 2 -> exists f, 2 * String.length text + 2 = k + f.
Proof. intros H. exists (2 * String.length text + 2 - k). lia. Qed.

Lemma payload_text (d : string) :
  JSON.stringify (JObj [("domain", JStr d)])
  = String "{" (JSON.quote "domain" ++ String ":" (JSON.quote d ++ "}")).
Proof.
  unfold JSON.stringify. cbn [JSON.serialize map fst snd String.eqb JSON.joinWith].
  cbn [append]. rewrite !append_assoc. reflexivity.
Qed.

Lemma parse_payload (d : string) :
  JSON.parse (JSON.stringify (JObj [("domain", JStr d)])) = Some (JObj [("domain", JStr d)]).
Proof.
  rewrite payload_text. unfold JSON.parse.
  destruct (parse_fuel (String "{" (JSON.quote "domain" ++ String ":" (JSON.quote d ++ "}"))) 3)
    as [f ->]; [cbn [String.length]; lia|].
  rewrite !quote_app.
  cbn [Nat.add JSON.parseValue JSON.skipWs].
  cbn. rewrite parseStringBody_dq. reflexivity.
Qed.

(** ** Number literals *)

Lemma allDigits_app (a b : string) :
  JSON.allDigits (a ++ b) = JSON.allDigits a && JSON.allDigits b.
Proof.
  induction a as [|c a IH]; cbn [append JSON.allDigits]; [reflexivity|].
  now rewrite IH, andb_assoc.
Qed.

Lemma allDigits_uint (u : Decimal.uint) :
  JSON.allDigits (NilEmpty.string_of_uint u) = true.
Proof. induction u; cbn [NilEmpty.string_of_uint JSON.allDigits]; trivial. Qed.

Lemma allDigits_zeros (n : nat) : JSON.allDigits (JSON.zeros n) = true.
Proof. induction n as [|n IH]; cbn [JSON.zeros JSON.allDigits]; trivial. Qed.

(** The decimal numeral of [n]: digits only, and no leading zero unless
    [n] is zero. *)
Lemma decimal_shape (n : N) :
  JSON.allDigits (JSON.decimal n) = true
  /\ ((n = 0%N /\ JSON.decimal n = "0")
      \/ (n <> 0%N /\ exists c r, JSON.decimal n = String c r
                                   /\ Ascii.eqb c "0" = false)).
Proof.
  unfold JSON.decimal.
  assert (E : N.to_uint n = Decimal.unorm (N.to_uint n)).
  { rewrite <- (DecimalN.Unsigned.to_of (N.to_uint n)).
    now rewrite DecimalN.Unsigned.of_to. }
  pose proof (DecimalN.Unsigned.of_to n) as On.
  pose proof (DecimalFacts.nzhead_nonzero (N.to_uint n)) as NZ.
  revert E On NZ. generalize (N.to_uint n) as u. intros u E On NZ.
  unfold Decimal.unorm in E.
  split.
  - destruct u; try apply allDigits_uint. reflexivity.
  - destruct (Decimal.nzhead u) eqn:H; try (now destruct (NZ _ eq_refl));
      rewrite E; cbn [NilZero.string_of_uint NilEmpty.string_of_uint];
      try (left; split; [rewrite <- On, E; reflexivity | reflexivity]);
      right; (split; [intros Hn; rewrite Hn in On; rewrite E in On; discriminate On
                     | eexists; eexists; split; reflexivity]).
Qed.

Lemma dropZerosRev_spec (l : list ascii) (c : nat) :
  exists k, JSON.dropZerosRev l c = (skipn k l, c + k)
            /\ firstn k l = repeat "0"%char k.
Proof.
  revert c. induction l as [|x l IH]; intros c.
  - exists 0. split; [cbn; now rewrite Nat.add_0_r | reflexivity].
  - cbn [JSON.dropZerosRev]. destruct (Ascii.eqb x "0") eqn:E.
    + apply Ascii.eqb_eq in E. subst x. destruct (IH (S c)) as (k & -> & F).
      exists (S k). split; [cbn [skipn]; f_equal; lia|].
      cbn [firstn repeat]. now rewrite F.
    + exists 0. split; [cbn; now rewrite Nat.add_0_r | reflexivity].
Qed.

Lemma string_of_list_ascii_repeat0 (k : nat) :
  string_of_list_ascii (repeat "0"%char k) = JSON.zeros k.
Proof. induction k as [|k IH]; cbn; [reflexivity | now rewrite IH]. Qed.

Lemma string_of_list_ascii_app (a b : list ascii) :
  string_of_list_ascii (a ++ b)%list = string_of_list_ascii a ++ string_of_list_ascii b.
Proof. induction a as [|x a IH]; cbn; [reflexivity | now rewrite IH]. Qed.

Lemma rev_repeat {A} (x : A) (k : nat) : List.rev (repeat x k) = repeat x k.
Proof.
  induction k as [|k IH]; [reflexivity|].
  cbn [repeat List.rev]. rewrite IH. clear IH.
  induction k as [|k IH]; [reflexivity|]. cbn [repeat app]. now rewrite IH.
Qed.

(** Stripping trailing zeros splits the numeral. *)
Lemma stripTrailingZeros_spec (s : string) :
  s = fst (JSON.stripTrailingZeros s) ++ JSON.zeros (snd (JSON.stripTrailingZeros s)).
Proof.
  unfold JSON.stripTrailingZeros.
  destruct (dropZerosRev_spec (List.rev (list_ascii_of_string s)) 0) as (k & -> & F).
  cbn [fst snd Nat.add].
  rewrite <- string_of_list_ascii_repeat0, <- string_of_list_ascii_app.
  rewrite <- (rev_repeat "0"%char k), <- F, <- List.rev_app_distr.
  rewrite List.firstn_skipn, List.rev_involutive.
  symmetry. apply string_of_list_ascii_of_string.
Qed.

Lemma isDigit_cases (c : ascii) :
  JSON.isDigit c = true ->
  In c ["0"; "1"; "2"; "3"; "4"; "5"; "6"; "7"; "8"; "9"]%char.
Proof.
  destruct c as [[] [] [] [] [] [] [] []]; intros H; try discriminate H;
    cbn [In]; tauto.
Qed.

Lemma spanDigits_app (a : string) (x : ascii) (r : string) :
  JSON.isDigit x = false -> JSON.allDigits a = true ->
  JSON.spanDigits (a ++ String x r) = (a, String x r).
Proof.
  intros Hx. induction a as [|c a IH]; cbn [append JSON.spanDigits JSON.allDigits].
  - now rewrite Hx.
  - intros H. apply andb_true_iff in H as [Hc Ha]. now rewrite Hc, IH.
Qed.

(** An integer literal followed by a comma. *)
Lemma parseNumber_integer (neg : bool) (c : ascii) (more rest : string) :
  JSON.isDigit c = true -> JSON.allDigits more = true ->
  Ascii.eqb c "0" && negb (String.eqb more EmptyString) = false ->
  JSON.parseNumber ((if neg then "-" else EmptyString)
                    ++ String c (more ++ String "," rest))
  = Some (JNum (Number.fromDecimal neg (JSON.digitsValue (String c more) 0) 0),
          String "," rest).
Proof.
  intros Hc Hm Hz. unfold JSON.parseNumber.
  assert (Hs : JSON.spanDigits (String c (more ++ String "," rest))
               = (String c more, String "," rest)).
  { change (String c (more ++ String "," rest)) with (String c more ++ String "," rest).
    apply spanDigits_app; [reflexivity|]. cbn [JSON.allDigits]. now rewrite Hc, Hm. }
  assert (Ha : more ++ EmptyString = more).
  { clear. induction more as [|x s IH]; cbn; [reflexivity | now rewrite IH]. }
  destruct neg; cbn [append].
  - rewrite Hs, Hz. cbn. rewrite Ha. reflexivity.
  - apply isDigit_cases in Hc. cbn [In] in Hc.
    destruct Hc as [<-|[<-|[<-|[<-|[<-|[<-|[<-|[<-|[<-|[<-|[]]]]]]]]]]];
      rewrite Hs, Hz; cbn; rewrite Ha; reflexivity.
Qed.

Lemma append_nil_r (s : string) : s ++ EmptyString = s.
Proof. induction s as [|x s IH]; cbn; [reflexivity | now rewrite IH]. Qed.

Lemma spanDigits_one (d0 x : ascii) (t : string) :
  JSON.isDigit d0 = true -> JSON.isDigit x = false ->
  JSON.spanDigits (String d0 (String x t)) = (String d0 EmptyString, String x t).
Proof. intros H1 H2. cbn [JSON.spanDigits]. now rewrite H1, H2. Qed.

(** A literal in exponent notation followed by a comma. *)
Lemma parseNumber_exponent (neg : bool) (d0 : ascii) (r ex rest : string) :
  JSON.isDigit d0 = true -> JSON.allDigits r = true ->
  JSON.allDigits ex = true -> ex <> EmptyString ->
  JSON.parseNumber
    ((if neg then "-" else EmptyString)
     ++ match r with
        | EmptyString => String d0 ("e" ++ "+" ++ ex)
        | _ => String d0 ("." ++ r ++ "e" ++ "+" ++ ex)
        end ++ String "," rest)
  = Some (JNum (Number.fromDecimal neg (JSON.digitsValue (String d0 r) 0)
                  (Z.of_N (JSON.digitsValue ex 0) - Z.of_nat (String.length r))),
          String "," rest).
Proof.
  intros Hd Hr He Hne. unfold JSON.parseNumber.
  assert (Hex : JSON.spanDigits (ex ++ String "," rest) = (ex, String "," rest))
    by (apply spanDigits_app; [reflexivity | exact He]).
  destruct ex as [|e0 ex']; [contradiction|]. cbn [append] in Hex.
  destruct r as [|r0 r'].
  - pose proof (spanDigits_one d0 "e" (String "+" (String e0 (ex' ++ String "," rest)))
                  Hd eq_refl) as H1.
    apply isDigit_cases in Hd. cbn [In] in Hd.
    destruct neg;
      destruct Hd as [<-|[<-|[<-|[<-|[<-|[<-|[<-|[<-|[<-|[<-|[]]]]]]]]]]];
      cbn [append]; rewrite H1;
      cbn [Ascii.eqb Bool.eqb String.eqb andb negb orb]; rewrite Hex;
      reflexivity.
  - assert (Hfr : JSON.spanDigits (String r0 r' ++ String "e" (String "+" (String e0 (ex' ++ String "," rest))))
                  = (String r0 r', String "e" (String "+" (String e0 (ex' ++ String "," rest)))))
      by (apply spanDigits_app; [reflexivity | exact Hr]).
    cbn [append] in Hfr.
    pose proof (spanDigits_one d0 "."
                  (String r0 (r' ++ String "e" (String "+" (String e0 (ex' ++ String "," rest)))))
                  Hd eq_refl) as H1.
    apply isDigit_cases in Hd. cbn [In] in Hd.
    destruct neg;
      destruct Hd as [<-|[<-|[<-|[<-|[<-|[<-|[<-|[<-|[<-|[<-|[]]]]]]]]]]];
      cbn [append]; rewrite append_assoc; cbn [append]; rewrite H1;
      cbn [Ascii.eqb Bool.eqb String.eqb andb negb orb]; rewrite Hfr;
      cbn [Ascii.eqb Bool.eqb String.eqb andb negb orb]; rewrite Hex;
      reflexivity.
Qed.

(** ** Numbers *)

Lemma oddPart_spec (p : positive) :
  Z.pos p = (Z.pos (fst (Number.oddPart p)) * 2 ^ snd (Number.oddPart p))%Z
  /\ (0 <= snd (Number.oddPart p))%Z.
Proof.
  induction p as [p IH | p IH |]; cbn [Number.oddPart].
  - cbn [fst snd]. split; [lia | lia].
  - destruct (Number.oddPart p) as [o k]. cbn [fst snd] in *.
    destruct IH as [IH Hk]. split; [|lia].
    rewrite Z.pow_add_r by lia. change (Z.pos p~0) with (2 * Z.pos p)%Z. rewrite IH. lia.
  - cbn [fst snd]. split; [reflexivity | lia].
Qed.

Lemma oddPart_double (p : positive) :
  Number.oddPart (p~0) = (fst (Number.oddPart p), (snd (Number.oddPart p) + 1)%Z).
Proof. cbn [Number.oddPart]. now destruct (Number.oddPart p). Qed.

(** A power of two moves from the mantissa to the exponent. *)
Lemma normalize_shift (neg : bool) (m e k : Z) :
  (0 < m)%Z -> (0 <= k)%Z ->
  Number.normalize neg (m * 2 ^ k) e = Number.normalize neg m (e + k).
Proof.
  intros Hm Hk. revert e. pattern k. apply natlike_ind; [| |exact Hk].
  - intros e. now rewrite Z.pow_0_r, Z.mul_1_r, Z.add_0_r.
  - intros x Hx IH e. rewrite Z.pow_succ_r by exact Hx.
    replace (m * (2 * 2 ^ x))%Z with (2 * (m * 2 ^ x))%Z by lia.
    assert (Hpos : (0 < m * 2 ^ x)%Z) by (apply Z.mul_pos_pos; [exact Hm | apply Z.pow_pos_nonneg; lia]).
    destruct (m * 2 ^ x)%Z as [|q|q] eqn:Eq; try lia.
    change (2 * Z.pos q)%Z with (Z.pos q~0).
    specialize (IH (e + 1)%Z). unfold Number.normalize in IH |- *.
    rewrite oddPart_double. destruct (Number.oddPart q) as [o j]. cbn [fst snd].
    cbn [fst snd] in IH.
    replace (e + Z.succ x)%Z with (e + 1 + x)%Z by lia. rewrite <- IH.
    f_equal. lia.
Qed.

Lemma round_int_unfold (neg : bool) (p : Z) :
  (0 < p)%Z ->
  Number.round neg p 1
  = let E := (Z.log2 p - 52)%Z in
    let '(n, dn) := Number.scaled p 1 E in
    let M := (n / dn)%Z in
    let r := (n mod dn)%Z in
    let M' := if (2 * r <? dn)%Z then M
              else if (dn <? 2 * r)%Z then (M + 1)%Z
              else if Z.even M then M else (M + 1)%Z in
    if (1024 <=? Z.log2 M' + E)%Z then Number.Infinity neg
    else Number.normalize neg M' E.
Proof.
  intros Hp. unfold Number.round.
  replace (p <=? 0)%Z with false by (symmetry; apply Z.leb_gt; exact Hp).
  change (Z.log2 1) with 0%Z. rewrite Z.sub_0_r.
  pose proof (Z.log2_nonneg p) as Hl.
  pose proof (Z.log2_spec p Hp) as [Hlo _].
  unfold Number.scaled at 1.
  replace (0 <=? Z.log2 p)%Z with true by (symmetry; apply Z.leb_le; exact Hl).
  rewrite Z.mul_1_l.
  replace (p <? 2 ^ Z.log2 p)%Z with false by (symmetry; apply Z.ltb_ge; exact Hlo).
  replace (Z.max (Z.log2 p - 52) (-1074)) with (Z.log2 p - 52)%Z by lia.
  reflexivity.
Qed.

(** An integer below [2^53] is a Number as it stands. *)
Lemma round_small (neg : bool) (p : Z) :
  (0 < p)%Z -> (Z.log2 p <= 52)%Z ->
  Number.round neg p 1 = Number.normalize neg p 0.
Proof.
  intros Hp Hl. rewrite (round_int_unfold neg p Hp). cbn zeta.
  pose proof (Z.log2_nonneg p) as Hl0.
  unfold Number.scaled.
  destruct (Z.leb_spec 0 (Z.log2 p - 52)) as [H0|H0].
  - assert (E0 : (Z.log2 p - 52 = 0)%Z) by lia. rewrite E0.
    rewrite Z.pow_0_r, Z.mul_1_l, Z.div_1_r, Z.mod_1_r. cbn [Z.mul Z.ltb Z.compare].
    rewrite Z.add_0_r.
    replace (1024 <=? Z.log2 p)%Z with false by (symmetry; apply Z.leb_gt; lia).
    reflexivity.
  - rewrite Z.div_1_r, Z.mod_1_r. cbn [Z.mul Z.ltb Z.compare].
    assert (Hk : (0 <= - (Z.log2 p - 52))%Z) by lia.
    rewrite (Z.log2_mul_pow2 p _ Hp Hk).
    replace (1024 <=? - (Z.log2 p - 52) + Z.log2 p + (Z.log2 p - 52))%Z with false
      by (symmetry; apply Z.leb_gt; lia).
    rewrite (normalize_shift neg p _ _ Hp Hk). f_equal. lia.
Qed.

(** Rounding an integer: the result is infinite, or an integer that is a
    Number as it stands. *)
Lemma round_int (neg : bool) (p : Z) :
  (0 < p)%Z ->
  Number.round neg p 1 = Number.Infinity neg
  \/ exists v, (0 < v)%Z
               /\ Number.round neg p 1 = Number.normalize neg v 0
               /\ Number.round neg v 1 = Number.normalize neg v 0.
Proof.
  intros Hp.
  destruct (Z.le_gt_cases (Z.log2 p) 52) as [Hs|Hb].
  - right. exists p. split; [exact Hp|]. split; now apply round_small.
  - rewrite (round_int_unfold neg p Hp). cbn zeta.
    set (E := (Z.log2 p - 52)%Z). assert (HE : (0 < E)%Z) by (unfold E; lia).
    unfold Number.scaled. replace (0 <=? E)%Z with true by (symmetry; apply Z.leb_le; lia).
    rewrite Z.mul_1_l.
    assert (H2E : (0 < 2 ^ E)%Z) by (apply Z.pow_pos_nonneg; lia).
    set (M := (p / 2 ^ E)%Z). set (r := (p mod 2 ^ E)%Z).
    assert (HM : (2 ^ 52 <= M < 2 ^ 53)%Z).
    { pose proof (Z.log2_spec p Hp) as [Hlo Hhi]. unfold M.
      replace (Z.log2 p) with (52 + E)%Z in Hlo by (unfold E; lia).
      replace (Z.succ (Z.log2 p)) with (53 + E)%Z in Hhi by (unfold E; lia).
      rewrite Z.pow_add_r in Hlo, Hhi by lia. split.
      - apply Z.div_le_lower_bound; lia.
      - apply Z.div_lt_upper_bound; lia. }
    set (M' := if (2 * r <? 2 ^ E)%Z then M
               else if (2 ^ E <? 2 * r)%Z then (M + 1)%Z
               else if Z.even M then M else (M + 1)%Z).
    assert (HM' : (2 ^ 52 <= M' <= 2 ^ 53)%Z).
    { unfold M'. destruct (_ <? _)%Z; [lia|]. destruct (_ <? _)%Z; [lia|].
      destruct (Z.even M); lia. }
    destruct (1024 <=? Z.log2 M' + E)%Z eqn:Ov; [left; reflexivity|]. right.
    assert (HMp : (0 < M')%Z) by lia.
    exists (M' * 2 ^ E)%Z. split; [lia|]. split.
    { rewrite (normalize_shift neg M' 0 E HMp) by lia. reflexivity. }
    rewrite (normalize_shift neg M' 0 E HMp) by lia. cbn [Z.add].
    assert (Hv : (0 < M' * 2 ^ E)%Z) by lia.
    rewrite (round_int_unfold neg _ Hv). cbn zeta.
    rewrite (Z.log2_mul_pow2 M' E HMp) by lia.
    destruct (Z.eq_dec M' (2 ^ 53)) as [He|Hne].
    + (* the mantissa was rounded up to 2^53 *)
      rewrite He in *. change (Z.log2 (2 ^ 53)) with 53%Z in *.
      replace (E + 53 - 52)%Z with (E + 1)%Z by lia.
      unfold Number.scaled. replace (0 <=? E + 1)%Z with true by (symmetry; apply Z.leb_le; lia).
      rewrite Z.mul_1_l, Z.pow_add_r by lia.
      replace (2 ^ 53 * 2 ^ E)%Z with (2 ^ 52 * (2 ^ E * 2 ^ 1))%Z by (change (2 ^ 53)%Z with (2 ^ 52 * 2 ^ 1)%Z; lia).
      rewrite Z.div_mul, Z.mod_mul by lia.
      replace (2 * 0 <? 2 ^ E * 2 ^ 1)%Z with true by (symmetry; apply Z.ltb_lt; lia).
      change (Z.log2 (2 ^ 52)) with 52%Z.
      replace (1024 <=? 52 + (E + 1))%Z with false by (rewrite <- Ov; f_equal; lia).
      change (2 ^ 53)%Z with (2 ^ 52 * 2 ^ 1)%Z.
      rewrite (normalize_shift neg (2 ^ 52) E 1) by lia. reflexivity.
    + assert (Hl : Z.log2 M' = 52%Z).
      { apply Z.log2_unique; [lia|]. change (Z.succ 52) with 53%Z. lia. }
      rewrite Hl in *. replace (E + 52 - 52)%Z with E by lia.
      unfold Number.scaled. replace (0 <=? E)%Z with true by (symmetry; apply Z.leb_le; lia).
      rewrite Z.mul_1_l, Z.div_mul, Z.mod_mul by lia.
      replace (2 * 0 <? 2 ^ E)%Z with true by (symmetry; apply Z.ltb_lt; lia).
      rewrite Hl, Ov. reflexivity.
Qed.

Lemma normalize_sign (neg : bool) (m e : Z) :
  Number.normalize neg m e = withSign neg (Number.normalize false m e).
Proof.
  unfold Number.normalize. destruct m as [|p|p]; try reflexivity.
  now destruct (Number.oddPart p).
Qed.

Lemma round_sign (neg : bool) (p q : Z) :
  Number.round neg p q = withSign neg (Number.round false p q).
Proof.
  unfold Number.round. destruct (p <=? 0)%Z; [reflexivity|].
  destruct (Number.scaled p q (Z.log2 p - Z.log2 q)) as [n0 d0].
  destruct (Number.scaled p q _) as [n dn].
  destruct (1024 <=? _)%Z; [reflexivity|]. apply normalize_sign.
Qed.

Lemma fromDecimal_sign (neg : bool) (m : N) (e : Z) :
  Number.fromDecimal neg m e = withSign neg (Number.fromDecimal false m e).
Proof. unfold Number.fromDecimal. destruct (0 <=? e)%Z; apply round_sign. Qed.

Lemma number_eqb_eq (x y : Number.number) : Number.eqb x y = true -> x = y.
Proof.
  destruct x as [|a|a m e], y as [|b|b m' e']; cbn [Number.eqb]; try discriminate; trivial.
  - intros H. apply Bool.eqb_prop in H. now subst.
  - intros H. apply andb_true_iff in H as [H He]. apply andb_true_iff in H as [Hs Hm].
    apply Bool.eqb_prop in Hs. apply N.eqb_eq in Hm. apply Z.eqb_eq in He. now subst.
Qed.

(** The decimal the search returns reads back as the number, whenever the
    exact decimal does. *)
Lemma shortestFrom_ok (m : N) (e : Z) (sx : N) (j : Z) (drop : nat) :
  Number.fromDecimal false sx j = Number.Finite false m e -> (0 <= j)%Z ->
  Number.fromDecimal false (fst (shortestFrom m e sx j drop))
                           (snd (shortestFrom m e sx j drop))
  = Number.Finite false m e
  /\ (0 <= snd (shortestFrom m e sx j drop))%Z.
Proof.
  intros Hx Hj. induction drop as [|drop IH]; cbn [shortestFrom]; [now split|].
  cbv zeta.
  set (j' := (j + Z.of_nat (S drop))%Z). assert (Hj' : (0 <= j')%Z) by (unfold j'; lia).
  set (lo := (sx / 10 ^ N.of_nat (S drop))%N). set (hi := (lo + 1)%N).
  destruct (Number.eqb (Number.fromDecimal false lo j') _) eqn:Elo;
    destruct (Number.eqb (Number.fromDecimal false hi j') _) eqn:Ehi; cbn [andb].
  - apply number_eqb_eq in Elo, Ehi.
    destruct (_ <? _)%N; [now split|]. destruct (_ <? _)%N; [now split|].
    destruct (N.even lo); now split.
  - apply number_eqb_eq in Elo. now split.
  - apply number_eqb_eq in Ehi. now split.
  - exact IH.
Qed.

(** The normal form of an integer. *)
Lemma normalize_int (neg : bool) (v : Z) :
  (0 < v)%Z ->
  exists m e, Number.normalize neg v 0 = Number.Finite neg m e
              /\ m <> 0%N /\ (0 <= e)%Z
              /\ (Z.of_N m * 2 ^ e = v)%Z.
Proof.
  intros Hv. destruct v as [|p|p]; try lia. unfold Number.normalize.
  destruct (oddPart_spec p) as [H1 H2]. destruct (Number.oddPart p) as [o k].
  cbn [fst snd] in *. exists (N.pos o), k. rewrite Z.add_0_l.
  split; [reflexivity|]. split; [discriminate|]. split; [exact H2|].
  now rewrite H1.
Qed.

Lemma exactDecimal_int (m : N) (e : Z) :
  (0 <= e)%Z -> exactDecimal m e = ((m * 2 ^ Z.to_N e)%N, 0%Z).
Proof.
  intros He. unfold exactDecimal.
  now replace (0 <=? e)%Z with true by (symmetry; apply Z.leb_le; exact He).
Qed.

(** For an integer that is a Number, [shortest] finds a decimal with no
    fraction that reads back as it. *)
Lemma shortest_int (v : Z) (m : N) (e : Z) :
  (0 < v)%Z ->
  Number.round false v 1 = Number.normalize false v 0 ->
  Number.normalize false v 0 = Number.Finite false m e ->
  Number.fromDecimal false (fst (shortest m e)) (snd (shortest m e))
  = Number.Finite false m e
  /\ (0 <= snd (shortest m e))%Z.
Proof.
  intros Hv Hr Hn.
  destruct (normalize_int false v Hv) as (m' & e' & Hn' & Hm & He & Hval).
  rewrite Hn in Hn'. inversion Hn'; subst m' e'.
  unfold shortest. rewrite (exactDecimal_int m e He).
  apply shortestFrom_ok; [|lia].
  unfold Number.fromDecimal. cbn [Z.leb Z.compare]. rewrite Z.pow_0_r, Z.mul_1_r.
  rewrite N2Z.inj_mul, N2Z.inj_pow, Z2N.id by exact He. cbn [Z.of_N].
  rewrite Hval, Hr. exact Hn.
Qed.

Lemma digitsValue_app (a b : string) (acc : N) :
  JSON.digitsValue (a ++ b) acc = JSON.digitsValue b (JSON.digitsValue a acc).
Proof.
  revert acc. induction a as [|c a IH]; intros acc; cbn [append JSON.digitsValue];
    [reflexivity | apply IH].
Qed.

Lemma digitsValue_zeros (n : nat) (acc : N) :
  JSON.digitsValue (JSON.zeros n) acc = (acc * 10 ^ N.of_nat n)%N.
Proof.
  revert acc. induction n as [|n IH]; intros acc.
  - cbn. lia.
  - cbn [JSON.zeros JSON.digitsValue]. rewrite IH.
    change (JS.code "0" - 48)%N with 0%N. rewrite N.add_0_r.
    rewrite Nat2N.inj_succ, N.pow_succ_r'. lia.
Qed.

(** The value of the digits of a decimal numeral. *)
Lemma digitsValue_uint (u : Decimal.uint) (acc : N) :
  JSON.digitsValue (NilEmpty.string_of_uint u) acc
  = match acc with
    | N0 => N.of_uint u
    | Npos a => Npos (Pos.of_uint_acc u a)
    end.
Proof.
  revert acc. induction u as [|u IH|u IH|u IH|u IH|u IH|u IH|u IH|u IH|u IH|u IH];
    intros acc; cbn [NilEmpty.string_of_uint JSON.digitsValue];
    [destruct acc; reflexivity | ..]; rewrite IH;
    (destruct acc as [|a];
     [reflexivity
     | match goal with
       | |- context [(N.pos a * 10 + ?d)%N] =>
           let v := eval vm_compute in d in
           change d with v
       end;
       cbn [N.mul N.add Pos.of_uint_acc]; rewrite ?(Pos.mul_comm a 10);
       try reflexivity; rewrite Pos.add_comm; reflexivity]).
Qed.

Lemma digitsValue_decimal (n : N) : JSON.digitsValue (JSON.decimal n) 0 = n.
Proof.
  unfold JSON.decimal.
  pose proof (DecimalN.Unsigned.of_to n) as H.
  destruct (N.to_uint n) eqn:E; cbn [NilZero.string_of_uint];
    try (rewrite digitsValue_uint; exact H).
  exact H.
Qed.

(** Two decimals with the same integer value are the same Number. *)
Lemma fromDecimal_int (neg : bool) (m m' : N) (e e' : Z) :
  (0 <= e)%Z -> (0 <= e')%Z ->
  (Z.of_N m * 10 ^ e = Z.of_N m' * 10 ^ e')%Z ->
  Number.fromDecimal neg m e = Number.fromDecimal neg m' e'.
Proof.
  intros He He' H. unfold Number.fromDecimal.
  replace (0 <=? e)%Z with true by (symmetry; apply Z.leb_le; exact He).
  replace (0 <=? e')%Z with true by (symmetry; apply Z.leb_le; exact He').
  now rewrite H.
Qed.

(** What [JSON.parse] reads back from a printed decimal without a
    fraction. *)
Lemma parseNumber_decimalToString (neg : bool) (s : N) (j : Z) (rest : string) :
  s <> 0%N -> (0 <= j)%Z ->
  JSON.parseNumber ((if neg then "-" else EmptyString)
                    ++ JSON.decimalToString s j ++ String "," rest)
  = Some (JNum (Number.fromDecimal neg s j), String "," rest).
Proof.
  intros Hs Hj. unfold JSON.decimalToString.
  destruct (decimal_shape s) as [Hall [[H0 _]|(_ & c & r & Hd & Hc)]]; [contradiction|].
  pose proof (stripTrailingZeros_spec (JSON.decimal s)) as Hsp.
  pose proof (digitsValue_decimal s) as Hval.
  destruct (JSON.stripTrailingZeros (JSON.decimal s)) as [dg zc].
  cbn [fst snd] in Hsp.
  assert (Hdg : exists dr, dg = String c dr).
  { destruct dg as [|c' dr].
    - exfalso. rewrite Hd in Hsp. destruct zc; cbn in Hsp; [discriminate|].
      inversion Hsp; subst. discriminate Hc.
    - rewrite Hd in Hsp. cbn [append] in Hsp. inversion Hsp; subst. now exists dr. }
  destruct Hdg as [dr ->].
  assert (Hcd : JSON.isDigit c = true).
  { rewrite Hd in Hall. cbn [JSON.allDigits] in Hall.
    now apply andb_true_iff in Hall as [? _]. }
  assert (Hdr : JSON.allDigits dr = true).
  { rewrite Hsp in Hall. cbn [append JSON.allDigits] in Hall.
    apply andb_true_iff in Hall as [_ Hall].
    rewrite allDigits_app in Hall. now apply andb_true_iff in Hall as [? _]. }
  (* the value of the digits kept *)
  assert (Hm : (JSON.digitsValue (String c dr) 0 * 10 ^ N.of_nat zc = s)%N).
  { transitivity (JSON.digitsValue (JSON.decimal s) 0); [|exact Hval].
    rewrite Hsp, digitsValue_app, digitsValue_zeros. reflexivity. }
  set (k := Z.of_nat (String.length (String c dr))).
  set (n := (k + j + Z.of_nat zc)%Z).
  assert (Hk : (1 <= k)%Z) by (unfold k; cbn [String.length]; lia).
  assert (Hkn : (k <=? n)%Z = true) by (apply Z.leb_le; unfold n; lia).
  rewrite Hkn. cbn [andb].
  destruct (n <=? 21)%Z eqn:En.
  - (* plain digits *)
    cbn [append].
    rewrite (parseNumber_integer neg c (dr ++ JSON.zeros (Z.to_nat (n - k))) rest Hcd).
    + do 3 f_equal. apply fromDecimal_int; [lia | exact Hj |].
      rewrite Z.pow_0_r, Z.mul_1_r.
      change (String c (dr ++ JSON.zeros (Z.to_nat (n - k))))
        with (String c dr ++ JSON.zeros (Z.to_nat (n - k))).
      rewrite digitsValue_app, digitsValue_zeros.
      replace (Z.to_nat (n - k)) with (zc + Z.to_nat j)%nat by (unfold n; lia).
      rewrite Nat2N.inj_add, N.pow_add_r, N.mul_assoc, Hm.
      rewrite N2Z.inj_mul, N2Z.inj_pow. f_equal. f_equal. lia.
    + rewrite allDigits_app, Hdr. apply allDigits_zeros.
    + now rewrite Hc.
  - (* exponent notation *)
    apply Z.leb_gt in En.
    replace ((0 <? n)%Z && false) with false by now rewrite andb_false_r.
    replace ((-6 <? n)%Z && (n <=? 0)%Z) with false
      by (symmetry; apply andb_false_iff; right; apply Z.leb_gt; lia).
    replace (n - 1 <? 0)%Z with false by (symmetry; apply Z.ltb_ge; lia).
    destruct (decimal_shape (Z.abs_N (n - 1))) as [Hexall Hexsh].
    assert (Hexne : JSON.decimal (Z.abs_N (n - 1)) <> EmptyString).
    { destruct Hexsh as [[_ ->]|(_ & ? & ? & -> & _)]; discriminate. }
    pose proof (parseNumber_exponent neg c dr _ rest Hcd Hdr Hexall Hexne) as Hp.
    rewrite digitsValue_decimal in Hp.
    rewrite Hp. do 3 f_equal. apply fromDecimal_int; [|exact Hj|].
    + unfold n, k. cbn [String.length]. lia.
    + replace (Z.of_N (Z.abs_N (n - 1)) - Z.of_nat (String.length dr))%Z
        with (Z.of_nat zc + j)%Z
        by (rewrite N2Z.inj_abs_N; unfold n, k; cbn [String.length]; lia).
      rewrite Z.pow_add_r by lia. rewrite <- Hm.
      rewrite N2Z.inj_mul, N2Z.inj_pow. rewrite nat_N_Z. cbn [Z.of_N]. lia.
Qed.

(** A text that [parseNumber] accepts is a value. *)
Lemma parseValue_number (f : nat) (s : string) (x : json * string) :
  JSON.parseNumber s = Some x -> JSON.parseValue (S f) s = Some x.
Proof.
  destruct s as [|c r]; [discriminate|].
  destruct c as [[] [] [] [] [] [] [] []]; intros H;
    try (exact H); try (revert H; cbn; discriminate).
Qed.

Lemma fromDecimal_zero (neg : bool) (j : Z) :
  (0 <= j)%Z -> Number.fromDecimal neg 0 j = Number.Finite neg 0 0.
Proof.
  intros Hj. unfold Number.fromDecimal.
  replace (0 <=? j)%Z with true by (symmetry; apply Z.leb_le; exact Hj).
  reflexivity.
Qed.

(** What [parseInt] returns: NaN, or an integer rounded to a Number. *)
Lemma parseInt_cases (s : string) (radix : option N) :
  JS.parseInt s radix = Number.NaN
  \/ exists neg n, JS.parseInt s radix = Number.round neg (Z.of_N n) 1.
Proof.
  unfold JS.parseInt.
  destruct (match JS.trimStart s with
            | String "-" r => (true, r)
            | String "+" r => (false, r)
            | _ => (false, JS.trimStart s)
            end) as [neg s2].
  match goal with
  | |- context [if ?b then _ else Number.NaN] => destruct b; [|now left]
  end.
  match goal with
  | |- context [let '(R, s3) := ?c in _] => destruct c as [R s3]
  end.
  destruct (JS.readDigits R s3 None) as [n|]; [right; eauto | now left].
Qed.

(** An integer Number that [JSON.stringify] wrote is read back by
    [JSON.parse] as [reread] says. *)
Lemma parseValue_printed_int (f : nat) (neg : bool) (n : N) (t : string) :
  JSON.parseValue (S f)
    (JSON.serialize EmptyString EmptyString (JNum (Number.round neg (Z.of_N n) 1))
     ++ String "," t)
  = Some (reread (Number.round neg (Z.of_N n) 1), String "," t).
Proof.
  destruct n as [|p].
  - reflexivity.
  - assert (Hp : (0 < Z.of_N (N.pos p))%Z) by reflexivity.
    rewrite (round_sign neg).
    destruct (round_int false _ Hp) as [-> | (v & Hv & -> & Hr)]; [reflexivity|].
    destruct (normalize_int false v Hv) as (m & e & Hn & Hm & He & Hval).
    rewrite Hn. cbn [withSign JSON.serialize reread JSON.numberToString].
    apply N.eqb_neq in Hm. rewrite Hm.
    destruct (shortest_int v m e Hv Hr Hn) as [Hs Hj].
    destruct (JSON.shortest m e) as [s j]. cbn [fst snd] in Hs, Hj.
    apply parseValue_number. rewrite append_assoc.
    rewrite parseNumber_decimalToString; [|  | exact Hj].
    + now rewrite fromDecimal_sign, Hs.
    + intros ->. rewrite (fromDecimal_zero false j Hj) in Hs.
      inversion Hs as [Hz]. rewrite <- Hz in Hm. discriminate Hm.
Qed.

Lemma parseValue_printed_parseInt (f : nat) (s : string) (radix : option N) (t : string) :
  JSON.parseValue (S f)
    (JSON.serialize EmptyString EmptyString (JNum (JS.parseInt s radix)) ++ String "," t)
  = Some (reread (JS.parseInt s radix), String "," t).
Proof.
  destruct (parseInt_cases s radix) as [-> | (neg & n & ->)]; [reflexivity|].
  apply parseValue_printed_int.
Qed.

Lemma header_text (v : json) (k : string) :
  JSON.stringify (JObj [("fid", v); ("type", JStr "custody"); ("key", JStr k)])
  = String "{" (JSON.quote "fid" ++ String ":"
      (JSON.serialize EmptyString EmptyString v ++ String ","
         (JSON.quote "type" ++ String ":" (JSON.quote "custody" ++ String ","
            (JSON.quote "key" ++ String ":" (JSON.quote k ++ "}")))))).
Proof.
  unfold JSON.stringify.
  cbn [JSON.serialize map fst snd String.eqb Ascii.eqb Bool.eqb JSON.joinWith].
  cbn [append]. rewrite !append_assoc. cbn [append]. rewrite !append_assoc.
  reflexivity.
Qed.

Lemma parseValue_object (f : nat) (r : string) :
  JSON.parseValue (S f) (String "{" (String JSON.dquote r))
  = JSON.parseMembers f (String JSON.dquote r) [].
Proof. reflexivity. Qed.

(** One member followed by a comma. *)
Lemma parseMembers_comma (f : nat) (key vt : string) (v : json) (r4 : string)
      (acc : list (string * json)) :
  JSON.parseValue f vt = Some (v, String "," r4) ->
  JSON.parseMembers (S f)
    (String JSON.dquote (JSON.quoteBody key ++ String JSON.dquote (String ":" vt))) acc
  = JSON.parseMembers f r4 (JSON.setField key v acc).
Proof.
  intros H. cbn. rewrite parseStringBody_dq. cbn. rewrite H. reflexivity.
Qed.

(** The last member, a string, and the closing brace. *)
Lemma parseMembers_last_string (f : nat) (key s : string)
      (acc : list (string * json)) :
  JSON.parseMembers (S (S f))
    (String JSON.dquote (JSON.quoteBody key ++ String JSON.dquote
       (String ":" (String JSON.dquote (JSON.quoteBody s ++ String JSON.dquote "}"))))) acc
  = Some (JObj (JSON.setField key (JStr s) acc), EmptyString).
Proof.
  cbn. rewrite parseStringBody_dq. cbn. rewrite parseStringBody_dq. reflexivity.
Qed.

Lemma parseValue_string (f : nat) (s rest : string) :
  JSON.parseValue (S f) (String JSON.dquote (JSON.quoteBody s ++ String JSON.dquote rest))
  = Some (JStr s, rest).
Proof. cbn. rewrite parseStringBody_dq. reflexivity. Qed.

(** The header object, written and read back. *)
Lemma parse_header (fid k : string) :
  JSON.parse (JSON.stringify (JObj [("fid", JNum (JS.parseInt fid None));
                                    ("type", JStr "custody"); ("key", JStr k)]))
  = Some (JObj [("fid", reread (JS.parseInt fid None));
                ("type", JStr "custody"); ("key", JStr k)]).
Proof.
  rewrite header_text. unfold JSON.parse. rewrite !quote_app.
  match goal with
  | |- context [JSON.parseValue (2 * String.length ?t + 2) _] =>
      destruct (parse_fuel t 6) as [f ->]; [cbn [String.length]; lia|]
  end.
  cbn [Nat.add]. rewrite parseValue_object.
  set (tail := JSON.quoteBody "type" ++ _).
  rewrite (parseMembers_comma _ "fid" _ (reread (JS.parseInt fid None)) _ []
             (parseValue_printed_parseInt _ fid None (String JSON.dquote tail))).
  unfold tail.
  rewrite (parseMembers_comma _ "type" _ (JStr "custody")
             (String JSON.dquote (JSON.quoteBody "key" ++ String JSON.dquote
                (String ":" (String JSON.dquote (JSON.quoteBody k ++ String JSON.dquote "}")))))
             _ (parseValue_string _ _ _)).
  rewrite parseMembers_last_string. reflexivity.
Qed.

(** ** Generator and verifier agree on the encoded objects *)

Lemma decode_json (obj : json) :
  JS.decodeUtf8 (Base64.decode (encodeBase64Json obj)) = JSON.stringify obj.
Proof. unfold encodeBase64Json. now rewrite decode_encode, utf8_roundtrip. Qed.

Lemma decodeBase64_createPayload (d : string) :
  Verify.decodeBase64 (Generate.createPayload d) = JObj [("domain", JStr d)].
Proof.
  unfold Verify.decodeBase64, Generate.createPayload.
  now rewrite decode_json, parse_payload.
Qed.

Lemma parse_createHeader (fid : string) (pk : bytes) :
  JSON.parse (JS.decodeUtf8 (Base64.decode (Generate.createHeader fid pk)))
  = Some (JObj [("fid", reread (JS.parseInt fid None)); ("type", JStr "custody");
                ("key", JStr ("0x" ++ bytesToHex pk))]).
Proof. unfold Generate.createHeader. rewrite decode_json. apply parse_header. Qed.

(** What a successful [generateAccountAssociation] did. *)
Lemma generate_ok (E : Ed25519) (w w' : World) (a : Association) :
  Generate.generateAccountAssociation E w = (Ok a, w') ->
  exists k pub sig,
    privateKey (config w) = Some k
    /\ getPublicKey E (hexToBytes k) = Some pub
    /\ header a = Generate.createHeader (the (fid (config w))) pub
    /\ payload a = Generate.createPayload (the (domain (config w)))
    /\ sign E (JS.encodeUtf8 (composeMessage (header a) (payload a))) (hexToBytes k)
       = Some sig
    /\ Base64.decode (signature a) = sig
    /\ w' = mkWorld (config w) (manifestFile w) (writable w)
              (trace w ++ [EvGetPublicKey (hexToBytes k);
                           EvSign (JS.encodeUtf8 (composeMessage (header a) (payload a)))
                                  (hexToBytes k)])%list.
Proof.
  cbv [Generate.generateAccountAssociation Generate.signMessage tryCatch
    bind getConfig Generate.hexToBytes callLib emit ret throw].
  destruct (privateKey (config w)) as [k|]; cbn [option_map]; [|discriminate].
  destruct (getPublicKey E (hexToBytes k)) as [pk|] eqn:Hp; [|discriminate].
  cbn [config manifestFile writable trace].
  destruct (sign E _ (hexToBytes k)) as [sig|] eqn:Hs; [|discriminate].
  intros H. inversion H; subst; clear H. cbn [header payload signature].
  exists k, pk, sig. repeat split; try assumption.
  - apply signature_pipeline.
  - rewrite <- List.app_assoc. reflexivity.
Qed.

(** The self-check on a header the generator wrote: the key is found and
    [ed25519.verify] is called. *)
Lemma verifySignature_created (E : Ed25519) (fid : string) (pub : bytes)
      (p s : string) (w : World) :
  let a := mkAssociation (Generate.createHeader fid pub) p s in
  let msg := JS.encodeUtf8 (composeMessage (header a) p) in
  Generate.verifySignature E a w
  = (Ok (match verify E (Base64.decode s) msg pub with Some b => b | None => false end),
     mkWorld (config w) (manifestFile w) (writable w)
             (trace w ++ [EvVerify (Base64.decode s) msg pub])%list).
Proof.
  intros a msg. subst a msg. cbn [header payload signature].
  pose proof (parse_createHeader fid pub) as Hp.
  cbv [Generate.verifySignature tryCatch bind JSON_parse Generate.readKey
    Generate.hexToBytes callLib emit ret throw].
  cbn [header payload signature]. rewrite Hp.
  cbn [JSON.getProp JSON.lookup String.eqb Ascii.eqb Bool.eqb].
  rewrite hexToBytes_0x_bytesToHex.
  destruct (verify E _ _ pub); reflexivity.
Qed.

Lemma fidCheck_createHeader (fid : string) (pk : bytes) :
  Verify.fidCheck (Verify.decodeBase64 (Generate.createHeader fid pk))
  = expectedFidFlag fid.
Proof.
  unfold Verify.decodeBase64. rewrite parse_createHeader.
  unfold Verify.fidCheck, expectedFidFlag, reread.
  cbn [JSON.getProp JSON.lookup String.eqb Ascii.eqb Bool.eqb].
  destruct (JS.parseInt fid None) as [|neg|neg m e]; try reflexivity.
  destruct (m =? 0)%N eqn:Em; cbn [JSON.truthy Number.truthy Number.positive];
    rewrite ?Em; cbn [negb]; [reflexivity|].
  now rewrite andb_true_r.
Qed.

Lemma domainCheck_createPayload (d : string) :
  Verify.domainCheck (Verify.decodeBase64 (Generate.createPayload d))
  = Some (expectedDomainFlag d).
Proof.
  rewrite decodeBase64_createPayload.
  unfold Verify.domainCheck, expectedDomainFlag, protocolPrefixed.
  cbn [JSON.getProp JSON.lookup String.eqb Ascii.eqb Bool.eqb JSON.truthy].
  destruct (String.eqb_spec d EmptyString) as [->|_]; cbn [negb]; [reflexivity|].
  now rewrite negb_orb.
Qed.

Lemma key_createHeader (fid : string) (pk : bytes) :
  Verify.hexToBytes (JSON.getProp (Verify.decodeBase64 (Generate.createHeader fid pk)) "key")
  = Some pk
  /\ JSON.getProp (Verify.decodeBase64 (Generate.createHeader fid pk)) "type"
     = Some (JStr "custody")
  /\ JSON.truthy (Some (Verify.decodeBase64 (Generate.createHeader fid pk))) = true.
Proof.
  unfold Verify.decodeBase64. rewrite parse_createHeader.
  cbn [JSON.getProp JSON.lookup String.eqb Ascii.eqb Bool.eqb Verify.hexToBytes].
  rewrite hexToBytes_0x_bytesToHex. repeat split.
Qed.

Lemma verifier_created (E : Ed25519) (fid d : string) (pub : bytes) (s : string) :
  let a := mkAssociation (Generate.createHeader fid pub) (Generate.createPayload d) s in
  Verify.verifyAccountAssociation E a
  = Verify.Returned
      (Verify.mkReport true true (expectedDomainFlag d) (expectedFidFlag fid)
         (signatureVerdict E a pub)
         (if signatureVerdict E a pub then "real/ed25519" else "invalid")
         true
         (if signatureVerdict E a pub
          then "Real Ed25519 signature verified successfully"
          else "Signature verification failed")).
Proof.
  intros a. subst a. unfold Verify.verifyAccountAssociation, signatureVerdict.
  cbn [header payload signature].
  destruct (key_createHeader fid pub) as (K & _ & T).
  rewrite T, K, domainCheck_createPayload, fidCheck_createHeader.
  rewrite decodeBase64_createPayload. reflexivity.
Qed.

(** ** Runs of [main] *)

(** Whatever [generateAccountAssociation] ends in, it only calls into the
    Ed25519 package: the configuration and the file are as before, and it
    never leaves the process. *)
Lemma generate_frame (E : Ed25519) (w w' : World) (r : result Association) :
  Generate.generateAccountAssociation E w = (r, w') ->
  config w' = config w /\ manifestFile w' = manifestFile w /\ writable w' = writable w
  /\ (exists t, trace w' = (trace w ++ t)%list /\ forallb isCryptoEvent t = true)
  /\ (forall n, r <> Exit n).
Proof.
  cbv [Generate.generateAccountAssociation Generate.signMessage tryCatch
    bind getConfig Generate.hexToBytes callLib emit ret throw].
  destruct (privateKey (config w)) as [k|]; cbn [option_map].
  2:{ intros H; inversion H; subst. repeat split; try discriminate.
      exists []. now rewrite List.app_nil_r. }
  destruct (getPublicKey E (hexToBytes k)) as [pk|].
  2:{ intros H; inversion H; subst. repeat split; try discriminate.
      eexists. split; reflexivity. }
  cbn [config manifestFile writable trace].
  destruct (sign E _ (hexToBytes k)) as [sig|];
    intros H; inversion H; subst; repeat split; try discriminate;
    eexists; (split; [rewrite <- List.app_assoc; reflexivity | reflexivity]).
Qed.

Lemma association_eta (a : Association) :
  a = mkAssociation (header a) (payload a) (signature a).
Proof. now destruct a. Qed.

(** The stages of [main] after a successful generation. *)
Lemma main_after_generate (E : Ed25519) (w w2 : World) (a : Association) :
  rejectedConfig (config w) = false ->
  Generate.generateAccountAssociation E (validatedWorld w) = (Ok a, w2) ->
  exists pub w3 m,
    getPublicKey E (hexToBytes (the (privateKey (config w)))) = Some pub
    /\ w3 = mkWorld (config w2) (manifestFile w2) (writable w2)
              (trace w2 ++ [EvVerify (Base64.decode (signature a))
                              (JS.encodeUtf8 (composeMessage (header a) (payload a)))
                              pub])%list
    /\ Generate.loadOrCreateManifest w3 = (Ok m, w3)
    /\ Generate.main E w
       = match assignProp m "accountAssociation" (Some (associationObject a)) w3 with
         | (Ok m', _) =>
             match writable w3 with
             | Writable =>
                 (Ok tt, mkWorld (config w3) (Some (JSON.stringify2 m')) (writable w3)
                           (trace w3 ++ [EvWriteFile (JSON.stringify2 m')])%list)
             | Unopenable => (Exit 1%Z, w3)
             | FailsAfter n =>
                 (Exit 1%Z, mkWorld (config w3) (Some (substring 0 n (JSON.stringify2 m')))
                              (writable w3) (trace w3))
             end
         | _ => (Exit 1%Z, w3)
         end.
Proof.
  intros R G.
  destruct (generate_ok E _ _ _ G) as (k & pub & sig & Hk & Hpub & Hh & Hp & Hs & Hd & Hw2).
  cbn [validatedWorld config privateKey fid domain] in Hk, Hh.
  exists pub. eexists. 
  destruct (loadOrCreateManifest_total
              (mkWorld (config w2) (manifestFile w2) (writable w2)
                 (trace w2 ++ [EvVerify (Base64.decode (signature a))
                                 (JS.encodeUtf8 (composeMessage (header a) (payload a)))
                                 pub])%list)) as [m Hm].
  exists m. split; [now rewrite Hk|]. split; [reflexivity|]. split; [exact Hm|].
  unfold Generate.main, tryCatch. unfold bind at 1.
  rewrite validateConfig_cases, R. unfold bind at 1. rewrite G.
  unfold bind at 1.
  assert (Hv := verifySignature_created E (the (fid (config w))) pub (payload a) (signature a) w2).
  cbn zeta in Hv. cbn [header] in Hv. rewrite <- Hh in Hv. rewrite <- association_eta in Hv.
  rewrite Hv. unfold bind at 1. rewrite Hm.
  unfold bind at 1.
  destruct (assignProp m _ _ _) as [[m'|e|c] w4] eqn:A.
  - destruct (assignProp_frame _ _ _ _ _ _ A) as [-> _].
    cbv [Generate.saveManifest tryCatch writeFileSync throw exit].
    cbn [writable config trace manifestFile].
    destruct (writable w2); reflexivity.
  - revert A. unfold assignProp, ret, throw. destruct m; intros A; inversion A; reflexivity.
  - exfalso. revert A. unfold assignProp, ret, throw. destruct m; discriminate.
Qed.

(** [loadOrCreateManifest] in one equation: the parsed file when there is
    one, the default manifest otherwise. *)
Lemma loadOrCreateManifest_spec (w : World) :
  Generate.loadOrCreateManifest w
  = (Ok (match manifestOnDisk w with
         | Some m => m
         | None => Generate.defaultManifest (the (domain (config w)))
         end), w).
Proof.
  cbv [Generate.loadOrCreateManifest tryCatch bind readFileSync JSON_parse
    getConfig ret throw manifestOnDisk].
  destruct (manifestFile w) as [text|] eqn:F; [|reflexivity].
  destruct (String.eqb_spec text EmptyString) as [->|N]; cbn [negb]; [reflexivity|].
  rewrite F. destruct (JSON.parse text); reflexivity.
Qed.

(** The manifest [main] passes to [saveManifest]. *)
Lemma assign_merged (m : json) (a : Association) (w : World) :
  assignProp m "accountAssociation" (Some (associationObject a)) w
  = match m with
    | JObj _ | JArr _ => (Ok (mergedManifest m a), w)
    | _ => (Throw TypeError, w)
    end.
Proof. destruct m; reflexivity. Qed.

(** [main] in one equation, once the configuration is accepted and an
    association is generated. *)
Lemma main_generated (E : Ed25519) (w w2 : World) (a : Association) :
  rejectedConfig (config w) = false ->
  Generate.generateAccountAssociation E (validatedWorld w) = (Ok a, w2) ->
  exists pub,
    getPublicKey E (hexToBytes (the (privateKey (config w)))) = Some pub
    /\ let w3 := mkWorld (config w2) (manifestFile w) (writable w)
                   (trace w2 ++ [EvVerify (Base64.decode (signature a))
                                   (JS.encodeUtf8 (composeMessage (header a) (payload a)))
                                   pub])%list in
       let text := JSON.stringify2 (mergedManifest (loadedManifest w) a) in
       Generate.main E w
       = match loadedManifest w with
         | JObj _ | JArr _ =>
             match writable w with
             | Writable =>
                 (Ok tt, mkWorld (config w2) (Some text) Writable
                           (trace w3 ++ [EvWriteFile text])%list)
             | Unopenable => (Exit 1%Z, w3)
             | FailsAfter n =>
                 (Exit 1%Z, mkWorld (config w2) (Some (substring 0 n text))
                              (FailsAfter n) (trace w3))
             end
         | _ => (Exit 1%Z, w3)
         end.
Proof.
  intros R G.
  destruct (main_after_generate E w w2 a R G) as (pub & w3 & m & Hpub & -> & Hm & Hmain).
  exists pub. split; [exact Hpub|]. cbv zeta.
  destruct (generate_frame E _ _ _ G) as (C2 & F2 & W2 & _).
  cbn [validatedWorld manifestFile writable config] in F2, W2, C2.
  rewrite loadOrCreateManifest_spec in Hm. inversion Hm as [Hm']. clear Hm.
  assert (Hl : m = loadedManifest w).
  { rewrite <- Hm'. unfold loadedManifest, manifestOnDisk.
    cbn [manifestFile config]. rewrite F2, C2. reflexivity. }
  rewrite Hmain, assign_merged. cbn [writable config trace manifestFile].
  rewrite <- Hl, F2, W2.
  destruct m; try reflexivity; destruct (writable w); reflexivity.
Qed.

Lemma main_not_generated (E : Ed25519) (w w2 : World) (e : jsError) :
  rejectedConfig (config w) = false ->
  Generate.generateAccountAssociation E (validatedWorld w) = (Throw e, w2) ->
  Generate.main E w = (Exit 1%Z, w2).
Proof.
  intros R G. unfold Generate.main, tryCatch. unfold bind at 1.
  rewrite validateConfig_cases, R. unfold bind at 1. now rewrite G.
Qed.

Lemma main_rejected (E : Ed25519) (w : World) :
  rejectedConfig (config w) = true -> Generate.main E w = (Exit 1%Z, w).
Proof.
  intros R. unfold Generate.main, tryCatch, bind.
  rewrite validateConfig_cases, R. reflexivity.
Qed.

(** How [main] can end.  It never ends in an exception.  When it exits
    with code 1, only calls into the Ed25519 package were made, and the
    file is as it was, unless the write itself failed after the file had
    been opened: then the file holds the part of the new text that was
    written. *)
Lemma main_outcome (E : Ed25519) (w : World) :
  fst (Generate.main E w) = Ok tt
  \/ (fst (Generate.main E w) = Exit 1%Z
      /\ (exists t, trace (snd (Generate.main E w)) = (trace w ++ t)%list
                    /\ forallb isCryptoEvent t = true)
      /\ (manifestFile (snd (Generate.main E w)) = manifestFile w
          \/ exists n a,
               writable w = FailsAfter n
               /\ fst (Generate.generateAccountAssociation E (validatedWorld w)) = Ok a
               /\ manifestFile (snd (Generate.main E w))
                  = Some (substring 0 n
                            (JSON.stringify2 (mergedManifest (loadedManifest w) a))))).
Proof.
  destruct (rejectedConfig (config w)) eqn:R.
  - right. rewrite (main_rejected E w R). cbn [fst snd].
    split; [reflexivity|]. split; [|now left].
    exists []. now rewrite List.app_nil_r.
  - destruct (Generate.generateAccountAssociation E (validatedWorld w))
      as [[a|e|c] w2] eqn:G.
    + destruct (generate_frame E _ _ _ G) as (_ & F2 & _ & (t & T2 & C2) & _).
      cbn [validatedWorld manifestFile trace] in F2, T2.
      destruct (main_generated E w w2 a R G) as (pub & _ & Hmain). cbv zeta in Hmain.
      rewrite Hmain. clear Hmain.
      assert (Ht : exists t', (trace w2 ++ [EvVerify (Base64.decode (signature a))
                                 (JS.encodeUtf8 (composeMessage (header a) (payload a))) pub])%list
                              = (trace w ++ t')%list /\ forallb isCryptoEvent t' = true).
      { exists (t ++ [EvVerify (Base64.decode (signature a))
                        (JS.encodeUtf8 (composeMessage (header a) (payload a))) pub])%list.
        split; [rewrite T2; now rewrite List.app_assoc | rewrite forallb_app, C2; reflexivity]. }
      destruct (loadedManifest w);
        try (right; cbn [fst snd manifestFile trace];
             split; [reflexivity|]; split; [exact Ht | now left]);
        (destruct (writable w) eqn:W; [left; reflexivity | |]);
        right; cbn [fst snd manifestFile trace];
        (split; [reflexivity|]); (split; [exact Ht|]);
        try (now left); right; eexists; exists a; repeat split.
    + destruct (generate_frame E _ _ _ G) as (_ & F2 & _ & (t & T2 & C2) & _).
      rewrite (main_not_generated E w w2 e R G). right. cbn [fst snd].
      split; [reflexivity|]. split; [|left; exact F2].
      exists t. now split.
    + destruct (generate_frame E _ _ _ G) as (_ & _ & _ & _ & N). now destruct (N c).
Qed.

Lemma main_success (E : Ed25519) (w w' : World) :
  Generate.main E w = (Ok tt, w') ->
  exists a w2 pub,
    rejectedConfig (config w) = false
    /\ Generate.generateAccountAssociation E (validatedWorld w) = (Ok a, w2)
    /\ getPublicKey E (hexToBytes (the (privateKey (config w)))) = Some pub
    /\ ((exists f, loadedManifest w = JObj f) \/ (exists items, loadedManifest w = JArr items))
    /\ w' = mkWorld (config w2) (Some (JSON.stringify2 (mergedManifest (loadedManifest w) a)))
              Writable
              (trace w2 ++ [EvVerify (Base64.decode (signature a))
                              (JS.encodeUtf8 (composeMessage (header a) (payload a))) pub;
                            EvWriteFile (JSON.stringify2 (mergedManifest (loadedManifest w) a))])%list.
Proof.
  intros H.
  destruct (rejectedConfig (config w)) eqn:R;
    [rewrite (main_rejected E w R) in H; discriminate|].
  destruct (Generate.generateAccountAssociation E (validatedWorld w))
    as [[a|e|c] w2] eqn:G.
  - destruct (main_generated E w w2 a R G) as (pub & Hpub & Hmain). cbv zeta in Hmain.
    exists a, w2, pub. split; [reflexivity|]. split; [reflexivity|]. split; [exact Hpub|].
    rewrite Hmain in H. clear Hmain. revert H.
    destruct (loadedManifest w) as [| b | x | s | items | f]; try discriminate;
      (destruct (writable w); try discriminate); intros H; inversion H;
      (split; [eauto|]); rewrite <- List.app_assoc; reflexivity.
  - rewrite (main_not_generated E w w2 e R G) in H. discriminate.
  - destruct (generate_frame E _ _ _ G) as (_ & _ & _ & _ & N). now destruct (N c).
Qed.

(** ** Valid hexadecimal input *)

Lemma isHexChar_cases (c : ascii) :
  Generate.isHexChar c = true ->
  In c ["0"; "1"; "2"; "3"; "4"; "5"; "6"; "7"; "8"; "9";
        "a"; "b"; "c"; "d"; "e"; "f"; "A"; "B"; "C"; "D"; "E"; "F"]%char.
Proof.
  destruct c as [[] [] [] [] [] [] [] []]; intros H; try discriminate H;
    cbn [In]; tauto.
Qed.

Lemma hexPair_roundtrip (a b : ascii) :
  Generate.isHexChar a = true -> Generate.isHexChar b = true ->
  bytesToHex [JS.ToUint8 (JS.parseInt (String a (String b EmptyString)) (Some 16%N))]
  = String (toLowerChar a) (String (toLowerChar b) EmptyString).
Proof.
  intros Ha Hb. apply isHexChar_cases in Ha, Hb.
  repeat (destruct Ha as [<-|Ha]; [repeat (destruct Hb as [<-|Hb]; [vm_compute; reflexivity|]); destruct Hb|]).
  destruct Ha.
Qed.

Lemma bytesToHex_pairBytes (s : string) :
  Generate.allHex s = true -> Nat.even (String.length s) = true ->
  bytesToHex (pairBytes s) = toLowerCase s.
Proof.
  assert (H : forall n s, String.length s <= n -> Generate.allHex s = true ->
                          Nat.even (String.length s) = true ->
                          bytesToHex (pairBytes s) = toLowerCase s).
  { clear s. induction n as [|n IH]; intros s Hn Hh He.
    - destruct s; [reflexivity | simpl in Hn; lia].
    - destruct s as [|a [|b r]]; [reflexivity | discriminate He |].
      cbn [Generate.allHex] in Hh.
      apply andb_true_iff in Hh as [Ha Hh]. apply andb_true_iff in Hh as [Hb Hh].
      cbn [pairBytes toLowerCase].
      pose proof (hexPair_roundtrip a b Ha Hb) as P.
      rewrite bytesToHex_cons in P. inversion P as [[P1 P2]].
      rewrite bytesToHex_cons, P1, P2, IH; [reflexivity | simpl in Hn; lia | exact Hh |].
      exact He. }
  exact (H _ s (le_n _)).
Qed.

Lemma allHex_no_prefix (s : string) :
  Generate.allHex s = true -> JS.replace_0x s = s.
Proof.
  unfold JS.replace_0x. destruct s as [|a [|b r]]; try reflexivity.
  { intros _. cbn [JS.startsWith]. now rewrite andb_false_r. }
  cbn [Generate.allHex JS.startsWith]. intros H.
  apply andb_true_iff in H as [_ H]. apply andb_true_iff in H as [Hb _].
  destruct (Ascii.eqb "x" b) eqn:E; [|now rewrite andb_false_r].
  apply Ascii.eqb_eq in E. subst b. discriminate Hb.
Qed.

Lemma encodeUtf8_length (s : string) :
  List.length (JS.encodeUtf8 s) = String.length s.
Proof.
  unfold JS.encodeUtf8, list_byte_of_string. rewrite List.length_map.
  induction s as [|c s IH]; cbn; [reflexivity | now rewrite IH].
Qed.

Lemma substr0_length (s : string) (n : nat) :
  n <= String.length s -> String.length (JS.substr s 0 n) = n.
Proof.
  unfold JS.substr. revert n. induction s as [|c s IH]; intros n Hn.
  - cbn in Hn. assert (n = 0) as -> by lia. reflexivity.
  - destruct n as [|n]; [reflexivity|]. cbn [substring String.length].
    rewrite IH; [reflexivity | cbn in Hn; lia].
Qed.

Lemma replace_0x_prefixed (t : string) : JS.replace_0x ("0x" ++ t) = t.
Proof. reflexivity. Qed.

Lemma placeholder_generate (sha256hex : string -> string) (w w' : World)
      (a : Association) :
  PlaceholderScript.generateAccountAssociation sha256hex w = (Ok a, w') ->
  exists k,
    privateKey (config w) = Some k /\ w' = w
    /\ header a = PlaceholderScript.createHeader (PlaceholderScript.toString (fid (config w)))
                    ("0x" ++ JS.substr (sha256hex k) 0 40)
    /\ payload a = PlaceholderScript.createPayload (domain (config w))
    /\ signature a = PlaceholderScript.createSignature sha256hex (header a) (payload a) (Some k).
Proof.
  cbv [PlaceholderScript.generateAccountAssociation bind getConfig
    PlaceholderScript.deriveCustodyAddress ret throw].
  destruct (privateKey (config w)) as [k|]; [|discriminate].
  intros H. inversion H; subst. exists k. repeat split.
Qed.

Lemma placeholder_header_key (fid key : string) :
  JSON.getProp (Verify.decodeBase64 (PlaceholderScript.createHeader fid key)) "key"
  = Some (JStr key)
  /\ JSON.truthy (Some (Verify.decodeBase64 (PlaceholderScript.createHeader fid key))) = true.
Proof.
  unfold Verify.decodeBase64, PlaceholderScript.createHeader.
  rewrite decode_json, parse_header. split; reflexivity.
Qed.

Lemma placeholder_not_ed25519 (sha256hex : string -> string) (w w' : World)
        (a : Association) :
  (forall s, String.length (sha256hex s) = 64) ->
  PlaceholderScript.generateAccountAssociation sha256hex w = (Ok a, w') ->
  List.length (Base64.decode (signature a)) = 98
  /\ exists publicKeyBytes,
       Verify.hexToBytes (JSON.getProp (Verify.decodeBase64 (header a)) "key")
       = Some publicKeyBytes
       /\ List.length publicKeyBytes = 20.
Proof.
  intros Hlen G.
  destruct (placeholder_generate _ _ _ _ G) as (k & _ & _ & Hh & _ & Hs).
  split.
  - rewrite Hs. unfold PlaceholderScript.createSignature.
    rewrite decode_encode, encodeUtf8_length.
    cbn [append String.length]. rewrite length_append, substr0_length, Hlen;
      [reflexivity | rewrite Hlen; lia].
  - rewrite Hh. destruct (placeholder_header_key
                            (PlaceholderScript.toString (fid (config w)))
                            ("0x" ++ JS.substr (sha256hex k) 0 40)) as [-> _].
    eexists. split; [reflexivity|].
    rewrite hexToBytes_pairs, replace_0x_prefixed, pairBytes_length.
    rewrite substr0_length by (rewrite Hlen; lia). reflexivity.
Qed.

Lemma placeholder_validate (w : World) :
  PlaceholderScript.validateConfig w
  = if missingVar (fid (config w)) || missingVar (privateKey (config w))
       || missingVar (domain (config w))
    then (Exit 1%Z, w) else (Ok tt, w).
Proof.
  cbv [PlaceholderScript.validateConfig bind getConfig exit ret].
  destruct (missingVar (fid (config w))), (missingVar (privateKey (config w))),
    (missingVar (domain (config w))); reflexivity.
Qed.

(** [updateManifest] wrote the file, or left the process with everything
    as it was, or left it after a write that failed on the opened file. *)
Ltac finish_write :=
  cbv [bind writeFileSync ret exit];
  match goal with
  | |- context [writable ?w] =>
      destruct (writable w); intros <-;
      [left; eexists; repeat split; discriminate
      | right; left; reflexivity
      | right; right; eexists; eexists; repeat split; discriminate]
  end.

Lemma updateManifest_outcomes (a : Association) (w : World) :
  (exists m', Placeholder.updateManifest a w
              = (Ok m', mkWorld (config w) (Some (JSON.stringify2 m')) Writable
                          (trace w ++ [EvWriteFile (JSON.stringify2 m')])%list)
              /\ writable w = Writable /\ manifestOnDisk w <> None)
  \/ Placeholder.updateManifest a w = (Exit 1%Z, w)
  \/ (exists n m',
        Placeholder.updateManifest a w
        = (Exit 1%Z, mkWorld (config w) (Some (substring 0 n (JSON.stringify2 m')))
                       (FailsAfter n) (trace w))
        /\ writable w = FailsAfter n /\ manifestOnDisk w <> None).
Proof.
  remember (Placeholder.updateManifest a w) as r eqn:U. symmetry in U. revert U.
  unfold Placeholder.updateManifest, manifestOnDisk, tryCatch, bind at 1, readFileSync.
  destruct (manifestFile w) as [text|]; [|intros <-; right; left; reflexivity].
  unfold bind at 1, JSON_parse.
  destruct (JSON.parse text) as [m|]; [|intros <-; right; left; reflexivity].
  cbn [ret]. unfold bind at 1.
  destruct (assignProp m _ _ w) as [[m1|e|c] w1] eqn:A1.
  2:{ intros <-. right. left. assert (w1 = w) as ->; [|reflexivity].
      revert A1. unfold assignProp, ret, throw. destruct m; intros A; now inversion A. }
  2:{ exfalso. revert A1. unfold assignProp, ret, throw. destruct m; discriminate. }
  destruct (assignProp_frame _ _ _ _ _ _ A1) as [-> _].
  unfold bind at 1.
  destruct (JSON.getProp m1 "miniapp") as [mini|].
  - destruct (JSON.truthy (Some mini)).
    + unfold bind at 1, getConfig. unfold bind at 1.
      destruct (assignProp mini _ _ w) as [[mini'|e|c] w2] eqn:A2.
      * destruct (assignProp_frame _ _ _ _ _ _ A2) as [-> _].
        destruct (assignProp m1 _ _ w) as [[m2|e|c] w3] eqn:A3.
        -- destruct (assignProp_frame _ _ _ _ _ _ A3) as [-> _]. finish_write.
        -- intros <-. right. left. assert (w3 = w) as ->; [|reflexivity].
           revert A3. unfold assignProp, ret, throw. destruct m1; intros A; now inversion A.
        -- exfalso. revert A3. unfold assignProp, ret, throw. destruct m1; discriminate.
      * intros <-. right. left. assert (w2 = w) as ->; [|reflexivity].
        revert A2. unfold assignProp, ret, throw.
        destruct mini, (option_map JStr (domain (config w))); intros A; now inversion A.
      * exfalso. revert A2. unfold assignProp, ret, throw.
        destruct mini, (option_map JStr (domain (config w))); discriminate.
    + finish_write.
  - finish_write.
Qed.

Lemma placeholder_main_outcomes_aux (sha256hex : string -> string) (w : World) :
  (exists m',
      PlaceholderScript.main sha256hex w
      = (Ok tt, mkWorld (config w) (Some (JSON.stringify2 m')) Writable
                  (trace w ++ [EvWriteFile (JSON.stringify2 m')])%list)
      /\ writable w = Writable /\ manifestOnDisk w <> None)
  \/ PlaceholderScript.main sha256hex w = (Exit 1%Z, w)
  \/ (exists n m',
        PlaceholderScript.main sha256hex w
        = (Exit 1%Z, mkWorld (config w) (Some (substring 0 n (JSON.stringify2 m')))
                       (FailsAfter n) (trace w))
        /\ writable w = FailsAfter n /\ manifestOnDisk w <> None).
Proof.
  remember (PlaceholderScript.main sha256hex w) as r eqn:U. symmetry in U. revert U.
  unfold PlaceholderScript.main. unfold bind at 1.
  rewrite placeholder_validate.
  destruct (missingVar (fid (config w)) || missingVar (privateKey (config w))
            || missingVar (domain (config w))) eqn:Mv; [intros <-; right; left; reflexivity|].
  apply orb_false_iff in Mv as [Mv _]. apply orb_false_iff in Mv as [_ Mk].
  destruct (privateKey (config w)) as [k|] eqn:K; [|discriminate Mk].
  cbv [PlaceholderScript.generateAccountAssociation PlaceholderScript.deriveCustodyAddress
    getConfig]. unfold bind at 1 2 3. rewrite K. cbn [ret]. unfold bind at 1.
  match goal with
  | |- context [Placeholder.updateManifest ?a w] =>
      destruct (updateManifest_outcomes a w)
        as [(m' & -> & Hw & Hd) | [-> | (n & m' & -> & Hw & Hd)]]
  end.
  - intros <-. left. exists m'. repeat split; assumption.
  - intros <-. right. left. reflexivity.
  - intros <-. right. right. exists n, m'. repeat split; assumption.
Qed.

(** ** The self-check and the merge, over whole runs *)





Lemma skipWs_app_ws (ws t : string) :
  allWs ws = true -> JSON.skipWs (ws ++ t) = JSON.skipWs t.
Proof.
  induction ws as [|c ws IH]; cbn [append allWs JSON.skipWs]; [reflexivity|].
  intros H. apply andb_true_iff in H as [Hc Hw]. rewrite Hc. now apply IH.
Qed.

Lemma allWs_app (a b : string) : allWs (a ++ b) = allWs a && allWs b.
Proof.
  induction a as [|c a IH]; cbn [append allWs]; [reflexivity|].
  now rewrite IH, andb_assoc.
Qed.

Lemma lookup_unseen (k : string) (acc : list (string * json)) :
  existsb (String.eqb k) (List.rev (map fst acc)) = false -> JSON.lookup k acc = None.
Proof.
  intros H. induction acc as [|[k' v'] acc IH]; [reflexivity|].
  cbn [map fst List.rev] in H. rewrite existsb_app in H.
  apply orb_false_iff in H as [H1 H2]. cbn [existsb] in H2.
  apply orb_false_iff in H2 as [H2 _].
  cbn [JSON.lookup]. rewrite H2. now apply IH.
Qed.

(** One member of an object. *)
Lemma parseMembers_step (fm : nat) (k vt : string) (acc : list (string * json)) :
  JSON.parseMembers (S fm)
    (String JSON.dquote (JSON.quoteBody k ++ String JSON.dquote (String ":" vt))) acc
  = match JSON.parseValue fm vt with
    | Some (v, r3) =>
        match JSON.skipWs r3 with
        | String "," r4 => JSON.parseMembers fm r4 (JSON.setField k v acc)
        | String "}" r4 => Some (JObj (JSON.setField k v acc), r4)
        | _ => None
        end
    | None => None
    end.
Proof. cbn. rewrite parseStringBody_dq. reflexivity. Qed.

Lemma parseValue_skip (f : nat) (ws t : string) :
  allWs ws = true -> JSON.parseValue f (ws ++ t) = JSON.parseValue f t.
Proof.
  intros H. destruct f as [|f]; [reflexivity|].
  cbn [JSON.parseValue]. now rewrite skipWs_app_ws.
Qed.

Lemma parseMembers_skip (f : nat) (ws t : string) (acc : list (string * json)) :
  allWs ws = true -> JSON.parseMembers f (ws ++ t) acc = JSON.parseMembers f t acc.
Proof.
  intros H. destruct f as [|f]; [reflexivity|].
  cbn [JSON.parseMembers]. now rewrite skipWs_app_ws.
Qed.

Section PlainRoundTrip.
Variable gap : string.
Hypothesis gap_ws : allWs gap = true.

Lemma lineBreak_ws (inner : string) :
  allWs inner = true -> allWs (lineBreak gap inner) = true.
Proof.
  intros H. unfold lineBreak. destruct (String.eqb gap EmptyString); [reflexivity|].
  rewrite allWs_app, H. reflexivity.
Qed.

Lemma colonPad_ws : allWs (colonPad gap) = true.
Proof. unfold colonPad. destruct (String.eqb gap EmptyString); reflexivity. Qed.

Lemma serialize_obj (indent : string) (fs : list (string * json)) :
  JSON.serialize gap indent (JObj fs)
  = match fs with
    | [] => "{}"
    | _ => "{" ++ lineBreak gap (indent ++ gap)
           ++ JSON.joinWith (separator gap (indent ++ gap)) (map (memberText gap (indent ++ gap)) fs)
           ++ lineBreak gap indent ++ "}"
    end.
Proof.
  cbn [JSON.serialize]. unfold separator, lineBreak, memberText, colonPad.
  destruct (String.eqb gap EmptyString); destruct fs; reflexivity.
Qed.

Lemma serialize_arr (indent : string) (items : list json) :
  JSON.serialize gap indent (JArr items)
  = match items with
    | [] => "[]"
    | _ => "[" ++ lineBreak gap (indent ++ gap)
           ++ JSON.joinWith (separator gap (indent ++ gap))
                (map (JSON.serialize gap (indent ++ gap)) items)
           ++ lineBreak gap indent ++ "]"
    end.
Proof.
  cbn [JSON.serialize]. unfold separator, lineBreak.
  destruct (String.eqb gap EmptyString); destruct items; reflexivity.
Qed.

(** The first character of a serialised plain value. *)
Lemma serialize_head (indent : string) (v : json) (t : string) :
  plain v = true ->
  exists c x, JSON.serialize gap indent v ++ t = String c x
              /\ In c ["n"; "t"; "f"; JSON.dquote; "{"; "["]%char.
Proof.
  destruct v as [| [] | | s | items | fs]; try discriminate; intros _.
  - exists "n"%char. eexists. split; [reflexivity | cbn; tauto].
  - exists "t"%char. eexists. split; [reflexivity | cbn; tauto].
  - exists "f"%char. eexists. split; [reflexivity | cbn; tauto].
  - exists JSON.dquote. eexists. split; [cbn [JSON.serialize]; apply quote_app | cbn; tauto].
  - exists "["%char. rewrite serialize_arr.
    destruct items; eexists; (split; [cbn [append]; reflexivity | cbn; tauto]).
  - exists "{"%char. rewrite serialize_obj.
    destruct fs; eexists; (split; [cbn [append]; reflexivity | cbn; tauto]).
Qed.

Lemma memberText_app (inner : string) (k : string) (v : json) (tail : string) :
  memberText gap inner (k, v) ++ tail
  = String JSON.dquote (JSON.quoteBody k ++ String JSON.dquote
      (String ":" (colonPad gap ++ (JSON.serialize gap inner v ++ tail)))).
Proof.
  unfold memberText. cbn [fst snd]. rewrite !append_assoc, quote_app.
  cbn [append]. reflexivity.
Qed.

Lemma memberText_length (inner : string) (k : string) (v : json) :
  String.length (JSON.serialize gap inner v) + 3 <= String.length (memberText gap inner (k, v)).
Proof.
  unfold memberText, JSON.quote. cbn [fst snd append String.length].
  rewrite !length_append. cbn [append String.length]. rewrite ?length_append.
  cbn [String.length]. lia.
Qed.

Lemma closing (indent rest : string) :
  allWs indent = true ->
  JSON.skipWs (lineBreak gap indent ++ String "}" rest) = String "}" rest.
Proof.
  intros H. rewrite skipWs_app_ws; [reflexivity|]. now apply lineBreak_ws.
Qed.

Lemma serialize_nonempty_pre (indent : string) (v : json) :
  plain v = true -> 1 <= String.length (JSON.serialize gap indent v).
Proof.
  intros Hp. destruct (serialize_head indent v EmptyString Hp) as (c & x & E & _).
  rewrite append_nil_r in E. rewrite E. cbn [String.length]. lia.
Qed.

Lemma closing_bracket (indent rest : string) :
  allWs indent = true ->
  JSON.skipWs (lineBreak gap indent ++ String "]" rest) = String "]" rest.
Proof.
  intros H. rewrite skipWs_app_ws; [reflexivity|]. now apply lineBreak_ws.
Qed.

(** One element of an array. *)
Lemma parseElements_step (fm : nat) (s : string) (acc : list json) :
  JSON.parseElements (S fm) s acc
  = match JSON.parseValue fm s with
    | Some (v, r1) =>
        match JSON.skipWs r1 with
        | String "," r2 => JSON.parseElements fm r2 (acc ++ [v])
        | String "]" r2 => Some (JArr (acc ++ [v]), r2)
        | _ => None
        end
    | None => None
    end.
Proof. reflexivity. Qed.

Section Members.
Variables (F : nat) (indent rest : string).
Hypothesis indent_ws : allWs indent = true.
Hypothesis values :
  forall f' v' indent' rest',
    f' < F -> plain v' = true -> allWs indent' = true ->
    String.length (JSON.serialize gap indent' v') <= f' ->
    JSON.parseValue f' (JSON.serialize gap indent' v' ++ rest') = Some (v', rest').

Lemma parseMembers_plain (fs : list (string * json)) :
  forall (acc : list (string * json)) (fm : nat),
    fs <> [] -> fm < F ->
    forallb (fun kv => plain (snd kv)) fs = true ->
    keysInOrder (List.rev (map fst acc)) (map fst fs) = true ->
    String.length (JSON.joinWith (separator gap (indent ++ gap))
                     (map (memberText gap (indent ++ gap)) fs)) <= fm ->
    JSON.parseMembers fm
      (JSON.joinWith (separator gap (indent ++ gap)) (map (memberText gap (indent ++ gap)) fs)
       ++ lineBreak gap indent ++ String "}" rest) acc
    = Some (JObj (acc ++ fs)%list, rest).
Proof.
  induction fs as [|[k v] fs IH]; intros acc fm Hne Hfm Hp Hk Hlen; [contradiction|].
  cbn [forallb snd] in Hp. apply andb_true_iff in Hp as [Hv Hp].
  cbn [map fst keysInOrder] in Hk.
  apply andb_true_iff in Hk as [Hk Hks]. apply andb_true_iff in Hk as [Hseen Hidx].
  apply negb_true_iff in Hseen.
  assert (Hset : JSON.setField k v acc = (acc ++ [(k, v)])%list).
  { unfold JSON.setField. rewrite (lookup_unseen _ _ Hseen).
    apply insertNew_named. now destruct (JSON.arrayIndex k). }
  assert (Hinner : allWs (indent ++ gap) = true) by now rewrite allWs_app, indent_ws, gap_ws.
  assert (Hbreak : allWs (lineBreak gap (indent ++ gap)) = true) by now apply lineBreak_ws.
  destruct fs as [|kv2 fs].
  - cbn [map JSON.joinWith] in Hlen |- *.
    pose proof (memberText_length (indent ++ gap) k v) as Hm.
    destruct fm as [|fm]; [lia|].
    rewrite memberText_app, parseMembers_step.
    rewrite (parseValue_skip fm (colonPad gap) _ colonPad_ws).
    rewrite values; [| lia | exact Hv | exact Hinner | lia].
    rewrite closing by exact indent_ws. now rewrite Hset.
  - change (map (memberText gap (indent ++ gap)) ((k, v) :: kv2 :: fs))
      with (memberText gap (indent ++ gap) (k, v)
            :: map (memberText gap (indent ++ gap)) (kv2 :: fs)) in *.
    remember (map (memberText gap (indent ++ gap)) (kv2 :: fs)) as parts eqn:Eparts.
    assert (Hparts : exists p ps, parts = p :: ps) by (rewrite Eparts; cbn [map]; eauto).
    destruct Hparts as (p & ps & Eps).
    assert (Hjoin : JSON.joinWith (separator gap (indent ++ gap))
                      (memberText gap (indent ++ gap) (k, v) :: parts)
                    = memberText gap (indent ++ gap) (k, v)
                      ++ separator gap (indent ++ gap)
                      ++ JSON.joinWith (separator gap (indent ++ gap)) parts)
      by (rewrite Eps; reflexivity).
    rewrite Hjoin in Hlen |- *. clear Hjoin Eps p ps.
    pose proof (memberText_length (indent ++ gap) k v) as Hm.
    rewrite !length_append in Hlen.
    destruct fm as [|fm]; [lia|].
    rewrite !append_assoc. rewrite memberText_app, parseMembers_step.
    rewrite (parseValue_skip fm (colonPad gap) _ colonPad_ws).
    rewrite values; [| lia | exact Hv | exact Hinner | lia].
    unfold separator at 1.
    change (("," ++ lineBreak gap (indent ++ gap)) ++ ?t)
      with (String "," (lineBreak gap (indent ++ gap) ++ t)).
    change (JSON.skipWs (String "," ?x)) with (String "," x).
    lazy beta iota.
    rewrite parseMembers_skip by exact Hbreak.
    rewrite Hset. subst parts.
    rewrite IH; [now rewrite <- List.app_assoc | discriminate | lia | exact Hp | | lia].
    rewrite List.map_app, List.rev_app_distr. exact Hks.
Qed.

Lemma parseElements_plain (items : list json) :
  forall (acc : list json) (fm : nat),
    items <> [] -> fm < F ->
    forallb plain items = true ->
    String.length (JSON.joinWith (separator gap (indent ++ gap))
                     (map (JSON.serialize gap (indent ++ gap)) items)) < fm ->
    JSON.parseElements fm
      (JSON.joinWith (separator gap (indent ++ gap))
         (map (JSON.serialize gap (indent ++ gap)) items)
       ++ lineBreak gap indent ++ String "]" rest) acc
    = Some (JArr (acc ++ items)%list, rest).
Proof.
  induction items as [|v items IH]; intros acc fm Hne Hfm Hp Hlen; [contradiction|].
  cbn [forallb] in Hp. apply andb_true_iff in Hp as [Hv Hp].
  assert (Hinner : allWs (indent ++ gap) = true) by now rewrite allWs_app, indent_ws, gap_ws.
  assert (Hbreak : allWs (lineBreak gap (indent ++ gap)) = true) by now apply lineBreak_ws.
  pose proof (serialize_nonempty_pre (indent ++ gap) v Hv) as Hv1.
  destruct items as [|v2 items].
  - cbn [map JSON.joinWith] in Hlen |- *.
    destruct fm as [|fm]; [lia|].
    rewrite parseElements_step.
    rewrite values; [| lia | exact Hv | exact Hinner | lia].
    now rewrite closing_bracket by exact indent_ws.
  - change (map (JSON.serialize gap (indent ++ gap)) (v :: v2 :: items))
      with (JSON.serialize gap (indent ++ gap) v
            :: map (JSON.serialize gap (indent ++ gap)) (v2 :: items)) in *.
    remember (map (JSON.serialize gap (indent ++ gap)) (v2 :: items)) as parts eqn:Eparts.
    assert (Hparts : exists p ps, parts = p :: ps) by (rewrite Eparts; cbn [map]; eauto).
    destruct Hparts as (p & ps & Eps).
    assert (Hjoin : JSON.joinWith (separator gap (indent ++ gap))
                      (JSON.serialize gap (indent ++ gap) v :: parts)
                    = JSON.serialize gap (indent ++ gap) v
                      ++ separator gap (indent ++ gap)
                      ++ JSON.joinWith (separator gap (indent ++ gap)) parts)
      by (rewrite Eps; reflexivity).
    rewrite Hjoin in Hlen |- *. clear Hjoin Eps p ps.
    rewrite !length_append in Hlen.
    destruct fm as [|fm]; [lia|].
    rewrite !append_assoc. rewrite parseElements_step.
    rewrite values; [| lia | exact Hv | exact Hinner | lia].
    unfold separator at 1.
    change (("," ++ lineBreak gap (indent ++ gap)) ++ ?t)
      with (String "," (lineBreak gap (indent ++ gap) ++ t)).
    change (JSON.skipWs (String "," ?x)) with (String "," x).
    lazy beta iota.
    destruct fm as [|fm]; [lia|].
    rewrite parseElements_step.
    rewrite parseValue_skip by exact Hbreak.
    rewrite <- parseElements_step.
    subst parts.
    rewrite IH; [now rewrite <- List.app_assoc | discriminate | lia | exact Hp | lia].
Qed.

End Members.

(** Reading back what [JSON.stringify] wrote with an indentation. *)
Lemma parseValue_plain (fuel : nat) :
  forall (v : json) (indent rest : string),
    plain v = true -> allWs indent = true ->
    String.length (JSON.serialize gap indent v) <= fuel ->
    JSON.parseValue fuel (JSON.serialize gap indent v ++ rest) = Some (v, rest).
Proof.
  induction fuel as [fuel IH] using Wf_nat.lt_wf_ind.
  intros v indent rest Hp Hi Hlen.
  pose proof (serialize_nonempty_pre indent v Hp) as H1.
  destruct fuel as [|f]; [lia|].
  destruct v as [| b | | s | items | fs]; try discriminate Hp.
  - reflexivity.
  - destruct b; reflexivity.
  - cbn [JSON.serialize]. rewrite quote_app. apply parseValue_string.
  - rewrite serialize_arr in Hlen |- *.
    destruct items as [|v items]; [reflexivity|].
    cbn [plain] in Hp.
    set (M := JSON.joinWith _ _) in *.
    assert (HM : exists c x, M ++ lineBreak gap indent ++ String "]" rest = String c x
                             /\ In c ["n"; "t"; "f"; JSON.dquote; "{"; "["]%char).
    { unfold M. cbn [map]. cbn [forallb] in Hp. apply andb_true_iff in Hp as [Hv _].
      destruct (map (JSON.serialize gap (indent ++ gap)) items);
        cbn [JSON.joinWith]; rewrite ?append_assoc; now apply serialize_head. }
    destruct HM as (c & x & Hx & Hc).
    assert (Htext : ("[" ++ lineBreak gap (indent ++ gap) ++ M
                     ++ lineBreak gap indent ++ "]") ++ rest
                    = String "[" (lineBreak gap (indent ++ gap)
                                  ++ (M ++ lineBreak gap indent ++ String "]" rest))).
    { cbn [append]. rewrite !append_assoc. reflexivity. }
    rewrite Htext.
    assert (Hskip : JSON.skipWs (lineBreak gap (indent ++ gap)
                                 ++ (M ++ lineBreak gap indent ++ String "]" rest))
                    = String c x).
    { rewrite skipWs_app_ws
        by (apply lineBreak_ws; rewrite allWs_app, Hi, gap_ws; reflexivity).
      rewrite Hx. cbn [In] in Hc.
      destruct Hc as [<-|[<-|[<-|[<-|[<-|[<-|[]]]]]]]; reflexivity. }
    cbn [JSON.parseValue]. change (JSON.skipWs (String "[" ?t)) with (String "[" t).
    lazy beta iota.
    replace (Ascii.eqb "[" "{") with false by reflexivity.
    replace (Ascii.eqb "[" "[") with true by reflexivity.
    rewrite Hskip.
    assert (Hgo : JSON.parseElements f (String c x) [] = Some (JArr (v :: items), rest)).
    { rewrite <- Hx. unfold M.
      apply (parseElements_plain (S f) indent rest Hi); trivial.
      + intros f' v' indent' rest' Hf'. now apply IH.
      + discriminate.
      + lia.
      + fold M. cbn [append String.length] in Hlen. rewrite !length_append in Hlen.
        cbn [String.length] in Hlen. lia. }
    cbn [In] in Hc.
    destruct Hc as [<-|[<-|[<-|[<-|[<-|[<-|[]]]]]]]; exact Hgo.
  - rewrite serialize_obj in Hlen |- *.
    destruct fs as [|kv fs]; [reflexivity|].
    cbn [plain] in Hp. apply andb_true_iff in Hp as [Hvals Hkeys].
    set (M := JSON.joinWith _ _) in *.
    assert (HM : exists x, M ++ lineBreak gap indent ++ String "}" rest
                           = String JSON.dquote x).
    { unfold M. destruct kv as [k v]. cbn [map].
      destruct (map (memberText gap (indent ++ gap)) fs);
        cbn [JSON.joinWith]; rewrite ?append_assoc, memberText_app; eauto. }
    destruct HM as [x Hx].
    assert (Htext : ("{" ++ lineBreak gap (indent ++ gap) ++ M
                     ++ lineBreak gap indent ++ "}") ++ rest
                    = String "{" (lineBreak gap (indent ++ gap)
                                  ++ (M ++ lineBreak gap indent ++ String "}" rest))).
    { cbn [append]. rewrite !append_assoc. reflexivity. }
    rewrite Htext.
    assert (Hskip : JSON.skipWs (lineBreak gap (indent ++ gap)
                                 ++ (M ++ lineBreak gap indent ++ String "}" rest))
                    = String JSON.dquote x).
    { rewrite skipWs_app_ws
        by (apply lineBreak_ws; rewrite allWs_app, Hi, gap_ws; reflexivity).
      rewrite Hx. reflexivity. }
    cbn [JSON.parseValue]. change (JSON.skipWs (String "{" ?t)) with (String "{" t).
    lazy beta iota.
    replace (Ascii.eqb "{" "{") with true by reflexivity.
    rewrite Hskip.
    change (JSON.parseMembers f (String JSON.dquote x) [] = Some (JObj (kv :: fs), rest)).
    rewrite <- Hx. unfold M.
    apply (parseMembers_plain (S f) indent rest Hi); trivial.
    + intros f' v' indent' rest' Hf'. now apply IH.
    + discriminate.
    + lia.
    + fold M. cbn [append String.length] in Hlen. rewrite !length_append in Hlen.
      cbn [String.length] in Hlen. lia.
Qed.

(** [JSON.parse (JSON.stringify (v, null, indentation))] for a plain value. *)
Lemma parse_serialize_plain (v : json) :
  plain v = true -> JSON.parse (JSON.serialize gap EmptyString v) = Some v.
Proof.
  intros Hp. unfold JSON.parse.
  rewrite <- (append_nil_r (JSON.serialize gap EmptyString v)) at 2.
  rewrite parseValue_plain; [reflexivity | exact Hp | reflexivity | lia].
Qed.

End PlainRoundTrip.

Lemma parse_stringify2_plain (v : json) :
  plain v = true -> JSON.parse (JSON.stringify2 v) = Some v.
Proof. apply parse_serialize_plain; reflexivity. Qed.

Lemma parse_stringify_plain (v : json) :
  plain v = true -> JSON.parse (JSON.stringify v) = Some v.
Proof. apply parse_serialize_plain; reflexivity. Qed.

Lemma keysInOrder_app (seen ks : list string) (k : string) :
  keysInOrder seen ks = true ->
  existsb (String.eqb k) seen = false -> existsb (String.eqb k) ks = false ->
  JSON.arrayIndex k = None ->
  keysInOrder seen (ks ++ [k]) = true.
Proof.
  revert seen. induction ks as [|k0 ks IH]; intros seen H Hs Hk Hi.
  - cbn [app keysInOrder]. now rewrite Hs, Hi.
  - cbn [app keysInOrder] in H |- *.
    apply andb_true_iff in H as [H Hr]. rewrite H. cbn [andb].
    cbn [existsb] in Hk. apply orb_false_iff in Hk as [Hk0 Hk].
    apply IH; trivial. cbn [existsb]. now rewrite Hk0, Hs.
Qed.

Lemma map_fst_replaceVal (k : string) (v : json) (f : list (string * json)) :
  map fst (JSON.replaceVal k v f) = map fst f.
Proof.
  induction f as [|[k0 v0] f IH]; cbn [JSON.replaceVal map fst]; [reflexivity|].
  destruct (String.eqb k k0); cbn [map fst]; [reflexivity | now rewrite IH].
Qed.

Lemma forallb_replaceVal (k : string) (v : json) (f : list (string * json)) :
  plain v = true ->
  forallb (fun kv => plain (snd kv)) f = true ->
  forallb (fun kv => plain (snd kv)) (JSON.replaceVal k v f) = true.
Proof.
  intros Hv. induction f as [|[k0 v0] f IH]; cbn [JSON.replaceVal forallb snd]; [reflexivity|].
  intros H. apply andb_true_iff in H as [H0 Hr].
  destruct (String.eqb k k0); cbn [forallb snd]; [now rewrite Hv | now rewrite H0, IH].
Qed.

Lemma lookup_none_keys (k : string) (f : list (string * json)) :
  JSON.lookup k f = None -> existsb (String.eqb k) (map fst f) = false.
Proof.
  induction f as [|[k0 v0] f IH]; cbn [JSON.lookup map fst existsb]; [reflexivity|].
  destruct (String.eqb k k0); [discriminate | exact IH].
Qed.

(** Setting a named key on a plain object keeps it plain. *)
Lemma plain_setField (k : string) (v : json) (f : list (string * json)) :
  JSON.arrayIndex k = None -> plain v = true -> plain (JObj f) = true ->
  plain (JObj (JSON.setField k v f)) = true.
Proof.
  intros Hi Hv Hp. cbn [plain] in Hp |- *. apply andb_true_iff in Hp as [Hvals Hkeys].
  unfold JSON.setField. destruct (JSON.lookup k f) eqn:L.
  - now rewrite forallb_replaceVal, map_fst_replaceVal.
  - rewrite (insertNew_named _ _ _ Hi), forallb_app, List.map_app, Hvals.
    cbn [forallb snd map fst andb]. rewrite Hv. cbn [andb].
    apply keysInOrder_app; trivial. now apply lookup_none_keys.
Qed.

Lemma plain_associationObject (a : Association) : plain (associationObject a) = true.
Proof. reflexivity. Qed.

Lemma plain_defaultManifest (d : string) : plain (Generate.defaultManifest d) = true.
Proof. reflexivity. Qed.

Lemma plain_mergedManifest (m : json) (a : Association) :
  plain m = true -> plain (mergedManifest m a) = true.
Proof.
  destruct m as [| | | | |f]; trivial. intros H. cbn [mergedManifest].
  apply plain_setField; trivial.
Qed.

(** X1. The payload the generator encodes is read back by the verifier's
    [decodeBase64] as exactly the object with the one field [domain]: for
    every domain string, JSON text, UTF-8 and base64 lose nothing. *)
Theorem payload_roundtrip (d : string) :
  Verify.decodeBase64 (Generate.createPayload d) = JObj [("domain", JStr d)].
Proof. apply decodeBase64_createPayload. Qed.

(** X2. From the header the generator encodes for any fid string and any
    public key, the verifier reads back the same key bytes and the type
    [custody]; its fid check gives [null] when [parseInt] read no number
    or one too large for a finite Number (both are written as [null]), the
    number 0 for zero, and otherwise tells whether the number is
    positive. *)
Theorem header_roundtrip (fid : string) (publicKey : bytes) :
  let h := Verify.decodeBase64 (Generate.createHeader fid publicKey) in
  Verify.hexToBytes (JSON.getProp h "key") = Some publicKey
  /\ JSON.getProp h "type" = Some (JStr "custody")
  /\ Verify.fidCheck h = expectedFidFlag fid.
Proof.
  intros h. subst h. destruct (key_createHeader fid publicKey) as (K & T & _).
  repeat split; trivial. apply fidCheck_createHeader.
Qed.

(** X3. After a successful [generateAccountAssociation], the self-check
    [verifySignature] finds the key in the header it decodes and calls
    [ed25519.verify] exactly once, on the signature bytes [sign] returned,
    the message that was signed and the public key [getPublicKey]
    returned; it answers that verdict, or [false] when the call throws. *)
Theorem self_check_verifies_what_was_signed (E : Ed25519) (w w' : World) (a : Association) :
  Generate.generateAccountAssociation E w = (Ok a, w') ->
  let priv := hexToBytes (the (privateKey (config w))) in
  let msg := JS.encodeUtf8 (composeMessage (header a) (payload a)) in
  exists pub sig,
    getPublicKey E priv = Some pub
    /\ sign E msg priv = Some sig
    /\ Generate.verifySignature E a w'
       = (Ok (match verify E sig msg pub with Some b => b | None => false end),
          mkWorld (config w') (manifestFile w') (writable w')
                  (trace w' ++ [EvVerify sig msg pub])%list).
Proof.
  intros G priv msg. subst priv msg.
  destruct (generate_ok E _ _ _ G) as (k & pub & sig & Hk & Hpub & Hh & Hp & Hs & Hd & Hw).
  rewrite Hk. cbn [the]. exists pub, sig. repeat split; trivial.
  pose proof (verifySignature_created E (the (fid (config w))) pub (payload a) (signature a) w') as Hv.
  cbn zeta in Hv. cbn [header] in Hv. rewrite <- Hh in Hv. rewrite <- association_eta in Hv.
  rewrite Hv, Hd. reflexivity.
Qed.

Lemma self_check_verifies_what_was_signed_witness :
  exists pub sig,
    getPublicKey (fixedEngine false) (hexToBytes sampleKey) = Some pub
    /\ sign (fixedEngine false)
         (JS.encodeUtf8 (composeMessage (header generatedAssociation)
                                        (payload generatedAssociation)))
         (hexToBytes sampleKey) = Some sig
    /\ Generate.verifySignature (fixedEngine false) generatedAssociation (snd generatedRun)
       = (Ok (match verify (fixedEngine false) sig
                      (JS.encodeUtf8 (composeMessage (header generatedAssociation)
                                                     (payload generatedAssociation))) pub
              with Some b => b | None => false end),
          mkWorld (config (snd generatedRun)) (manifestFile (snd generatedRun))
                  (writable (snd generatedRun))
                  (trace (snd generatedRun)
                   ++ [EvVerify sig
                         (JS.encodeUtf8 (composeMessage (header generatedAssociation)
                                                        (payload generatedAssociation)))
                         pub])%list).
Proof.
  apply (self_check_verifies_what_was_signed (fixedEngine false)
           (validatedWorld sampleWorld) (snd generatedRun) generatedAssociation).
  vm_compute. reflexivity.
Defined.

(** X4. On an association the generator produced, the stand-alone verifier
    always returns a full report (never [false], never an exception):
    header and payload valid, the domain and fid flags as computed from
    the configured domain and fid, and a signature verdict equal to what
    the generator's own self-check answers. *)
Theorem verifier_reports_generated (E : Ed25519) (w w' : World) (a : Association) :
  Generate.generateAccountAssociation E w = (Ok a, w') ->
  exists pub,
    getPublicKey E (hexToBytes (the (privateKey (config w)))) = Some pub
    /\ Verify.verifyAccountAssociation E a
       = Verify.Returned
           (Verify.mkReport true true
              (expectedDomainFlag (the (domain (config w))))
              (expectedFidFlag (the (fid (config w))))
              (signatureVerdict E a pub)
              (if signatureVerdict E a pub then "real/ed25519" else "invalid")
              true
              (if signatureVerdict E a pub
               then "Real Ed25519 signature verified successfully"
               else "Signature verification failed"))
    /\ fst (Generate.verifySignature E a w') = Ok (signatureVerdict E a pub).
Proof.
  intros G.
  destruct (generate_ok E _ _ _ G) as (k & pub & sig & Hk & Hpub & Hh & Hp & Hs & Hd & Hw).
  rewrite Hk. cbn [the]. exists pub. split; [exact Hpub|].
  pose proof (verifier_created E (the (fid (config w))) (the (domain (config w))) pub (signature a)) as Hr.
  pose proof (verifySignature_created E (the (fid (config w))) pub (payload a) (signature a) w') as Hv.
  cbn zeta in Hr, Hv. cbn [header] in Hv. rewrite <- Hh, <- Hp in Hr. rewrite <- Hh in Hv.
  rewrite <- association_eta in Hr, Hv. split; [exact Hr|].
  rewrite Hv. reflexivity.
Qed.

Lemma verifier_reports_generated_witness :
  exists pub,
    getPublicKey (fixedEngine false) (hexToBytes sampleKey) = Some pub
    /\ Verify.verifyAccountAssociation (fixedEngine false) generatedAssociation
       = Verify.Returned
           (Verify.mkReport true true
              (expectedDomainFlag "example.com") (expectedFidFlag "3621")
              (signatureVerdict (fixedEngine false) generatedAssociation pub)
              (if signatureVerdict (fixedEngine false) generatedAssociation pub
               then "real/ed25519" else "invalid")
              true
              (if signatureVerdict (fixedEngine false) generatedAssociation pub
               then "Real Ed25519 signature verified successfully"
               else "Signature verification failed"))
    /\ fst (Generate.verifySignature (fixedEngine false) generatedAssociation (snd generatedRun))
       = Ok (signatureVerdict (fixedEngine false) generatedAssociation pub).
Proof.
  apply (verifier_reports_generated (fixedEngine false)
           (validatedWorld sampleWorld) (snd generatedRun) generatedAssociation).
  vm_compute. reflexivity.
Defined.

(** X5. A private key that [validateConfig] accepted, with or without its
    [0x] prefix, is turned by [hexToBytes] into exactly 32 bytes, and
    writing those bytes back with [bytesToHex] gives the key's 64 digits in
    lower case: no digit is misread. *)
Theorem validated_key_is_32_bytes (w w' : World) :
  Generate.validateConfig w = (Ok tt, w') ->
  exists k,
    privateKey (config w) = Some k
    /\ privateKey (config w') = Some k
    /\ List.length (hexToBytes k) = 32
    /\ bytesToHex (hexToBytes k) = toLowerCase (JS.replace_0x k).
Proof.
  rewrite validateConfig_cases.
  destruct (rejectedConfig (config w)) eqn:R; [discriminate|].
  intros H. inversion H; subst; clear H.
  unfold rejectedConfig in R. apply orb_false_iff in R as [R Hk].
  apply negb_false_iff in Hk. unfold Generate.privateKeyRegex_test in Hk.
  apply andb_true_iff in Hk as [Hlen Hhex]. apply Nat.eqb_eq in Hlen.
  repeat (apply orb_false_iff in R as [R ?]).
  destruct (privateKey (config w)) as [k|] eqn:K; [|discriminate].
  cbn [the] in Hlen, Hhex. exists k. cbn [validatedWorld config privateKey].
  rewrite K. repeat split.
  - rewrite hexToBytes_pairs, pairBytes_length, Hlen. reflexivity.
  - rewrite hexToBytes_pairs. apply bytesToHex_pairBytes; [exact Hhex|].
    now rewrite Hlen.
Qed.

Lemma validated_key_is_32_bytes_witness :
  exists k,
    privateKey (config sampleWorld) = Some k
    /\ privateKey (config (validatedWorld sampleWorld)) = Some k
    /\ List.length (hexToBytes k) = 32
    /\ bytesToHex (hexToBytes k) = toLowerCase (JS.replace_0x k).
Proof.
  apply (validated_key_is_32_bytes sampleWorld (validatedWorld sampleWorld)).
  reflexivity.
Defined.

(** X6. On a string of hexadecimal digits of even length, with or without
    a [0x] prefix, [bytesToHex (hexToBytes s)] is [s] in lower case. *)
Theorem hex_text_roundtrip (s : string) :
  Generate.allHex s = true -> Nat.even (String.length s) = true ->
  bytesToHex (hexToBytes s) = toLowerCase s
  /\ bytesToHex (hexToBytes ("0x" ++ s)) = toLowerCase s.
Proof.
  intros Hh He. rewrite !hexToBytes_pairs, replace_0x_prefixed, (allHex_no_prefix s Hh).
  split; now apply bytesToHex_pairBytes.
Qed.

Lemma hex_text_roundtrip_witness :
  Generate.allHex "DeadBEEF00ff" = true
  /\ Nat.even (String.length "DeadBEEF00ff") = true
  /\ bytesToHex (hexToBytes "DeadBEEF00ff") = "deadbeef00ff"
  /\ bytesToHex (hexToBytes "0xDeadBEEF00ff") = "deadbeef00ff".
Proof.
  split; [reflexivity|]. split; [reflexivity|].
  apply (hex_text_roundtrip "DeadBEEF00ff"); reflexivity.
Defined.

(** X8. A run of [main] that completes made exactly four calls, in this
    order: [getPublicKey] on the configured key, [sign] on the message
    [header.payload] with that key, [verify] on the returned signature,
    that message and the returned public key, and one write of the
    manifest; the stored signature decodes to the signature returned, and
    the file holds the text written. *)
Theorem main_success_trace (E : Ed25519) (w w' : World) :
  Generate.main E w = (Ok tt, w') ->
  let priv := hexToBytes (the (privateKey (config w))) in
  exists a pub sig,
    let msg := JS.encodeUtf8 (composeMessage (header a) (payload a)) in
    let text := JSON.stringify2 (mergedManifest (loadedManifest w) a) in
    getPublicKey E priv = Some pub
    /\ sign E msg priv = Some sig
    /\ header a = Generate.createHeader (the (fid (config w))) pub
    /\ payload a = Generate.createPayload (JS.replace_protocol (the (domain (config w))))
    /\ Base64.decode (signature a) = sig
    /\ trace w' = (trace w ++ [EvGetPublicKey priv; EvSign msg priv;
                               EvVerify sig msg pub; EvWriteFile text])%list
    /\ manifestFile w' = Some text.
Proof.
  intros H priv. subst priv.
  destruct (main_success E w w' H) as (a & w2 & pub & R & G & Hpub & _ & ->).
  destruct (generate_ok E _ _ _ G) as (k & pub' & sig & Hk & Hpub' & Hh & Hp & Hs & Hd & Hw).
  cbn [validatedWorld config privateKey fid domain the trace manifestFile writable] in *.
  rewrite Hk in *. cbn [the] in *.
  assert (pub' = pub) as -> by congruence.
  exists a, pub, sig. cbn zeta. repeat split; trivial.
  cbn [trace]. rewrite Hw. cbn [trace]. rewrite Hd, <- List.app_assoc. reflexivity.
Qed.

Lemma main_success_trace_witness :
  exists a pub sig,
    getPublicKey (fixedEngine true) (hexToBytes sampleKey) = Some pub
    /\ sign (fixedEngine true) (JS.encodeUtf8 (composeMessage (header a) (payload a)))
         (hexToBytes sampleKey) = Some sig
    /\ header a = Generate.createHeader "3621" pub
    /\ payload a = Generate.createPayload "example.com"
    /\ Base64.decode (signature a) = sig
    /\ trace (snd savedRun)
       = [EvGetPublicKey (hexToBytes sampleKey);
          EvSign (JS.encodeUtf8 (composeMessage (header a) (payload a))) (hexToBytes sampleKey);
          EvVerify sig (JS.encodeUtf8 (composeMessage (header a) (payload a))) pub;
          EvWriteFile (JSON.stringify2 (mergedManifest (loadedManifest sampleWorld) a))]
    /\ manifestFile (snd savedRun)
       = Some (JSON.stringify2 (mergedManifest (loadedManifest sampleWorld) a)).
Proof.
  apply (main_success_trace (fixedEngine true) sampleWorld (snd savedRun)).
  vm_compute. reflexivity.
Defined.

(** X9. [loadOrCreateManifest] never fails and changes nothing: it returns
    the parsed manifest file when the file parses, and the default
    manifest for the configured domain in every other case; a missing file
    and an empty file both count as no manifest. *)
Theorem load_or_default (w : World) :
  Generate.loadOrCreateManifest w
  = (Ok (match manifestOnDisk w with
         | Some m => m
         | None => Generate.defaultManifest (the (domain (config w)))
         end), w)
  /\ manifestOnDisk (mkWorld (config w) None (writable w) (trace w)) = None
  /\ manifestOnDisk (mkWorld (config w) (Some EmptyString) (writable w) (trace w)) = None.
Proof. split; [apply loadOrCreateManifest_spec | split; reflexivity]. Qed.

(** X10. When the manifest [main] starts from is not an object, the run
    either exits with code 1, or the manifest is an array, the run
    completes, and the file written is that array again: the association
    is not stored. *)
Theorem manifest_that_is_no_object (E : Ed25519) (w : World) :
  (forall f, loadedManifest w <> JObj f) ->
  fst (Generate.main E w) = Exit 1%Z
  \/ exists items,
       loadedManifest w = JArr items
       /\ fst (Generate.main E w) = Ok tt
       /\ manifestFile (snd (Generate.main E w)) = Some (JSON.stringify2 (JArr items)).
Proof.
  intros Hno.
  destruct (Generate.main E w) as [[[]|e|c] w'] eqn:Hm.
  - destruct (main_success E w w' Hm) as (a & w2 & pub & _ & _ & _ & [[f Hf]|[items Hi]] & ->).
    + now destruct (Hno f).
    + right. exists items. rewrite Hi. repeat split.
  - destruct (main_outcome E w) as [H|[H _]]; rewrite Hm in H; cbn in H; discriminate.
  - destruct (main_outcome E w) as [H|[H _]]; rewrite Hm in H; cbn in H;
      [discriminate|]. left. exact H.
Qed.

Lemma manifest_that_is_no_object_witness :
  (forall f, loadedManifest arrayWorld <> JObj f)
  /\ (fst (Generate.main (fixedEngine true) arrayWorld) = Exit 1%Z
      \/ exists items,
           loadedManifest arrayWorld = JArr items
           /\ fst (Generate.main (fixedEngine true) arrayWorld) = Ok tt
           /\ manifestFile (snd (Generate.main (fixedEngine true) arrayWorld))
              = Some (JSON.stringify2 (JArr items))).
Proof.
  split; [intros f; vm_compute; discriminate|].
  apply (manifest_that_is_no_object (fixedEngine true) arrayWorld).
  intros f. vm_compute. discriminate.
Defined.

(** X7. [main] of the generator never ends in an exception: it either
    completes, or exits with code 1.  In that case no write completed and
    nothing but calls into the Ed25519 package is in the trace; the
    manifest file is what it was, unless the write itself failed on the
    opened file, which [writeFileSync] had emptied: then the file holds
    the part of the new manifest text that was written. *)
Theorem main_failure_keeps_file (E : Ed25519) (w : World) :
  fst (Generate.main E w) = Ok tt
  \/ (fst (Generate.main E w) = Exit 1%Z
      /\ (exists t, trace (snd (Generate.main E w)) = (trace w ++ t)%list
                    /\ forallb isCryptoEvent t = true)
      /\ (manifestFile (snd (Generate.main E w)) = manifestFile w
          \/ exists n a,
               writable w = FailsAfter n
               /\ fst (Generate.generateAccountAssociation E (validatedWorld w)) = Ok a
               /\ manifestFile (snd (Generate.main E w))
                  = Some (substring 0 n
                            (JSON.stringify2 (mergedManifest (loadedManifest w) a))))).
Proof. apply main_outcome. Qed.

(** X11. The placeholder generator's output is not Ed25519 material: with
    64-character digests, its stored signature decodes to 98 bytes (the
    text [0x], the digest and its first 32 characters), and the key the
    verifier reads from its header is 20 bytes long. *)
Theorem placeholder_is_not_ed25519 (sha256hex : string -> string) (w w' : World)
        (a : Association) :
  (forall s, String.length (sha256hex s) = 64) ->
  PlaceholderScript.generateAccountAssociation sha256hex w = (Ok a, w') ->
  List.length (Base64.decode (signature a)) = 98
  /\ exists publicKeyBytes,
       Verify.hexToBytes (JSON.getProp (Verify.decodeBase64 (header a)) "key")
       = Some publicKeyBytes
       /\ List.length publicKeyBytes = 20.
Proof. apply placeholder_not_ed25519. Qed.

Lemma placeholder_is_not_ed25519_witness :
  List.length (Base64.decode (signature placeholderAssociation)) = 98
  /\ exists publicKeyBytes,
       Verify.hexToBytes (JSON.getProp (Verify.decodeBase64 (header placeholderAssociation)) "key")
       = Some publicKeyBytes
       /\ List.length publicKeyBytes = 20.
Proof.
  apply (placeholder_is_not_ed25519 zeroDigest sampleWorld sampleWorld placeholderAssociation).
  - intros s. reflexivity.
  - vm_compute. reflexivity.
Defined.

(** X13. What [saveManifest] writes, [loadOrCreateManifest] reads back:
    for a manifest made of objects (with distinct keys, none an array
    index), arrays, strings, booleans and [null], parsing the indented
    text gives the manifest again. *)
Theorem save_then_load (m : json) (w w' : World) :
  plain m = true ->
  Generate.saveManifest m w = (Ok tt, w') ->
  JSON.parse (JSON.stringify2 m) = Some m
  /\ Generate.loadOrCreateManifest w' = (Ok m, w').
Proof.
  intros Hp Hs. pose proof (parse_stringify2_plain m Hp) as Hr. split; [exact Hr|].
  rewrite loadOrCreateManifest_spec.
  revert Hs. cbv [Generate.saveManifest tryCatch writeFileSync throw].
  destruct (writable w); [|discriminate|discriminate]. intros H. inversion H; subst.
  unfold manifestOnDisk. cbn [manifestFile]. now rewrite Hr.
Qed.

Lemma save_then_load_witness :
  plain manifestAfter = true
  /\ JSON.parse (JSON.stringify2 manifestAfter) = Some manifestAfter
  /\ Generate.loadOrCreateManifest worldAfter = (Ok manifestAfter, worldAfter).
Proof.
  split; [reflexivity|].
  apply (save_then_load manifestAfter worldBefore worldAfter); [reflexivity|].
  vm_compute. reflexivity.
Defined.

(** X14. After a run of [main] that completes from a manifest without
    numbers, the file parses to the manifest [main] started from with the
    new association in it; when there was no readable manifest that is the
    default manifest for the cleaned domain plus the association. *)
Theorem saved_manifest_reads_back (E : Ed25519) (w w' : World) :
  Generate.main E w = (Ok tt, w') ->
  plain (loadedManifest w) = true ->
  exists a,
    fst (Generate.generateAccountAssociation E (validatedWorld w)) = Ok a
    /\ manifestOnDisk w' = Some (mergedManifest (loadedManifest w) a)
    /\ (forall f, loadedManifest w = JObj f ->
          JSON.getProp (mergedManifest (loadedManifest w) a) "accountAssociation"
          = Some (associationObject a))
    /\ (manifestOnDisk w = None ->
          mergedManifest (loadedManifest w) a
          = mergedManifest
              (Generate.defaultManifest (JS.replace_protocol (the (domain (config w))))) a).
Proof.
  intros H Hp.
  destruct (main_success E w w' H) as (a & w2 & pub & _ & G & _ & _ & ->).
  exists a. rewrite G. split; [reflexivity|]. split; [|split].
  - unfold manifestOnDisk at 1. cbn [manifestFile].
    apply parse_stringify2_plain. now apply plain_mergedManifest.
  - intros f ->. cbn [mergedManifest JSON.getProp]. apply lookup_setField_same.
  - intros Hd. unfold loadedManifest. rewrite Hd. reflexivity.
Qed.

Lemma saved_manifest_reads_back_witness :
  plain (loadedManifest sampleWorld) = true
  /\ exists a,
       fst (Generate.generateAccountAssociation (fixedEngine true) (validatedWorld sampleWorld))
       = Ok a
       /\ manifestOnDisk (snd savedRun) = Some (mergedManifest (loadedManifest sampleWorld) a)
       /\ (forall f, loadedManifest sampleWorld = JObj f ->
             JSON.getProp (mergedManifest (loadedManifest sampleWorld) a) "accountAssociation"
             = Some (associationObject a))
       /\ (manifestOnDisk sampleWorld = None ->
             mergedManifest (loadedManifest sampleWorld) a
             = mergedManifest (Generate.defaultManifest "example.com") a).
Proof.
  split; [reflexivity|].
  apply (saved_manifest_reads_back (fixedEngine true) sampleWorld (snd savedRun));
    [vm_compute; reflexivity | reflexivity].
Defined.

(** X12. The placeholder generator never creates a manifest.  [main]
    ends in one of three ways: it rewrote a manifest file that was there
    and parsed; or it exited with code 1 leaving everything as it was; or
    it exited with code 1 after its write failed on the opened file, and
    then too a manifest had been there and parsed, and the file holds the
    part of the new text that was written. *)
Theorem placeholder_never_creates_manifest (sha256hex : string -> string) (w : World) :
  (exists m',
      PlaceholderScript.main sha256hex w
      = (Ok tt, mkWorld (config w) (Some (JSON.stringify2 m')) Writable
                  (trace w ++ [EvWriteFile (JSON.stringify2 m')])%list)
      /\ writable w = Writable /\ manifestOnDisk w <> None)
  \/ PlaceholderScript.main sha256hex w = (Exit 1%Z, w)
  \/ (exists n m',
        PlaceholderScript.main sha256hex w
        = (Exit 1%Z, mkWorld (config w) (Some (substring 0 n (JSON.stringify2 m')))
                       (FailsAfter n) (trace w))
        /\ writable w = FailsAfter n /\ manifestOnDisk w <> None).
Proof. apply placeholder_main_outcomes_aux. Qed.

Lemma plain_lookup (k : string) (f : list (string * json)) (x : json) :
  forallb (fun kv => plain (snd kv)) f = true -> JSON.lookup k f = Some x -> plain x = true.
Proof.
  induction f as [|[k0 v0] f IH]; cbn [JSON.lookup forallb snd]; [discriminate|].
  intros H. apply andb_true_iff in H as [H0 Hr].
  destruct (String.eqb k k0); [intros [= <-]; exact H0 | now apply IH].
Qed.

Lemma plain_getProp (v x : json) (k : string) :
  plain v = true -> JSON.getProp v k = Some x -> plain x = true.
Proof.
  destruct v as [| | | | |f]; try discriminate. cbn [plain JSON.getProp].
  intros H. apply andb_true_iff in H as [H _]. now apply plain_lookup.
Qed.

Lemma keysInOrder_weaken (seen seen' ks : list string) :
  (forall k, existsb (String.eqb k) seen = false -> existsb (String.eqb k) seen' = false) ->
  keysInOrder seen ks = true -> keysInOrder seen' ks = true.
Proof.
  revert seen seen'. induction ks as [|k ks IH]; intros seen seen' Hs; [reflexivity|].
  cbn [keysInOrder]. intros H. apply andb_true_iff in H as [H Hr].
  apply andb_true_iff in H as [Hn Hi]. rewrite Hi.
  apply negb_true_iff in Hn. rewrite (Hs _ Hn). cbn [negb andb].
  apply (IH (k :: seen)); [|exact Hr].
  intros k'. cbn [existsb]. intros Hk. apply orb_false_iff in Hk as [-> Hk].
  now rewrite (Hs _ Hk).
Qed.

(** An object literal with distinct named keys and plain values is plain. *)
Lemma plain_objectOf (props : list (string * jsval)) (seen : list string) :
  (forall k x, In (k, Some x) props -> plain x = true) ->
  keysInOrder seen (map fst props) = true ->
  forallb (fun kv => plain (snd kv)) (Route.objectOf props) = true
  /\ keysInOrder seen (map fst (Route.objectOf props)) = true.
Proof.
  revert seen. induction props as [|[k [x|]] props IH]; intros seen Hv Hk.
  - split; reflexivity.
  - cbn [map fst keysInOrder] in Hk. apply andb_true_iff in Hk as [Hk Hr].
    destruct (IH (k :: seen)) as [IH1 IH2]; [|exact Hr|].
    { intros k' x' Hin. apply (Hv k' x'). now right. }
    cbn [Route.objectOf forallb snd map fst keysInOrder].
    rewrite (Hv k x (or_introl eq_refl)), IH1, Hk, IH2. split; reflexivity.
  - cbn [map fst keysInOrder] in Hk. apply andb_true_iff in Hk as [_ Hr].
    cbn [Route.objectOf]. apply IH.
    + intros k' x' Hin. apply (Hv k' x'). now right.
    + apply (keysInOrder_weaken (k :: seen)); [|exact Hr].
      intros k'. cbn [existsb]. intros H. now apply orb_false_iff in H as [_ H].
Qed.

Lemma plain_literal (props : list (string * jsval)) :
  (forall k x, In (k, Some x) props -> plain x = true) ->
  keysInOrder [] (map fst props) = true ->
  plain (JObj (Route.objectOf props)) = true.
Proof.
  intros Hv Hk. destruct (plain_objectOf props [] Hv Hk) as [H1 H2].
  cbn [plain]. now rewrite H1, H2.
Qed.

Ltac plain_props Hp :=
  intros ? ? Hin; cbn [In] in Hin;
  repeat (destruct Hin as [Hin|Hin];
          [injection Hin as <- Hin;
           first [ exact (plain_getProp _ _ _ Hp Hin) | now subst ] |]);
  contradiction.

Lemma plain_miniappEmbed (cfg : json) :
  plain cfg = true -> plain (Route.miniappEmbed cfg) = true.
Proof.
  intros Hp. unfold Route.miniappEmbed.
  assert (Ha : plain (JObj (Route.objectOf
            [("type", Some (JStr "launch_miniapp"));
             ("name", JSON.getProp cfg "name");
             ("url", JSON.getProp cfg "homeUrl");
             ("splashImageUrl", JSON.getProp cfg "splashImageUrl");
             ("splashBackgroundColor", JSON.getProp cfg "splashBackgroundColor")])) = true).
  { apply plain_literal; [plain_props Hp | reflexivity]. }
  set (action := JObj (Route.objectOf _)) in *.
  assert (Hb : plain (JObj (Route.objectOf
            [("title", JSON.getProp cfg "buttonTitle"); ("action", Some action)])) = true).
  { apply plain_literal; [|reflexivity].
    intros ? ? Hin; cbn [In] in Hin.
    destruct Hin as [Hin|[Hin|[]]]; injection Hin as <- Hin.
    - exact (plain_getProp _ _ _ Hp Hin).
    - now subst. }
  set (button := JObj (Route.objectOf _)) in *.
  apply plain_literal; [|reflexivity].
  intros ? ? Hin; cbn [In] in Hin.
  destruct Hin as [Hin|[Hin|[Hin|[]]]]; injection Hin as <- Hin.
  - exact (plain_getProp _ _ _ Hp Hin).
  - exact (plain_getProp _ _ _ Hp Hin).
  - now subst.
Qed.

(** What the page reads back from the tag's object. *)
Lemma embed_fields (cfg : json) :
  exists button action,
    JSON.getProp (Route.miniappEmbed cfg) "button" = Some button
    /\ JSON.getProp button "action" = Some action
    /\ JSON.getProp (Route.miniappEmbed cfg) "version" = JSON.getProp cfg "version"
    /\ JSON.getProp (Route.miniappEmbed cfg) "imageUrl" = JSON.getProp cfg "imageUrl"
    /\ JSON.getProp button "title" = JSON.getProp cfg "buttonTitle"
    /\ JSON.getProp action "type" = Some (JStr "launch_miniapp")
    /\ JSON.getProp action "name" = JSON.getProp cfg "name"
    /\ JSON.getProp action "url" = JSON.getProp cfg "homeUrl"
    /\ JSON.getProp action "splashImageUrl" = JSON.getProp cfg "splashImageUrl"
    /\ JSON.getProp action "splashBackgroundColor"
       = JSON.getProp cfg "splashBackgroundColor".
Proof.
  unfold Route.miniappEmbed.
  destruct (JSON.getProp cfg "version"), (JSON.getProp cfg "imageUrl"),
    (JSON.getProp cfg "buttonTitle"), (JSON.getProp cfg "name"),
    (JSON.getProp cfg "homeUrl"), (JSON.getProp cfg "splashImageUrl"),
    (JSON.getProp cfg "splashBackgroundColor");
    do 2 eexists; repeat split; reflexivity.
Qed.

Lemma stripBOM_serialize (gap : string) (v : json) :
  allWs gap = true -> plain v = true ->
  Route.stripBOM (JSON.serialize gap EmptyString v) = JSON.serialize gap EmptyString v.
Proof.
  intros Hg Hp.
  destruct (serialize_head gap EmptyString v EmptyString Hp) as (c & x & Hx & Hc).
  rewrite append_nil_r in Hx. rewrite Hx.
  cbn [In] in Hc.
  destruct Hc as [<-|[<-|[<-|[<-|[<-|[<-|[]]]]]]];
    destruct x as [|b [|d r]]; reflexivity.
Qed.

Lemma meta_tag (d : Route.LoaderData) :
  JSON.truthy (Some (Route.config d)) = true ->
  Route.meta (Some d)
  = [JObj [("title", Route.orElse (Route.title d) (JStr "New Remix App"))];
     JObj [("name", JStr "description"); ("content", JStr "Welcome to Remix!")];
     JObj [("name", JStr "fc:miniapp");
           ("content", JStr (JSON.stringify (Route.miniappEmbed (Route.config d))))]].
Proof. intros H. unfold Route.meta. cbn [option_map]. rewrite H. reflexivity. Qed.

(** The loader on a served manifest that is a plain object whose
    [miniapp] is an object or an array. *)
Lemma loader_plain (gap : string) (m mini : json) :
  allWs gap = true -> plain m = true ->
  JSON.getProp m "miniapp" = Some mini -> mini <> JNull ->
  Route.loader (Route.Response true (JSON.serialize gap EmptyString m))
  = Route.mkLoaderData (JSON.getProp mini "name") (JSON.getProp mini "homeUrl") mini.
Proof.
  intros Hg Hp Hm Hn. unfold Route.loader. cbn [negb].
  rewrite (stripBOM_serialize gap m Hg Hp), (parse_serialize_plain gap Hg m Hp).
  cbn [Route.member]. destruct m as [| | | | |f]; try discriminate.
  rewrite Hm. destruct mini; try reflexivity. contradiction.
Qed.

(** X15. When the loader data's [config] is truthy and holds no numbers,
    [meta] returns three tags, the third named fc:miniapp, and its content
    parses as JSON to an object from which every field of [config] the tag
    uses reads back unchanged: version, imageUrl, button.title, and under
    button.action the fixed type launch_miniapp, name, url (the homeUrl),
    splashImageUrl and splashBackgroundColor; a field [config] lacks is
    absent. *)
Theorem miniapp_tag_reads_back (d : Route.LoaderData) :
  plain (Route.config d) = true ->
  JSON.truthy (Some (Route.config d)) = true ->
  exists content embed button action,
    Route.meta (Some d)
    = [JObj [("title", Route.orElse (Route.title d) (JStr "New Remix App"))];
       JObj [("name", JStr "description"); ("content", JStr "Welcome to Remix!")];
       JObj [("name", JStr "fc:miniapp"); ("content", JStr content)]]
    /\ JSON.parse content = Some embed
    /\ JSON.getProp embed "button" = Some button
    /\ JSON.getProp button "action" = Some action
    /\ JSON.getProp embed "version" = JSON.getProp (Route.config d) "version"
    /\ JSON.getProp embed "imageUrl" = JSON.getProp (Route.config d) "imageUrl"
    /\ JSON.getProp button "title" = JSON.getProp (Route.config d) "buttonTitle"
    /\ JSON.getProp action "type" = Some (JStr "launch_miniapp")
    /\ JSON.getProp action "name" = JSON.getProp (Route.config d) "name"
    /\ JSON.getProp action "url" = JSON.getProp (Route.config d) "homeUrl"
    /\ JSON.getProp action "splashImageUrl" = JSON.getProp (Route.config d) "splashImageUrl"
    /\ JSON.getProp action "splashBackgroundColor"
       = JSON.getProp (Route.config d) "splashBackgroundColor".
Proof.
  intros Hp Ht.
  destruct (embed_fields (Route.config d)) as (button & action & Hfields).
  exists (JSON.stringify (Route.miniappEmbed (Route.config d))),
         (Route.miniappEmbed (Route.config d)), button, action.
  split; [now apply meta_tag|].
  split; [|exact Hfields].
  apply parse_stringify_plain. now apply plain_miniappEmbed.
Qed.

Lemma miniapp_tag_reads_back_witness :
  exists content embed button action,
    Route.meta (Some Route.fallback)
    = [JObj [("title", JStr "New Remix App")];
       JObj [("name", JStr "description"); ("content", JStr "Welcome to Remix!")];
       JObj [("name", JStr "fc:miniapp"); ("content", JStr content)]]
    /\ JSON.parse content = Some embed
    /\ JSON.getProp embed "button" = Some button
    /\ JSON.getProp button "action" = Some action
    /\ JSON.getProp embed "version" = Some (JStr "1")
    /\ JSON.getProp embed "imageUrl" = Some (JStr EmptyString)
    /\ JSON.getProp button "title" = Some (JStr "Launch App")
    /\ JSON.getProp action "type" = Some (JStr "launch_miniapp")
    /\ JSON.getProp action "name" = Some (JStr "New Remix App")
    /\ JSON.getProp action "url" = Some (JStr "http://localhost:3000")
    /\ JSON.getProp action "splashImageUrl" = Some (JStr EmptyString)
    /\ JSON.getProp action "splashBackgroundColor" = Some (JStr "#0ea5e9").
Proof.
  apply (miniapp_tag_reads_back Route.fallback); reflexivity.
Defined.

(** X16. Signing leaves what the page shows untouched: after a run of the
    generator's [main] that completes from a manifest without numbers
    whose [miniapp] is not [null], [loader] on a response carrying the
    file written returns that [miniapp] as [config], with its name as
    title and its homeUrl. *)
Theorem signing_keeps_page_data (E : Ed25519) (w w' : World) (mini : json) :
  Generate.main E w = (Ok tt, w') ->
  plain (loadedManifest w) = true ->
  JSON.getProp (loadedManifest w) "miniapp" = Some mini ->
  mini <> JNull ->
  exists text,
    manifestFile w' = Some text
    /\ Route.loader (Route.Response true text)
       = Route.mkLoaderData (JSON.getProp mini "name") (JSON.getProp mini "homeUrl") mini.
Proof.
  intros H Hp Hm Hn.
  destruct (main_success E w w' H) as (a & w2 & pub & _ & _ & _ & _ & ->).
  exists (JSON.stringify2 (mergedManifest (loadedManifest w) a)).
  split; [reflexivity|].
  apply loader_plain; trivial; [now apply plain_mergedManifest|].
  destruct (loadedManifest w) as [| | | | |f]; try discriminate.
  cbn [mergedManifest JSON.getProp] in Hm |- *.
  rewrite lookup_setField_other; [exact Hm | discriminate].
Qed.

Lemma signing_keeps_page_data_witness :
  exists text,
    manifestFile (snd savedRun) = Some text
    /\ Route.loader (Route.Response true text)
       = Route.mkLoaderData (Some (JStr "Farcaster Mini App"))
                            (Some (JStr "https://example.com"))
                            (miniappOf (Generate.defaultManifest "example.com")).
Proof.
  apply (signing_keeps_page_data (fixedEngine true) sampleWorld (snd savedRun)
           (miniappOf (Generate.defaultManifest "example.com")));
    [vm_compute; reflexivity | reflexivity | reflexivity | discriminate].
Defined.

(** X17. After the placeholder generator's [updateManifest] has rewritten
    a manifest without numbers whose [miniapp] is an object, [loader] on a
    response carrying the file returns as homeUrl the configured domain
    itself, as [config] that object with homeUrl replaced by the domain,
    and as title the object's name. *)
Theorem placeholder_home_url_on_page
    (a : Association) (w w' : World) (m m' : json) (d : string)
    (f : list (string * json)) :
  Placeholder.updateManifest a w = (Ok m', w') ->
  manifestOnDisk w = Some m ->
  plain m = true ->
  JSON.getProp m "miniapp" = Some (JObj f) ->
  domain (config w) = Some d ->
  exists text,
    manifestFile w' = Some text
    /\ Route.loader (Route.Response true text)
       = Route.mkLoaderData (JSON.lookup "name" f) (Some (JStr d))
                            (JObj (JSON.setField "homeUrl" (JStr d) f)).
Proof.
  intros H Hd Hp Hm Hdom.
  assert (Hw : manifestFile w' = Some (JSON.stringify2 m')).
  { destruct (updateManifest_outcomes a w) as [(m'' & U & _)|[U|(n & m'' & U & _)]];
      rewrite U in H; [|discriminate|discriminate].
    inversion H; subst. reflexivity. }
  exists (JSON.stringify2 m'). split; [exact Hw|].
  apply updateManifest_ok in H as (m0 & m1 & D & A1 & Hrest).
  rewrite Hd in D. injection D as <-.
  destruct m as [| | | | |fs]; try discriminate.
  cbn [assignProp ret] in A1. injection A1 as <-.
  cbn [JSON.getProp] in Hm, Hrest.
  assert (Hmini : JSON.lookup "miniapp"
                    (JSON.setField "accountAssociation" (associationObject a) fs)
                  = Some (JObj f)).
  { rewrite lookup_setField_other; [exact Hm | discriminate]. }
  rewrite Hmini in Hrest.
  destruct Hrest as [[T _]|(mini & mini' & G & _ & A2 & A3)]; [discriminate|].
  injection G as <-. rewrite Hdom in A2.
  cbn [option_map assignProp ret] in A2, A3. injection A2 as <-. injection A3 as <-.
  assert (Hf : plain (JObj f) = true).
  { apply (plain_getProp (JObj fs) (JObj f) "miniapp" Hp Hm). }
  assert (Hmini' : plain (JObj (JSON.setField "homeUrl" (JStr d) f)) = true).
  { apply plain_setField; trivial. }
  rewrite (loader_plain "  " _ (JObj (JSON.setField "homeUrl" (JStr d) f))).
  - cbn [JSON.getProp]. rewrite lookup_setField_same.
    rewrite lookup_setField_other; [reflexivity | discriminate].
  - reflexivity.
  - apply plain_setField; trivial. apply plain_setField; trivial.
  - cbn [JSON.getProp]. apply lookup_setField_same.
  - discriminate.
Qed.

Lemma placeholder_home_url_on_page_witness :
  exists text,
    manifestFile worldAfter = Some text
    /\ Route.loader (Route.Response true text)
       = Route.mkLoaderData (Some (JStr "App")) (Some (JStr "example.com"))
           (JObj [("name", JStr "App"); ("homeUrl", JStr "example.com")]).
Proof.
  apply (placeholder_home_url_on_page sampleAssociation worldBefore worldAfter
           manifestBefore manifestAfter "example.com"
           [("name", JStr "App"); ("homeUrl", JStr "https://old.example")]);
    [vm_compute; reflexivity | vm_compute; reflexivity | reflexivity | reflexivity
    | reflexivity].
Defined.
